(** * Windowed sample assembly: [training/dataset.py]

    A shallow embedding of [Dataset.__init__], [Dataset.__getitem__],
    [Dataset.__len__] and [Dataset.collate_fn], and the properties of the
    windowing engine proved about it.

    Conventions of the embedding.
    - Python integers are [Z]; list positions and tensor dimensions are [nat].
    - A tensor has any number of dimensions: what [torch.load] and
      [torch.tensor(json.load(f))] return is not 2-D by construction, and the
      code reads [shape[0]] and [shape[1]] of what it gets.
    - A tensor cell holds a real number.  The code never computes with cells,
      it copies them, fills padding with one scalar and casts; the scalar is
      [torch.log] of the configured offset, here [ln].  Element types (dtypes)
      are not tracked: every pad is allocated with the dtype of the tensor it
      extends, [.float()] keeps the value of a cell and [.long()] truncates it
      toward zero.
    - [torch.zeros] rejects a size that does not fit a signed 64-bit integer;
      a size that fits is allocated: running out of memory is not modelled.
    - The disk is a finite map from paths to files and is only ever read.  A
      file is given by what each of the four readers of the program makes of
      it.
    - The dataset object is a mutable Python object: the methods run in a
      state-and-exception monad whose state is that object. *)

From Stdlib Require Import ZArith Reals Lra Lia Ascii String.

From stdpp Require Import base option list gmap strings.

Local Open Scope Z_scope.

(** ** Exceptions and the monads of the embedding *)

Inductive exn : Type :=
  | IndexError          (* list or tuple index out of range; slice of a 0-dim tensor *)
  | KeyError            (* missing dictionary key *)
  | ValueError          (* unpacking of the wrong arity; JSONDecodeError, ValidationError *)
  | TypeError           (* torch.zeros: a size that does not fit int64 *)
  | FileNotFoundError   (* open / torch.load on a missing path *)
  | UnpicklingError     (* torch.load on a file that torch.save did not write *)
  | RuntimeError.       (* torch: sizes or numbers of dimensions do not match *)

Inductive result (A : Type) : Type :=
  | Ok (a : A)
  | Raise (e : exn).

Arguments Ok {A} a.

Arguments Raise {A} e.

#[global] Instance result_ret : MRet result := @Ok.

#[global] Instance result_bind : MBind result := λ A B f r,
  match r with
  | Ok a => f a
  | Raise e => Raise e
  end.

(** A computation over a mutable state [S] that may raise: it returns the
    outcome together with the state it leaves behind, which is kept when an
    exception is raised. *)
Definition M (S A : Type) : Type := S → result A * S.

#[global] Instance M_ret {S} : MRet (M S) := λ A a s, (Ok a, s).

#[global] Instance M_bind {S} : MBind (M S) := λ A B f m s,
  match m s with
  | (Ok a, s') => f a s'
  | (Raise e, s') => (Raise e, s')
  end.

Definition get {S} : M S S := λ s, (Ok s, s).

Definition modify {S} (f : S → S) : M S unit := λ s, (Ok tt, f s).

Definition lift {S A} (r : result A) : M S A := λ s, (r, s).

(** ** Tensors *)

(** The cells of a 2-D tensor of shape [[length rows, shape1]], row by row. *)
Record Matrix : Type := mkMatrix {
  shape1 : nat;
  rows : list (list R);
}.

Definition shape0 (t : Matrix) : nat := length (rows t).

(** Every row has [shape1] cells: what torch guarantees of any tensor. *)
Definition rectangular (t : Matrix) : Prop :=
  Forall (λ r, length r = shape1 t) (rows t).

(** A tensor, by its number of dimensions.  The cells of a tensor of three
    dimensions or more are kept in row-major order. *)
Inductive Tensor : Type :=
  | Tensor0 (x : R)
  | Tensor1 (cells : list R)
  | Tensor2 (t : Matrix)
  | TensorN (d0 d1 d2 : nat) (ds : list nat) (cells : list R).

(** [t.shape] *)
Definition shape (t : Tensor) : list nat :=
  match t with
  | Tensor0 _ => []
  | Tensor1 cells => [length cells]
  | Tensor2 t => [shape0 t; shape1 t]
  | TensorN d0 d1 d2 ds _ => d0 :: d1 :: d2 :: ds
  end.

(** [t.shape[i]] *)
Definition shape_at (t : Tensor) (i : nat) : result nat :=
  match shape t !! i with
  | Some n => Ok n
  | None => Raise IndexError
  end.

(** The largest size torch accepts: sizes are signed 64-bit integers. *)
Definition int64_max : Z := 2 ^ 63 - 1.

(** [torch.zeros(n, k)] for a Python integer [n] and a dimension [k] read
    from a tensor. *)
Definition torch_zeros (n : Z) (k : nat) : result Matrix :=
  if int64_max <? n then Raise TypeError
  else if n <? 0 then Raise RuntimeError
  else Ok (mkMatrix k (replicate (Z.to_nat n) (replicate k 0%R))).

(** [t.fill_(v)] *)
Definition fill_ (t : Matrix) (v : R) : Matrix :=
  mkMatrix (shape1 t) ((λ r : list R, (λ _ : R, v) <$> r) <$> rows t).

(** [torch.cat([a, b], dim=0)] as the code calls it: one of [a] and [b] is a
    2-D pad and the other is the tensor whose [shape[1]] gave the width of
    the pad, so it has two dimensions or more.  The numbers of dimensions
    must agree, and the sizes except in dimension 0. *)
Definition torch_cat (a b : Tensor) : result Tensor :=
  match a, b with
  | Tensor2 a, Tensor2 b =>
      if decide (shape1 a = shape1 b)
      then Ok (Tensor2 (mkMatrix (shape1 a) (rows a ++ rows b)))
      else Raise RuntimeError
  | _, _ => Raise RuntimeError
  end.

(** The bound of a slice as Python adjusts it for a sequence of length [n]:
    a negative bound counts from the end, and the result is clamped to
    [0..n]. *)
Definition slice_bound (n i : Z) : Z :=
  if i <? 0 then Z.max 0 (i + n) else Z.min i n.

(** [l[start:stop]] *)
Definition py_slice {A} (l : list A) (start stop : Z) : list A :=
  let n := Z.of_nat (length l) in
  let a := slice_bound n start in
  let b := slice_bound n stop in
  take (Z.to_nat (b - a)) (drop (Z.to_nat a) l).

(** The rows [start:stop] of a 2-D tensor. *)
Definition slice_rows (t : Matrix) (start stop : Z) : Matrix :=
  mkMatrix (shape1 t) (py_slice (rows t) start stop).

(** The number of cells of a tensor of shape [sh]. *)
Definition numel (sh : list nat) : nat := foldr Nat.mul 1%nat sh.

(** [t[start:stop]]: a slice of the first dimension, which a tensor of no
    dimension does not have. *)
Definition tensor_slice (t : Tensor) (start stop : Z) : result Tensor :=
  match t with
  | Tensor0 _ => Raise IndexError
  | Tensor1 cells => Ok (Tensor1 (py_slice cells start stop))
  | Tensor2 t => Ok (Tensor2 (slice_rows t start stop))
  | TensorN d0 d1 d2 ds cells =>
      let a := slice_bound (Z.of_nat d0) start in
      let b := slice_bound (Z.of_nat d0) stop in
      let stride := numel (d1 :: d2 :: ds) in
      Ok (TensorN (Z.to_nat (b - a)) d1 d2 ds
            (take (Z.to_nat (b - a) * stride) (drop (Z.to_nat a * stride) cells)))
  end.

(** The transpose of a 2-D tensor. *)
Definition transpose (t : Matrix) : Matrix :=
  mkMatrix (shape0 t)
    ((λ j : nat, (λ r : list R, nth j r 0%R) <$> rows t) <$> seq 0 (shape1 t)).

(** The index of the cell at row-major position [pos] of a tensor of shape
    [sh], and the position of the cell of index [idx]. *)
Fixpoint unravel (sh : list nat) (pos : nat) : list nat :=
  match sh with
  | [] => []
  | _ :: sh' => (pos / numel sh')%nat :: unravel sh' (pos mod numel sh')%nat
  end.

Fixpoint ravel (sh idx : list nat) : nat :=
  match sh, idx with
  | _ :: sh', i :: idx' => (i * numel sh' + ravel sh' idx')%nat
  | _, _ => 0%nat
  end.

(** The cells of a tensor of shape [sh] once its dimensions are reversed:
    the cell of index [idx] is the cell of index [reverse idx] of the
    tensor. *)
Definition reverse_dims (sh : list nat) (cells : list R) : list R :=
  (λ pos : nat, nth (ravel sh (reverse (unravel (reverse sh) pos))) cells 0%R)
    <$> seq 0 (numel sh).

(** [t.T]: the transpose of a 2-D tensor.  On a tensor of another number of
    dimensions torch reverses the dimensions (with a deprecation warning),
    which leaves a tensor of at most one dimension as it is. *)
Definition tensor_T (t : Tensor) : Tensor :=
  match t with
  | Tensor0 _ | Tensor1 _ => t
  | Tensor2 t => Tensor2 (transpose t)
  | TensorN d0 d1 d2 ds cells =>
      match reverse (d0 :: d1 :: d2 :: ds) with
      | e0 :: e1 :: e2 :: es =>
          TensorN e0 e1 e2 es (reverse_dims (d0 :: d1 :: d2 :: ds) cells)
      | _ => t
      end
  end.

(** [torch.log(torch.tensor(x))] for a positive [x]. *)
Definition torch_log (x : R) : R := ln x.

(** Truncation toward zero, the conversion of a cell by [.long()]. *)
Definition trunc (x : R) : R :=
  IZR (if Rle_dec 0 x then Zfloor x else Zceil x).

Definition map_rows (f : R → R) (t : Matrix) : Matrix :=
  mkMatrix (shape1 t) ((λ r : list R, f <$> r) <$> rows t).

(** A conversion of the cells, one by one. *)
Definition map_cells (f : R → R) (t : Tensor) : Tensor :=
  match t with
  | Tensor0 x => Tensor0 (f x)
  | Tensor1 cells => Tensor1 (f <$> cells)
  | Tensor2 t => Tensor2 (map_rows f t)
  | TensorN d0 d1 d2 ds cells => TensorN d0 d1 d2 ds (f <$> cells)
  end.

(** [t.float()] *)
Definition float (t : Tensor) : Tensor := t.

(** [t.long()] *)
Definition long (t : Tensor) : Tensor := map_cells trunc t.

(** A stacked tensor of shape [length items :: item_shape], by its slices
    along the leading dimension. *)
Record Stacked : Type := mkStacked {
  item_shape : list nat;
  items : list Tensor;
}.

(** [torch.stack(ts)]: a non-empty sequence of tensors of one size. *)
Definition torch_stack (ts : list Tensor) : result Stacked :=
  match ts with
  | [] => Raise RuntimeError
  | t :: _ =>
      if forallb (λ u, bool_decide (shape u = shape t)) ts
      then Ok (mkStacked (shape t) ts)
      else Raise RuntimeError
  end.

(** ** The catalogue and the configuration *)

Record FrameInfomation : Type := mkFrameInfomation {
  onset_frame : Z;
  offset_frame : Z;
}.

Record DatasetItem : Type := mkDatasetItem {
  basename : string;
  feature : FrameInfomation;
  label : FrameInfomation;
}.

Module training_config.
(** Modelled from the spec: [training.config.DatasetConfig] is not among
    the sources.  The configuration holds at least [feature.log_offset], a
    positive real whose logarithm is the feature value of silence. *)
Record FeatureConfig : Type := mkFeatureConfig {
  log_offset : R;
}.
Record DatasetConfig : Type := mkDatasetConfig {
  feature : FeatureConfig;
}.
End training_config.

Abbreviation DatasetConfig := training_config.DatasetConfig.

(** Modelled from the spec: [preprocess.midi.LABELS] is not among the
    sources.  The label channels are onset, offset, mpe and velocity, each
    persisted on its own. *)
Definition LABELS : list string := ["onset"; "offset"; "mpe"; "velocity"].

(** ** The disk *)

(** A file, by what each reader of the program returns or raises on it. *)
Record file : Type := mkFile {
  (* torch.load(path, map_location="cpu", weights_only=True) *)
  unpickled : result Tensor;
  (* with open(path, "r") as f: torch.tensor(json.load(f)) *)
  json_tensor : result Tensor;
  (* TypeAdapter(List[DatasetItem]).validate_json(f.read()) *)
  json_mapping : result (list DatasetItem);
  (* DatasetConfig.model_validate_json(f.read()) *)
  json_config : result DatasetConfig;
}.

(** A reader applied to the file at [path], which has to exist. *)
Definition read_file {A} (reader : file → result A) (fs : gmap string file)
    (path : string) : result A :=
  match fs !! path with
  | None => Raise FileNotFoundError
  | Some f => reader f
  end.

Definition ends_with_slash (a : string) : bool :=
  match String.get (Nat.pred (String.length a)) a with
  | Some c => bool_decide (c = "/"%char)
  | None => false
  end.

(** [os.path.join(a, b)] (posixpath) *)
Definition path_join (a b : string) : string :=
  if String.prefix "/" b then b
  else if bool_decide (a = "") || ends_with_slash a then a +:+ b
  else a +:+ "/" +:+ b.

(** [torch.load(path, map_location="cpu", weights_only=True)] *)
Definition torch_load (fs : gmap string file) (path : string) : result Tensor :=
  read_file unpickled fs path.

(** [with open(path, "r") as f: arr = json.load(f); torch.tensor(arr)] *)
Definition load_json_tensor (fs : gmap string file) (path : string)
  : result Tensor :=
  read_file json_tensor fs path.

Definition feature_path_of (features_dir basename : string) : string :=
  path_join features_dir (basename +:+ ".pt").

Definition label_path_of (labels_dir basename label : string) : string :=
  path_join labels_dir (basename +:+ "." +:+ label +:+ ".json").

(** ** The dataset object *)

Record Dataset : Type := mkDataset {
  datamapping : list DatasetItem;
  config : DatasetConfig;
  features_dir : string;
  labels_dir : string;
  num_frames : Z;
  features : gmap string Tensor;
  labels : gmap string (gmap string Tensor);
}.

(** The tuple [(spec, onset, offset, mpe, velocity)] returned by
    [__getitem__]. *)
Record WindowedSample : Type := mkWindowedSample {
  spec : Tensor;
  onset : Tensor;
  offset : Tensor;
  mpe : Tensor;
  velocity : Tensor;
}.

(** The tuple of batched tensors returned by [collate_fn]. *)
Record BatchedSample : Type := mkBatchedSample {
  specs : Stacked;
  onsets : Stacked;
  offsets : Stacked;
  mpes : Stacked;
  velocities : Stacked;
}.

(** ** [Dataset.__init__] *)

(** The reads of the constructor, in the order they are issued; the artifact
    loads carry the recording they are made for. *)
Inductive io_event : Type :=
  | ReadText (path : string)
  | LoadFeature (recording path : string)
  | LoadLabel (recording channel path : string).

Definition log_event (e : io_event) : M (list io_event) unit :=
  modify (λ log, log ++ [e]).

(** [with open(path, "r") as f:
       TypeAdapter(List[DatasetItem]).validate_json(f.read())] *)
Definition read_mapping (fs : gmap string file) (path : string)
  : M (list io_event) (list DatasetItem) :=
  log_event (ReadText path);;
  lift (read_file json_mapping fs path).

(** [with open(path, "r") as f:
       DatasetConfig.model_validate_json(f.read())] *)
Definition read_config (fs : gmap string file) (path : string)
  : M (list io_event) DatasetConfig :=
  log_event (ReadText path);;
  lift (read_file json_config fs path).

(** The inner loop [for label in LABELS] of the constructor, filling [data]. *)
Fixpoint load_label_data (fs : gmap string file) (labels_dir basename : string)
    (channels : list string) (data : gmap string Tensor)
  : M (list io_event) (gmap string Tensor) :=
  match channels with
  | [] => mret data
  | label :: channels' =>
      let label_path := label_path_of labels_dir basename label in
      log_event (LoadLabel basename label label_path);;
      t ← lift (load_json_tensor fs label_path);
      load_label_data fs labels_dir basename channels' (<[label := t]> data)
  end.

(** The loop [for mapping in self.datamapping] of the constructor, over the
    two dictionaries [self.features] and [self.labels]. *)
Fixpoint populate_cache (fs : gmap string file) (features_dir labels_dir : string)
    (mappings : list DatasetItem)
    (features : gmap string Tensor) (labels : gmap string (gmap string Tensor))
  : M (list io_event) (gmap string Tensor * gmap string (gmap string Tensor)) :=
  match mappings with
  | [] => mret (features, labels)
  | mapping :: mappings' =>
      let basename := basename mapping in
      if decide (is_Some (features !! basename))
      then populate_cache fs features_dir labels_dir mappings' features labels
      else
        let feature_path := feature_path_of features_dir basename in
        log_event (LoadFeature basename feature_path);;
        t ← lift (torch_load fs feature_path);
        let features := <[basename := t]> features in
        data ← load_label_data fs labels_dir basename LABELS ∅;
        let labels := <[basename := data]> labels in
        populate_cache fs features_dir labels_dir mappings' features labels
  end.

Definition __init__ (fs : gmap string file) (dir : string) (num_frames : Z)
  : M (list io_event) Dataset :=
  let datamapping_path := path_join dir "mapping.json" in
  datamapping ← read_mapping fs datamapping_path;
  let config_path := path_join dir "config.json" in
  config ← read_config fs config_path;
  let features_dir := path_join dir "features" in
  let labels_dir := path_join dir "labels" in
  '(features, labels) ← populate_cache fs features_dir labels_dir datamapping ∅ ∅;
  mret (mkDataset datamapping config features_dir labels_dir num_frames
          features labels).

(** ** [Dataset.__getitem__] *)

(** [l[idx]] on a list of length [n]: the position read.  A negative index
    counts from the end. *)
Definition list_index (n : nat) (idx : Z) : result nat :=
  let i := if idx <? 0 then idx + Z.of_nat n else idx in
  if (i <? 0) || (Z.of_nat n <=? i) then Raise IndexError else Ok (Z.to_nat i).

(** [mapping] is a reference to the object at position [k] of
    [self.datamapping]: reading it goes through the dataset object. *)
Definition deref (k : nat) : M Dataset DatasetItem := λ self,
  match datamapping self !! k with
  | Some mapping => (Ok mapping, self)
  | None => (Raise IndexError, self)
  end.

Definition set_feature_onset_frame (v : Z) (m : DatasetItem) : DatasetItem :=
  mkDatasetItem (basename m)
    (mkFrameInfomation v (offset_frame (feature m))) (label m).

Definition set_feature_offset_frame (v : Z) (m : DatasetItem) : DatasetItem :=
  mkDatasetItem (basename m)
    (mkFrameInfomation (onset_frame (feature m)) v) (label m).

(** An assignment to a field of the object [mapping] refers to. *)
Definition assign (k : nat) (f : DatasetItem → DatasetItem) : M Dataset unit :=
  modify (λ self,
    mkDataset (alter f k (datamapping self)) (config self) (features_dir self)
      (labels_dir self) (num_frames self) (features self) (labels self)).

(** The loop [for label in LABELS] of [__getitem__], filling [labels]. *)
Fixpoint load_labels (fs : gmap string file) (labels_dir basename : string)
    (channels : list string) (labels : gmap string Tensor)
  : result (gmap string Tensor) :=
  match channels with
  | [] => Ok labels
  | label :: channels' =>
      let label_path := label_path_of labels_dir basename label in
      t ← load_json_tensor fs label_path;
      load_labels fs labels_dir basename channels' (<[label := t]> labels)
  end.

(** Lines 86-94: the correction of a negative feature onset.  The arguments
    of [torch.zeros] are evaluated before the call, [feature.shape[1]]
    among them. *)
Definition negative_onset_correction (k : nat) (zero_value : R) (feat : Tensor)
  : M Dataset Tensor :=
  mapping ← deref k;
  if onset_frame (feature mapping) <? 0 then
    width ← lift (shape_at feat 1);
    pad ← lift (torch_zeros (- onset_frame (feature mapping)) width);
    feat ← lift (torch_cat (Tensor2 (fill_ pad zero_value)) feat);
    assign k (set_feature_onset_frame 0);;
    mapping ← deref k;
    assign k (set_feature_offset_frame
                (offset_frame (feature mapping) - onset_frame (feature mapping)));;
    mret feat
  else mret feat.

(** Lines 97-103: right-padding of the feature slice. *)
Definition pad_feature (num_frames : Z) (zero_value : R) (feat : Tensor)
  : result Tensor :=
  len ← shape_at feat 0;
  if Z.of_nat len <? num_frames then
    width ← shape_at feat 1;
    pad ← torch_zeros (num_frames - Z.of_nat len) width;
    torch_cat feat (Tensor2 (fill_ pad zero_value))
  else Ok feat.

(** Lines 107-115: right-padding of one label tensor. *)
Definition pad_label (num_frames : Z) (tensor : Tensor) : result Tensor :=
  len ← shape_at tensor 0;
  if Z.of_nat len <? num_frames then
    width ← shape_at tensor 1;
    pad ← torch_zeros (num_frames - Z.of_nat len) width;
    torch_cat tensor (Tensor2 pad)
  else Ok tensor.

(** The loop [for label in labels]: [keys] are the keys of the dictionary in
    insertion order. *)
Fixpoint pad_labels (num_frames : Z) (keys : list string)
    (labels : gmap string Tensor) : result (gmap string Tensor) :=
  match keys with
  | [] => Ok labels
  | label :: keys' =>
      match labels !! label with
      | None => Raise KeyError
      | Some tensor =>
          tensor ← pad_label num_frames tensor;
          pad_labels num_frames keys' (<[label := tensor]> labels)
      end
  end.

(** [labels[key]] *)
Definition dict_get (labels : gmap string Tensor) (key : string) : result Tensor :=
  match labels !! key with
  | Some t => Ok t
  | None => Raise KeyError
  end.

(** Lines 85-122: from the loaded arrays to the returned tuple. *)
Definition window (k : nat) (labels : gmap string Tensor) (feat : Tensor)
  : M Dataset WindowedSample :=
  self ← get;
  let zero_value :=
    torch_log (training_config.log_offset (training_config.feature (config self))) in
  feat ← negative_onset_correction k zero_value feat;
  mapping ← deref k;
  feat ← lift (tensor_slice feat (onset_frame (feature mapping))
                 (offset_frame (feature mapping)));
  feat ← lift (pad_feature (num_frames self) zero_value feat);
  let spec := tensor_T feat in
  labels ← lift (pad_labels (num_frames self) LABELS labels);
  onset ← lift (dict_get labels "onset");
  offset ← lift (dict_get labels "offset");
  mpe ← lift (dict_get labels "mpe");
  velocity ← lift (dict_get labels "velocity");
  mret (mkWindowedSample spec onset offset (float mpe) (long velocity)).

Definition __getitem__ (fs : gmap string file) (idx : Z)
  : M Dataset WindowedSample :=
  self ← get;
  k ← lift (list_index (length (datamapping self)) idx);
  mapping ← deref k;
  let feature_path := feature_path_of (features_dir self) (basename mapping) in
  labels ← lift (load_labels fs (labels_dir self) (basename mapping) LABELS ∅);
  feat ← lift (torch_load fs feature_path);
  window k labels feat.

(** ** [Dataset.__len__] and [Dataset.collate_fn] *)

Definition __len__ (self : Dataset) : Z := Z.of_nat (length (datamapping self)).

(** The batch is unzipped into five names, which needs a non-empty batch;
    each position is then stacked. *)
Definition collate_fn (batch : list WindowedSample) : result BatchedSample :=
  match batch with
  | [] => Raise ValueError
  | _ :: _ =>
      specs ← torch_stack (spec <$> batch);
      onsets ← torch_stack (onset <$> batch);
      offsets ← torch_stack (offset <$> batch);
      mpes ← torch_stack (mpe <$> batch);
      velocities ← torch_stack (velocity <$> batch);
      mret (mkBatchedSample specs onsets offsets mpes velocities)
  end.

(** ** Functions the properties are stated with *)

(** [n] rows of width [k], each cell [v]. *)
Definition constant_rows (n k : nat) (v : R) : list (list R) :=
  replicate n (replicate k v).

(** A 2-D tensor extended at the end with rows of [v] up to [num_frames]
    rows, and left alone when it has that many rows already. *)
Definition pad_rows (num_frames : Z) (v : R) (t : Matrix) : Matrix :=
  if Z.of_nat (shape0 t) <? num_frames
  then mkMatrix (shape1 t)
         (rows t ++ constant_rows (Z.to_nat (num_frames - Z.of_nat (shape0 t)))
                      (shape1 t) v)
  else t.

Definition set_datamapping (self : Dataset) (l : list DatasetItem) : Dataset :=
  mkDataset l (config self) (features_dir self) (labels_dir self)
    (num_frames self) (features self) (labels self).

(** A 2-D feature array after lines 86-90. *)
Definition corrected_feature (zero_value : R) (m : DatasetItem) (feat : Matrix)
  : Matrix :=
  if onset_frame (feature m) <? 0
  then mkMatrix (shape1 feat)
         (constant_rows (Z.to_nat (- onset_frame (feature m))) (shape1 feat)
            zero_value ++ rows feat)
  else feat.

(** The catalogue entry after lines 91-94: line 91 stores 0 as the onset, and
    lines 92-94 then subtract that stored onset from the offset. *)
Definition stored_after (m : DatasetItem) : DatasetItem :=
  if onset_frame (feature m) <? 0
  then mkDatasetItem (basename m)
         (mkFrameInfomation 0 (offset_frame (feature m))) (label m)
  else m.

Definition silence_of (self : Dataset) : R :=
  torch_log (training_config.log_offset (training_config.feature (config self))).

(** The slice of line 96 of a 2-D feature array. *)
Definition feature_slice (self : Dataset) (m : DatasetItem) (feat : Matrix)
  : Matrix :=
  slice_rows (corrected_feature (silence_of self) m feat)
    (onset_frame (feature (stored_after m)))
    (offset_frame (feature (stored_after m))).

(** The dictionary [labels] once the four channels are loaded. *)
Definition label_dict (t1 t2 t3 t4 : Tensor) : gmap string Tensor :=
  <["velocity" := t4]> (<["mpe" := t3]> (<["offset" := t2]> (<["onset" := t1]> ∅))).

(** The tuple returned for the entry [m], the 2-D feature array [feat] and
    the four 2-D label arrays. *)
Definition windowed (self : Dataset) (m : DatasetItem)
    (feat t1 t2 t3 t4 : Matrix) : WindowedSample :=
  mkWindowedSample
    (Tensor2 (transpose (pad_rows (num_frames self) (silence_of self)
                           (feature_slice self m feat))))
    (Tensor2 (pad_rows (num_frames self) 0%R t1))
    (Tensor2 (pad_rows (num_frames self) 0%R t2))
    (float (Tensor2 (pad_rows (num_frames self) 0%R t3)))
    (long (Tensor2 (pad_rows (num_frames self) 0%R t4))).

Definition feature_array (fs : gmap string file) (self : Dataset)
    (m : DatasetItem) : result Tensor :=
  torch_load fs (feature_path_of (features_dir self) (basename m)).

Definition label_array (fs : gmap string file) (self : Dataset)
    (m : DatasetItem) (channel : string) : result Tensor :=
  load_json_tensor fs (label_path_of (labels_dir self) (basename m) channel).

(** Lines 86-90 for the entry [m]: the feature array, with silence before it
    when the onset is negative. *)
Definition prepend_silence (zero_value : R) (m : DatasetItem) (feat : Tensor)
  : result Tensor :=
  if onset_frame (feature m) <? 0 then
    width ← shape_at feat 1;
    pad ← torch_zeros (- onset_frame (feature m)) width;
    torch_cat (Tensor2 (fill_ pad zero_value)) feat
  else Ok feat.

(** Lines 96-122 for the stored entry [m], the feature array [feat] and the
    four label arrays. *)
Definition assemble (num_frames : Z) (zero_value : R) (m : DatasetItem)
    (feat t1 t2 t3 t4 : Tensor) : result WindowedSample :=
  feat ← tensor_slice feat (onset_frame (feature m)) (offset_frame (feature m));
  feat ← pad_feature num_frames zero_value feat;
  onset ← pad_label num_frames t1;
  offset ← pad_label num_frames t2;
  mpe ← pad_label num_frames t3;
  velocity ← pad_label num_frames t4;
  Ok (mkWindowedSample (tensor_T feat) onset offset (float mpe) (long velocity)).

(** The five artifacts of the recording an entry names load as the 2-D
    arrays [feat] and [t1] to [t4], the arrays of the data model. *)
Definition artifacts_are (fs : gmap string file) (self : Dataset)
    (m : DatasetItem) (feat t1 t2 t3 t4 : Matrix) : Prop :=
  feature_array fs self m = Ok (Tensor2 feat)
  ∧ label_array fs self m "onset" = Ok (Tensor2 t1)
  ∧ label_array fs self m "offset" = Ok (Tensor2 t2)
  ∧ label_array fs self m "mpe" = Ok (Tensor2 t3)
  ∧ label_array fs self m "velocity" = Ok (Tensor2 t4).

(** The pads of the entry [m] have sizes torch accepts: the prepended rows
    are [- onset_frame] and a right pad has at most [num_frames] rows. *)
Definition sizes_fit (self : Dataset) (m : DatasetItem) : Prop :=
  - onset_frame (feature m) ≤ int64_max ∧ num_frames self ≤ int64_max.

(** The right pad of lines 97-103 and 107-115: rows of [v] after the tensor
    [t], up to [num_frames] rows. *)
Definition right_pad (num_frames : Z) (v : R) (t : Tensor) : result Tensor :=
  len ← shape_at t 0;
  if Z.of_nat len <? num_frames then
    width ← shape_at t 1;
    pad ← torch_zeros (num_frames - Z.of_nat len) width;
    torch_cat t (Tensor2 (fill_ pad v))
  else Ok t.

(** The right pad of a tensor of [len] rows has more rows than torch
    accepts. *)
Definition pad_overflows (num_frames : Z) (len : nat) : bool :=
  (Z.of_nat len <? num_frames) && (int64_max <? num_frames - Z.of_nat len).

(** A pad of the window of the entry [m] over the 2-D arrays [feat] and [t1]
    to [t4] has more rows than torch accepts. *)
Definition window_overflows (self : Dataset) (m : DatasetItem)
    (feat t1 t2 t3 t4 : Matrix) : bool :=
  (onset_frame (feature m) <? 0) && (int64_max <? - onset_frame (feature m))
  || pad_overflows (num_frames self) (shape0 (feature_slice self m feat))
  || pad_overflows (num_frames self) (shape0 t1)
  || pad_overflows (num_frames self) (shape0 t2)
  || pad_overflows (num_frames self) (shape0 t3)
  || pad_overflows (num_frames self) (shape0 t4).

(** ** A dataset directory with two recordings and five references *)

Module example.
Import training_config.

(** The files of a dataset directory.  A file that [torch.save] wrote is not
    JSON text, and JSON text is not a file of [torch.save]; a JSON list of
    objects or a JSON object is no tensor, and a JSON array of numbers is
    neither a catalogue nor a configuration. *)
Definition PtFile (t : Tensor) : file :=
  mkFile (Ok t) (Raise ValueError) (Raise ValueError) (Raise ValueError).
Definition JsonArray (t : Tensor) : file :=
  mkFile (Raise UnpicklingError) (Ok t) (Raise ValueError) (Raise ValueError).
Definition JsonMapping (m : list DatasetItem) : file :=
  mkFile (Raise UnpicklingError) (Raise RuntimeError) (Ok m) (Raise ValueError).
Definition JsonConfig (c : DatasetConfig) : file :=
  mkFile (Raise UnpicklingError) (Raise RuntimeError) (Raise ValueError) (Ok c).

(** [config.json]: [feature.log_offset] is 1e-8. *)
Definition cfg : DatasetConfig :=
  mkDatasetConfig (mkFeatureConfig (/ 100000000)%R).

(** Feature arrays: 8 frames, respectively 4 frames, of 2 bins. *)
Definition frames_a : Matrix :=
  mkMatrix 2 ((λ z : Z, [IZR z; IZR (z + 1)]) <$> [10; 20; 30; 40; 50; 60; 70; 80]).
Definition frames_b : Matrix :=
  mkMatrix 2 ((λ z : Z, [IZR z; IZR (z + 1)]) <$> [110; 120; 130; 140]).

(** Label arrays: 3 frames of 2 pitches per channel. *)
Definition label_rows (z : Z) : Matrix :=
  mkMatrix 2 ((λ i : Z, [IZR (z + i); IZR (z + i + 1)]) <$> [0; 2; 4]).

Definition catalogue : list DatasetItem :=
  [ mkDatasetItem "a" (mkFrameInfomation (-3) 5) (mkFrameInfomation 0 8);
    mkDatasetItem "b" (mkFrameInfomation 0 4) (mkFrameInfomation 1 2);
    mkDatasetItem "a" (mkFrameInfomation 2 6) (mkFrameInfomation 1 2);
    mkDatasetItem "a" (mkFrameInfomation 0 200) (mkFrameInfomation 0 3);
    mkDatasetItem "b" (mkFrameInfomation 4 4) (mkFrameInfomation 0 0) ].

Definition disk : gmap string file :=
  list_to_map
    [ ("data/mapping.json", JsonMapping catalogue);
      ("data/config.json", JsonConfig cfg);
      ("data/features/a.pt", PtFile (Tensor2 frames_a));
      ("data/features/b.pt", PtFile (Tensor2 frames_b));
      ("data/labels/a.onset.json", JsonArray (Tensor2 (label_rows 1)));
      ("data/labels/a.offset.json", JsonArray (Tensor2 (label_rows 11)));
      ("data/labels/a.mpe.json", JsonArray (Tensor2 (label_rows 21)));
      ("data/labels/a.velocity.json", JsonArray (Tensor2 (label_rows 31)));
      ("data/labels/b.onset.json", JsonArray (Tensor2 (label_rows 41)));
      ("data/labels/b.offset.json", JsonArray (Tensor2 (label_rows 51)));
      ("data/labels/b.mpe.json", JsonArray (Tensor2 (label_rows 61)));
      ("data/labels/b.velocity.json", JsonArray (Tensor2 (label_rows 71))) ].

(** The bundle of the four label arrays of a recording. *)
Definition bundle (z : Z) : gmap string Tensor :=
  label_dict (Tensor2 (label_rows z)) (Tensor2 (label_rows (z + 10)))
    (Tensor2 (label_rows (z + 20))) (Tensor2 (label_rows (z + 30))).

(** The object [Dataset("data", 128)] builds from that directory. *)
Definition dataset : Dataset :=
  mkDataset catalogue cfg "data/features" "data/labels" 128
    (<["b" := Tensor2 frames_b]> (<["a" := Tensor2 frames_a]> ∅))
    (<["b" := bundle 41]> (<["a" := bundle 1]> ∅)).

(** The same directory opened as [Dataset("data", 2)]. *)
Definition short_dataset : Dataset :=
  mkDataset catalogue cfg "data/features" "data/labels" 2
    (features dataset) (labels dataset).

Definition entry (k : nat) : DatasetItem :=
  default (mkDatasetItem "" (mkFrameInfomation 0 0) (mkFrameInfomation 0 0))
    (catalogue !! k).

(** The object after [__getitem__(0)]. *)
Definition dataset_after_0 : Dataset :=
  mkDataset
    (mkDatasetItem "a" (mkFrameInfomation 0 5) (mkFrameInfomation 0 8)
     :: drop 1 catalogue)
    cfg "data/features" "data/labels" 128 (features dataset) (labels dataset).

(** What [__getitem__] returns, and leaves as the object, for a position of
    a recording "a", respectively "b", in a dataset [self]. *)
Definition sample_a (self : Dataset) (m : DatasetItem) : WindowedSample :=
  windowed self m frames_a (label_rows 1) (label_rows 11) (label_rows 21)
    (label_rows 31).
Definition sample_b (self : Dataset) (m : DatasetItem) : WindowedSample :=
  windowed self m frames_b (label_rows 41) (label_rows 51) (label_rows 61)
    (label_rows 71).

(** Two samples of 128 frames, and two samples of [short_dataset], the
    first of which keeps its 4 frames where the second is padded to 2. *)
Definition uniform_batch : list WindowedSample :=
  [sample_b dataset (entry 1); sample_b dataset (entry 4)].
Definition ragged_batch : list WindowedSample :=
  [sample_b short_dataset (entry 1); sample_b short_dataset (entry 4)].

(** The object built from the directory when the first entry of
    [mapping.json] has the feature span [-2^63, 5). *)
Definition far_entry : DatasetItem :=
  mkDatasetItem "a" (mkFrameInfomation (-9223372036854775808) 5)
    (mkFrameInfomation 0 8).
Definition far_dataset : Dataset :=
  mkDataset (far_entry :: drop 1 catalogue) cfg "data/features" "data/labels"
    128 (features dataset) (labels dataset).

(** The directory when [a.offset.json] holds the JSON text of an empty list,
    which [torch.tensor] reads as a tensor of one dimension and no element. *)
Definition disk_with_empty_offset : gmap string file :=
  <["data/labels/a.offset.json" := JsonArray (Tensor1 [])]> disk.
End example.

(** ** Further functions the properties are stated with *)

(** The cell at row [i] and column [j]. *)
Definition cell (t : Matrix) (i j : nat) : R := nth j (nth i (rows t) []) 0%R.

(** The label tensor as the specification words it: the rows
    [label_span.start_frame : label_span.end_frame] of the channel's array,
    right-padded with zero rows up to [num_frames] rows. *)
Definition label_window_as_specified (self : Dataset) (m : DatasetItem)
    (t : Matrix) : Matrix :=
  pad_rows (num_frames self) 0%R
    (slice_rows t (onset_frame (label m)) (offset_frame (label m))).

(** [out] is [t] followed by rows of [v] up to [num_frames] rows when [t] has
    fewer rows, in which case [t] is 2-D, and [t] itself when its first
    dimension is [num_frames] or more. *)
Definition right_padded (num_frames : Z) (v : R) (t out : Tensor) : Prop :=
  ∃ len : nat,
    shape_at t 0 = Ok len
    ∧ (Z.of_nat len < num_frames →
       ∃ a : Matrix,
         t = Tensor2 a
         ∧ out = Tensor2
                   (mkMatrix (shape1 a)
                      (rows a
                       ++ constant_rows (Z.to_nat (num_frames - Z.of_nat len))
                            (shape1 a) v)))
    ∧ (num_frames ≤ Z.of_nat len → out = t).

(** The shapes of the five tensors of a sample. *)
Definition sample_shapes (s : WindowedSample) : list (list nat) :=
  [shape (spec s); shape (onset s); shape (offset s); shape (mpe s);
   shape (velocity s)].

Fixpoint count_events (p : io_event → bool) (log : list io_event) : nat :=
  match log with
  | [] => 0
  | e :: log' => (if p e then 1 else 0) + count_events p log'
  end.

(** A load of the feature array of recording [b]. *)
Definition is_feature_load (b : string) (e : io_event) : bool :=
  match e with
  | LoadFeature r _ => bool_decide (r = b)
  | _ => false
  end.

(** A load of the array of channel [ch] of recording [b]. *)
Definition is_label_load (b ch : string) (e : io_event) : bool :=
  match e with
  | LoadLabel r c _ => bool_decide (r = b) && bool_decide (c = ch)
  | _ => false
  end.

(** Any load of a feature array. *)
Definition is_any_feature_load (e : io_event) : bool :=
  match e with
  | LoadFeature _ _ => true
  | _ => false
  end.

(** The loads [load_label_data] appends for the channels it gets through. *)
Definition label_events (labels_dir b : string) (channels : list string)
  : list io_event :=
  (λ ch, LoadLabel b ch (label_path_of labels_dir b ch)) <$> channels.

(** Between two iterations of the constructor's loop, the log holds one load
    of the feature array and one load per channel for each recording that is
    in [self.features], and no other artifact load. *)
Definition loads_match (features : gmap string Tensor) (log : list io_event)
  : Prop :=
  ∀ b,
    count_events (is_feature_load b) log
    = (if decide (is_Some (features !! b)) then 1 else 0)%nat
    ∧ ∀ ch,
        count_events (is_label_load b ch) log
        = (if decide (is_Some (features !! b) ∧ ch ∈ LABELS) then 1 else 0)%nat.

Definition loads_at_most_once (log : list io_event) : Prop :=
  ∀ b,
    (count_events (is_feature_load b) log ≤ 1)%nat
    ∧ ∀ ch, (count_events (is_label_load b ch) log ≤ 1)%nat.

(** [d[key]] on a dictionary of the cache. *)
Definition cache_get {A} (d : gmap string A) (key : string) : result A :=
  match d !! key with
  | Some a => Ok a
  | None => Raise KeyError
  end.

(** The sampling path as the specification words it beside the re-read: the
    feature array and the label arrays of the entry's recording are taken
    from the Artifact Cache, and windowed as [__getitem__] windows them. *)
Definition get_sample_cached (idx : Z) : M Dataset WindowedSample :=
  self ← get;
  k ← lift (list_index (length (datamapping self)) idx);
  mapping ← deref k;
  labels ← lift (cache_get (labels self) (basename mapping));
  feat ← lift (cache_get (features self) (basename mapping));
  window k labels feat.

(** Every recording of the cache holds what a read of its files returns. *)
Definition cache_agrees (fs : gmap string file) (fd ld : string)
    (features : gmap string Tensor) (labels : gmap string (gmap string Tensor))
  : Prop :=
  ∀ b, is_Some (features !! b) →
    ∃ t data,
      features !! b = Some t ∧ labels !! b = Some data
      ∧ torch_load fs (feature_path_of fd b) = Ok t
      ∧ load_labels fs ld b LABELS ∅ = Ok data.

(** ** Functions the further properties are stated with *)

(** The feature array of the entry [m] after lines 72-90: the four label
    arrays are loaded in the order of [LABELS], then the feature array, and
    silence is prepended. *)
Definition corrected_of (fs : gmap string file) (self : Dataset)
    (m : DatasetItem) : result Tensor :=
  _ ← label_array fs self m "onset";
  _ ← label_array fs self m "offset";
  _ ← label_array fs self m "mpe";
  _ ← label_array fs self m "velocity";
  feat ← feature_array fs self m;
  prepend_silence (silence_of self) m feat.

(** What a call computes for the entry [m]; the first step that fails gives
    the exception. *)
Definition sample_of (fs : gmap string file) (self : Dataset) (m : DatasetItem)
  : result WindowedSample :=
  t1 ← label_array fs self m "onset";
  t2 ← label_array fs self m "offset";
  t3 ← label_array fs self m "mpe";
  t4 ← label_array fs self m "velocity";
  feat ← feature_array fs self m;
  feat ← prepend_silence (silence_of self) m feat;
  assemble (num_frames self) (silence_of self) (stored_after m) feat t1 t2 t3 t4.

(** The object a call at position [k], which holds the entry [m], leaves
    behind: lines 91-94 are reached when lines 72-90 raise nothing. *)
Definition object_after (fs : gmap string file) (self : Dataset) (k : nat)
    (m : DatasetItem) : Dataset :=
  match corrected_of fs self m with
  | Ok _ => set_datamapping self (<[k := stored_after m]> (datamapping self))
  | Raise _ => self
  end.

(** The object a sequence of calls of [__getitem__] leaves, whether the calls
    return or raise. *)
Definition after_calls (fs : gmap string file) (idxs : list Z) (self : Dataset)
  : Dataset :=
  foldl (λ s idx, snd (__getitem__ fs idx s)) self idxs.

(** The five artifacts of recording [b] are on the disk, under the two
    directories, and their readers return. *)
Definition recording_on_disk (fs : gmap string file)
    (features_dir labels_dir b : string) : Prop :=
  (∃ t, torch_load fs (feature_path_of features_dir b) = Ok t)
  ∧ ∀ ch, ch ∈ LABELS →
      ∃ t, load_json_tensor fs (label_path_of labels_dir b ch) = Ok t.

(** The read of an artifact of recording [b] raises [e]. *)
Definition recording_read_raises (fs : gmap string file)
    (features_dir labels_dir b : string) (e : exn) : Prop :=
  torch_load fs (feature_path_of features_dir b) = Raise e
  ∨ ∃ ch, ch ∈ LABELS
          ∧ load_json_tensor fs (label_path_of labels_dir b ch) = Raise e.

(** The samples of a batch agree on the shape of each of their tensors. *)
Definition uniform (batch : list WindowedSample) : Prop :=
  ∀ s s', s ∈ batch → s' ∈ batch → sample_shapes s = sample_shapes s'.


(** The 2-D tensor [out] returned for the 2-D label array [t]: the pitch
    dimension of [t], as many rows as [t] or [num_frames] if that is more,
    and every row of that width when those of [t] are. *)
Definition label_shape_kept (num_frames : Z) (t out : Matrix) : Prop :=
  shape1 out = shape1 t
  ∧ Z.of_nat (shape0 out) = Z.max num_frames (Z.of_nat (shape0 t))
  ∧ (rectangular t → rectangular out).

(** Between two iterations of the constructor's loop the two dictionaries
    have the same keys, every label bundle has the four channels, and there
    are as many cached recordings as feature loads in the log. *)
Definition cache_shaped (features : gmap string Tensor)
    (labels : gmap string (gmap string Tensor)) (log : list io_event) : Prop :=
  (∀ b, is_Some (labels !! b) ↔ is_Some (features !! b))
  ∧ (∀ b data, labels !! b = Some data →
       ∀ ch, is_Some (data !! ch) ↔ ch ∈ LABELS)
  ∧ size labels = size features
  ∧ count_events is_any_feature_load log = size features.

(** What calls of [__getitem__] may have changed between the object [s0] and
    the object [s]: nothing but the feature span of the catalogue entries
    whose feature start was negative, which is now 0. *)
Definition only_negative_onsets_reset (s0 s : Dataset) : Prop :=
  config s = config s0
  ∧ features s = features s0
  ∧ labels s = labels s0
  ∧ features_dir s = features_dir s0
  ∧ labels_dir s = labels_dir s0
  ∧ num_frames s = num_frames s0
  ∧ __len__ s = __len__ s0
  ∧ ∀ k m, datamapping s0 !! k = Some m →
      ∃ m', datamapping s !! k = Some m'
            ∧ basename m' = basename m
            ∧ label m' = label m
            ∧ (m' = m
               ∨ onset_frame (feature m) < 0 ∧ onset_frame (feature m') = 0).

(** A sample returned by a call on an object of [nf] frames, for a recording
    of 2-D arrays of [bins] feature bins and [pitches] pitches, whose feature
    slice and whose label arrays have at most [nf] rows. *)
Definition window_fits (fs : gmap string file) (nf : Z) (bins pitches : nat)
    (ws : WindowedSample) : Prop :=
  ∃ (idx : Z) (s s' : Dataset) (k : nat) (m : DatasetItem)
    (feat t1 t2 t3 t4 : Matrix),
    num_frames s = nf
    ∧ __getitem__ fs idx s = (Ok ws, s')
    ∧ list_index (length (datamapping s)) idx = Ok k
    ∧ datamapping s !! k = Some m
    ∧ artifacts_are fs s m feat t1 t2 t3 t4
    ∧ shape1 feat = bins
    ∧ Z.of_nat (shape0 (feature_slice s m feat)) ≤ nf
    ∧ ∀ t, t ∈ [t1; t2; t3; t4] →
        shape1 t = pitches ∧ Z.of_nat (shape0 t) ≤ nf.

(** The number of dimensions of a tensor. *)
Definition ndim (t : Tensor) : nat := length (shape t).

(** The feature tensor returned for the entry [m] and a 2-D feature array:
    the padded slice, time last. *)
Definition feature_tensor (self : Dataset) (m : DatasetItem) (feat : Matrix)
  : Matrix :=
  transpose (pad_rows (num_frames self) (silence_of self)
               (feature_slice self m feat)).


(** An array of one dimension and fewer than [num_frames] elements: what the
    JSON text of an empty list loads as. *)
Definition short_flat (num_frames : Z) (t : Tensor) : Prop :=
  ∃ cells, t = Tensor1 cells ∧ Z.of_nat (length cells) < num_frames.

(** The shape of a stacked tensor. *)
Definition stacked_shape (s : Stacked) : list nat :=
  length (items s) :: item_shape s.

(** * Properties *)

(** ** Running the monads *)

Lemma result_bind_Ok {A B} (a : A) (f : A → result B) : Ok a ≫= f = f a.
Proof. reflexivity. Qed.

Section monad_facts.
Context {S : Type}.

Lemma bind_run {A B} (m : M S A) (f : A → M S B) (s : S) :
  (m ≫= f) s =
    match m s with
    | (Ok a, s') => f a s'
    | (Raise e, s') => (Raise e, s')
    end.
Proof. reflexivity. Qed.

Lemma lift_bind_run {A B} (r : result A) (f : A → M S B) (s : S) :
  (lift r ≫= f) s =
    match r with
    | Ok a => f a s
    | Raise e => (Raise e, s)
    end.
Proof. rewrite bind_run. unfold lift. by destruct r. Qed.

Lemma get_bind_run {B} (f : S → M S B) (s : S) : (get ≫= f) s = f s s.
Proof. reflexivity. Qed.

Lemma modify_bind_run {B} (g : S → S) (f : unit → M S B) (s : S) :
  (modify g ≫= f) s = f tt (g s).
Proof. reflexivity. Qed.

Lemma ret_run {A} (a : A) (s : S) : mret (M := M S) a s = (Ok a, s).
Proof. reflexivity. Qed.
End monad_facts.

(** ** Pads *)

Lemma torch_zeros_Ok (n : Z) (k : nat) :
  0 ≤ n ≤ int64_max →
  torch_zeros n k = Ok (mkMatrix k (constant_rows (Z.to_nat n) k 0%R)).
Proof.
  intros [H0 Hmax]. unfold torch_zeros.
  destruct (Z.ltb_spec int64_max n); [lia|].
  destruct (Z.ltb_spec n 0); [lia|]. done.
Qed.

Lemma torch_zeros_TypeError (n : Z) (k : nat) :
  int64_max < n → torch_zeros n k = Raise TypeError.
Proof. intros H. unfold torch_zeros. apply Z.ltb_lt in H. by rewrite H. Qed.



Lemma fill_constant_rows (n k : nat) (w v : R) :
  fill_ (mkMatrix k (constant_rows n k w)) v = mkMatrix k (constant_rows n k v).
Proof.
  unfold fill_, constant_rows. simpl. by rewrite !fmap_replicate.
Qed.

Lemma torch_cat_same_width (a b : Matrix) :
  shape1 a = shape1 b →
  torch_cat (Tensor2 a) (Tensor2 b)
  = Ok (Tensor2 (mkMatrix (shape1 a) (rows a ++ rows b))).
Proof. intros H. unfold torch_cat. by rewrite decide_True. Qed.

Lemma pad_rows_lt (num_frames : Z) (v : R) (t : Matrix) :
  Z.of_nat (shape0 t) < num_frames →
  pad_rows num_frames v t
  = mkMatrix (shape1 t)
      (rows t ++ constant_rows (Z.to_nat (num_frames - Z.of_nat (shape0 t)))
                   (shape1 t) v).
Proof. intros H. unfold pad_rows. apply Z.ltb_lt in H. by rewrite H. Qed.

Lemma pad_rows_ge (num_frames : Z) (v : R) (t : Matrix) :
  num_frames ≤ Z.of_nat (shape0 t) → pad_rows num_frames v t = t.
Proof. intros H. unfold pad_rows. apply Z.ltb_ge in H. by rewrite H. Qed.

Lemma length_constant_rows (n k : nat) (v : R) :
  length (constant_rows n k v) = n.
Proof. apply length_replicate. Qed.

Lemma shape1_pad_rows (num_frames : Z) (v : R) (t : Matrix) :
  shape1 (pad_rows num_frames v t) = shape1 t.
Proof. unfold pad_rows. by destruct (_ <? _). Qed.

Lemma shape0_pad_rows (num_frames : Z) (v : R) (t : Matrix) :
  Z.of_nat (shape0 (pad_rows num_frames v t))
  = Z.max num_frames (Z.of_nat (shape0 t)).
Proof.
  unfold pad_rows.
  destruct (Z.ltb_spec (Z.of_nat (shape0 t)) num_frames) as [Hlt|Hge].
  - unfold shape0. simpl. rewrite length_app, length_constant_rows.
    unfold shape0 in Hlt. lia.
  - lia.
Qed.

Lemma pad_overflows_false (num_frames : Z) (len : nat) :
  num_frames ≤ int64_max → pad_overflows num_frames len = false.
Proof.
  intros H. unfold pad_overflows. apply andb_false_iff. right.
  apply Z.ltb_ge. lia.
Qed.


Lemma shape_at_2d (t : Matrix) :
  shape_at (Tensor2 t) 0 = Ok (shape0 t) ∧ shape_at (Tensor2 t) 1 = Ok (shape1 t).
Proof. done. Qed.

Lemma shape_at_nd (d0 d1 d2 : nat) (ds : list nat) (c : list R) :
  shape_at (TensorN d0 d1 d2 ds c) 0 = Ok d0
  ∧ shape_at (TensorN d0 d1 d2 ds c) 1 = Ok d1.
Proof. done. Qed.

Lemma shape_at_1d (c : list R) :
  shape_at (Tensor1 c) 0 = Ok (length c)
  ∧ shape_at (Tensor1 c) 1 = Raise IndexError.
Proof. done. Qed.

Lemma shape_at_0d (x : R) (i : nat) : shape_at (Tensor0 x) i = Raise IndexError.
Proof. done. Qed.

Lemma fill_zeros (pad : Matrix) (n : Z) (k : nat) :
  torch_zeros n k = Ok pad → fill_ pad 0%R = pad.
Proof.
  unfold torch_zeros. repeat case_match; intros [= <-].
  apply (fill_constant_rows (Z.to_nat n) k 0%R 0%R).
Qed.


Lemma pad_label_right_pad (num_frames : Z) (t : Tensor) :
  pad_label num_frames t = right_pad num_frames 0%R t.
Proof.
  unfold pad_label, right_pad.
  destruct (shape_at t 0) as [len|]; [|done]. rewrite !result_bind_Ok.
  destruct (_ <? _); [|done].
  destruct (shape_at t 1) as [width|]; [|done]. rewrite !result_bind_Ok.
  destruct (torch_zeros _ _) as [pad|] eqn:Hpad; [|done]. rewrite !result_bind_Ok.
  by rewrite (fill_zeros _ _ _ Hpad).
Qed.

(** The right pad of a 2-D tensor. *)
Lemma right_pad_2d (num_frames : Z) (v : R) (t : Matrix) :
  right_pad num_frames v (Tensor2 t)
  = if pad_overflows num_frames (shape0 t) then Raise TypeError
    else Ok (Tensor2 (pad_rows num_frames v t)).
Proof.
  unfold right_pad.
  destruct (shape_at_2d t) as [-> ->]. rewrite result_bind_Ok.
  unfold pad_overflows, pad_rows.
  destruct (Z.ltb_spec (Z.of_nat (shape0 t)) num_frames) as [Hlt|Hge]; [|done].
  rewrite result_bind_Ok, andb_true_l.
  destruct (Z.ltb_spec int64_max (num_frames - Z.of_nat (shape0 t))).
  - by rewrite torch_zeros_TypeError.
  - rewrite torch_zeros_Ok, result_bind_Ok by lia.
    by rewrite fill_constant_rows, torch_cat_same_width.
Qed.

Lemma pad_feature_2d (num_frames : Z) (v : R) (t : Matrix) :
  pad_feature num_frames v (Tensor2 t)
  = if pad_overflows num_frames (shape0 t) then Raise TypeError
    else Ok (Tensor2 (pad_rows num_frames v t)).
Proof. apply right_pad_2d. Qed.

Lemma pad_label_2d (num_frames : Z) (t : Matrix) :
  pad_label num_frames (Tensor2 t)
  = if pad_overflows num_frames (shape0 t) then Raise TypeError
    else Ok (Tensor2 (pad_rows num_frames 0%R t)).
Proof. rewrite pad_label_right_pad. apply right_pad_2d. Qed.

(** A right pad that returns: the tensor itself when it is long enough, and
    otherwise a 2-D tensor followed by rows of [v]. *)
Lemma right_pad_Ok (num_frames : Z) (v : R) (t out : Tensor) :
  right_pad num_frames v t = Ok out → right_padded num_frames v t out.
Proof.
  destruct t as [x|c|a|d0 d1 d2 ds c].
  - unfold right_pad. by rewrite shape_at_0d.
  - unfold right_pad. destruct (shape_at_1d c) as [-> ->].
    rewrite result_bind_Ok.
    destruct (Z.ltb_spec (Z.of_nat (length c)) num_frames); [done|].
    intros [= <-]. exists (length c). split_and!; [done|lia|done].
  - rewrite right_pad_2d. destruct (pad_overflows _ _); [done|].
    intros [= <-]. exists (shape0 a). split_and!; [done| |].
    + intros Hlt. exists a. by rewrite pad_rows_lt.
    + intros Hge. by rewrite pad_rows_ge.
  - unfold right_pad. destruct (shape_at_nd d0 d1 d2 ds c) as [-> ->].
    rewrite result_bind_Ok.
    destruct (Z.ltb_spec (Z.of_nat d0) num_frames).
    + rewrite result_bind_Ok. by destruct (torch_zeros _ _).
    + intros [= <-]. exists d0. split_and!; [done|lia|done].
Qed.


Lemma prepend_silence_2d (zv : R) (m : DatasetItem) (feat : Matrix) :
  prepend_silence zv m (Tensor2 feat)
  = if (onset_frame (feature m) <? 0) && (int64_max <? - onset_frame (feature m))
    then Raise TypeError
    else Ok (Tensor2 (corrected_feature zv m feat)).
Proof.
  unfold prepend_silence, corrected_feature.
  destruct (shape_at_2d feat) as [_ ->].
  destruct (Z.ltb_spec (onset_frame (feature m)) 0) as [Hneg|Hge]; [|done].
  rewrite result_bind_Ok, andb_true_l.
  destruct (Z.ltb_spec int64_max (- onset_frame (feature m))).
  - by rewrite torch_zeros_TypeError.
  - rewrite torch_zeros_Ok, result_bind_Ok by lia.
    by rewrite fill_constant_rows, torch_cat_same_width.
Qed.

Lemma prepend_silence_nonneg (zv : R) (m : DatasetItem) (feat : Tensor) :
  0 ≤ onset_frame (feature m) → prepend_silence zv m feat = Ok feat.
Proof. intros H. unfold prepend_silence. apply Z.ltb_ge in H. by rewrite H. Qed.

(** Silence is prepended to 2-D arrays only. *)
Lemma prepend_silence_negative (zv : R) (m : DatasetItem) (feat f : Tensor) :
  onset_frame (feature m) < 0 →
  prepend_silence zv m feat = Ok f →
  ∃ a, feat = Tensor2 a ∧ f = Tensor2 (corrected_feature zv m a)
       ∧ - onset_frame (feature m) ≤ int64_max.
Proof.
  intros Hneg. destruct feat as [x|c|a|d0 d1 d2 ds c].
  - unfold prepend_silence. rewrite shape_at_0d.
    apply Z.ltb_lt in Hneg. by rewrite Hneg.
  - unfold prepend_silence. destruct (shape_at_1d c) as [_ ->].
    apply Z.ltb_lt in Hneg. by rewrite Hneg.
  - rewrite prepend_silence_2d.
    destruct (Z.ltb_spec (onset_frame (feature m)) 0); [|lia].
    rewrite andb_true_l.
    destruct (Z.ltb_spec int64_max (- onset_frame (feature m))); [done|].
    intros [= <-]. by exists a.
  - unfold prepend_silence. destruct (shape_at_nd d0 d1 d2 ds c) as [_ ->].
    apply Z.ltb_lt in Hneg. rewrite Hneg, result_bind_Ok.
    by destruct (torch_zeros _ _).
Qed.

(** ** What one call of [__getitem__] does *)

Lemma set_datamapping_id (self : Dataset) :
  set_datamapping self (datamapping self) = self.
Proof. by destruct self. Qed.

Lemma alter_as_insert {A} (f : A → A) (k : nat) (l : list A) (x : A) :
  l !! k = Some x → alter f k l = <[k := f x]> l.
Proof.
  revert k. induction l as [|y l IH]; intros [|k] H; simplify_eq/=; [done|].
  f_equal. by apply IH.
Qed.

Lemma deref_run (k : nat) (self : Dataset) (m : DatasetItem) :
  datamapping self !! k = Some m → deref k self = (Ok m, self).
Proof. intros H. unfold deref. by rewrite H. Qed.

Lemma assign_bind_run {B} (k : nat) (f : DatasetItem → DatasetItem)
    (g : unit → M Dataset B) (self : Dataset) :
  (assign k f ≫= g) self
  = g tt (set_datamapping self (alter f k (datamapping self))).
Proof. reflexivity. Qed.

(** The entry is stored anew once the prepending is through, and not at all
    when it raises. *)
Lemma negative_onset_correction_run (k : nat) (zv : R) (feat : Tensor)
    (self : Dataset) (m : DatasetItem) :
  datamapping self !! k = Some m →
  negative_onset_correction k zv feat self
  = match prepend_silence zv m feat with
    | Ok f =>
        (Ok f, set_datamapping self (<[k := stored_after m]> (datamapping self)))
    | Raise e => (Raise e, self)
    end.
Proof.
  intros Hk. unfold negative_onset_correction, prepend_silence, stored_after.
  rewrite bind_run, (deref_run _ _ _ Hk).
  destruct (onset_frame (feature m) <? 0) eqn:Hneg.
  - rewrite lift_bind_run.
    destruct (shape_at feat 1) as [width|e]; [|done].
    rewrite result_bind_Ok, lift_bind_run.
    destruct (torch_zeros _ _) as [pad|e]; [|done].
    rewrite result_bind_Ok, lift_bind_run.
    destruct (torch_cat _ _) as [f|e]; [|done].
    rewrite assign_bind_run, (alter_as_insert _ _ _ _ Hk).
    rewrite bind_run.
    erewrite deref_run; last first.
    { simpl. apply list_lookup_insert_eq. by eapply lookup_lt_Some. }
    rewrite assign_bind_run, ret_run. unfold set_datamapping. simpl.
    erewrite alter_as_insert; last first.
    { apply list_lookup_insert_eq. by eapply lookup_lt_Some. }
    rewrite list_insert_insert_eq.
    unfold set_feature_offset_frame, set_feature_onset_frame. simpl.
    by rewrite Z.sub_0_r.
  - rewrite ret_run, list_insert_id by done. by rewrite set_datamapping_id.
Qed.

(** Lookup of a literal key in a dictionary built by insertions. *)
Ltac lookup_dict :=
  repeat first [rewrite lookup_insert_eq | rewrite lookup_insert_ne by done].

Lemma load_labels_LABELS (fs : gmap string file) (d b : string) :
  load_labels fs d b LABELS ∅ =
    (t1 ← load_json_tensor fs (label_path_of d b "onset");
     t2 ← load_json_tensor fs (label_path_of d b "offset");
     t3 ← load_json_tensor fs (label_path_of d b "mpe");
     t4 ← load_json_tensor fs (label_path_of d b "velocity");
     Ok (label_dict t1 t2 t3 t4)).
Proof. reflexivity. Qed.

Lemma pad_labels_label_dict (nf : Z) (t1 t2 t3 t4 : Tensor) :
  pad_labels nf LABELS (label_dict t1 t2 t3 t4)
  = (p1 ← pad_label nf t1;
     p2 ← pad_label nf t2;
     p3 ← pad_label nf t3;
     p4 ← pad_label nf t4;
     Ok (label_dict p1 p2 p3 p4)).
Proof.
  unfold LABELS, label_dict. cbn [pad_labels].
  lookup_dict. destruct (pad_label nf t1) as [p1|]; [|done].
  rewrite !result_bind_Ok.
  lookup_dict. destruct (pad_label nf t2) as [p2|]; [|done].
  rewrite !result_bind_Ok.
  lookup_dict. destruct (pad_label nf t3) as [p3|]; [|done].
  rewrite !result_bind_Ok.
  lookup_dict. destruct (pad_label nf t4) as [p4|]; [|done].
  rewrite !result_bind_Ok. reflexivity.
Qed.

Lemma dict_get_label_dict (t1 t2 t3 t4 : Tensor) :
  dict_get (label_dict t1 t2 t3 t4) "onset" = Ok t1
  ∧ dict_get (label_dict t1 t2 t3 t4) "offset" = Ok t2
  ∧ dict_get (label_dict t1 t2 t3 t4) "mpe" = Ok t3
  ∧ dict_get (label_dict t1 t2 t3 t4) "velocity" = Ok t4.
Proof.
  unfold dict_get, label_dict.
  repeat split; by lookup_dict.
Qed.

Lemma window_run (k : nat) (self : Dataset) (m : DatasetItem)
    (feat t1 t2 t3 t4 : Tensor) :
  datamapping self !! k = Some m →
  window k (label_dict t1 t2 t3 t4) feat self
  = match prepend_silence (silence_of self) m feat with
    | Ok f =>
        (assemble (num_frames self) (silence_of self) (stored_after m) f
           t1 t2 t3 t4,
         set_datamapping self (<[k := stored_after m]> (datamapping self)))
    | Raise e => (Raise e, self)
    end.
Proof.
  intros Hk. unfold window. rewrite get_bind_run, bind_run.
  rewrite (negative_onset_correction_run _ _ _ _ _ Hk).
  fold (silence_of self).
  destruct (prepend_silence (silence_of self) m feat) as [f|e]; [|done].
  rewrite bind_run. erewrite deref_run; last first.
  { simpl. apply list_lookup_insert_eq. by eapply lookup_lt_Some. }
  unfold assemble.
  rewrite lift_bind_run.
  destruct (tensor_slice f _ _) as [sl|e]; [|done].
  rewrite result_bind_Ok, lift_bind_run.
  destruct (pad_feature _ _ sl) as [p|e]; [|done].
  rewrite result_bind_Ok, lift_bind_run, pad_labels_label_dict.
  destruct (pad_label _ t1) as [p1|e]; [|done]. rewrite !result_bind_Ok.
  destruct (pad_label _ t2) as [p2|e]; [|done]. rewrite !result_bind_Ok.
  destruct (pad_label _ t3) as [p3|e]; [|done]. rewrite !result_bind_Ok.
  destruct (pad_label _ t4) as [p4|e]; [|done]. rewrite !result_bind_Ok.
  destruct (dict_get_label_dict p1 p2 p3 p4) as (H1 & H2 & H3 & H4).
  rewrite lift_bind_run, H1, lift_bind_run, H2, lift_bind_run, H3,
    lift_bind_run, H4.
  by rewrite ret_run.
Qed.

Lemma getitem_run (fs : gmap string file) (idx : Z) (self : Dataset)
    (k : nat) (m : DatasetItem) :
  list_index (length (datamapping self)) idx = Ok k →
  datamapping self !! k = Some m →
  __getitem__ fs idx self =
    match load_labels fs (labels_dir self) (basename m) LABELS ∅ with
    | Raise e => (Raise e, self)
    | Ok labels =>
        match torch_load fs (feature_path_of (features_dir self) (basename m)) with
        | Raise e => (Raise e, self)
        | Ok feat => window k labels feat self
        end
    end.
Proof.
  intros Hidx Hk. unfold __getitem__.
  rewrite get_bind_run, lift_bind_run, Hidx, bind_run, (deref_run _ _ _ Hk).
  by rewrite !lift_bind_run.
Qed.

Lemma getitem_out_of_range (fs : gmap string file) (idx : Z) (self : Dataset)
    (e : exn) :
  list_index (length (datamapping self)) idx = Raise e →
  __getitem__ fs idx self = (Raise e, self).
Proof.
  intros Hidx. unfold __getitem__. by rewrite get_bind_run, lift_bind_run, Hidx.
Qed.

(** The outcome of a call at a position of the catalogue, in one equation. *)
Lemma getitem_sample_of (fs : gmap string file) (idx : Z) (self : Dataset)
    (k : nat) (m : DatasetItem) :
  list_index (length (datamapping self)) idx = Ok k →
  datamapping self !! k = Some m →
  __getitem__ fs idx self = (sample_of fs self m, object_after fs self k m).
Proof.
  intros Hidx Hk. rewrite (getitem_run _ _ _ _ _ Hidx Hk), load_labels_LABELS.
  unfold sample_of, object_after, corrected_of, label_array, feature_array.
  destruct (load_json_tensor fs (label_path_of _ _ "onset")) as [t1|e]; [|done].
  destruct (load_json_tensor fs (label_path_of _ _ "offset")) as [t2|e]; [|done].
  destruct (load_json_tensor fs (label_path_of _ _ "mpe")) as [t3|e]; [|done].
  destruct (load_json_tensor fs (label_path_of _ _ "velocity")) as [t4|e]; [|done].
  rewrite !result_bind_Ok.
  destruct (torch_load fs _) as [feat|e]; [|done].
  rewrite !result_bind_Ok, (window_run _ _ _ _ _ _ _ _ Hk).
  by destruct (prepend_silence _ _ _).
Qed.

(** ** The index *)

Ltac index_cases :=
  unfold list_index;
  repeat match goal with
    | |- context [?a <? ?b] => destruct (Z.ltb_spec a b)
    | |- context [?a <=? ?b] => destruct (Z.leb_spec a b)
    end;
  simpl.



Lemma list_index_Ok (n : nat) (idx : Z) (k : nat) :
  list_index n idx = Ok k →
  (k < n)%nat
  ∧ Z.of_nat k = (if idx <? 0 then idx + Z.of_nat n else idx).
Proof.
  destruct (Z.ltb_spec idx 0); index_cases; intros; simplify_eq; lia.
Qed.

Lemma list_index_in_range (n : nat) (idx : Z) :
  0 ≤ idx < Z.of_nat n → list_index n idx = Ok (Z.to_nat idx).
Proof. intros H. index_cases; try done; lia. Qed.


(** ** The outcome of a call for 2-D arrays *)

Lemma sizes_fit_no_overflow (self : Dataset) (m : DatasetItem)
    (feat t1 t2 t3 t4 : Matrix) :
  sizes_fit self m → window_overflows self m feat t1 t2 t3 t4 = false.
Proof.
  intros [Hon Hnf]. unfold window_overflows.
  rewrite !pad_overflows_false by done. rewrite !orb_false_r.
  apply andb_false_iff. right. apply Z.ltb_ge. lia.
Qed.


Lemma stored_after_fields (m : DatasetItem) :
  basename (stored_after m) = basename m
  ∧ label (stored_after m) = label m
  ∧ 0 ≤ onset_frame (feature (stored_after m))
  ∧ (stored_after m = m
     ∨ onset_frame (feature m) < 0 ∧ onset_frame (feature (stored_after m)) = 0).
Proof.
  unfold stored_after.
  destruct (Z.ltb_spec (onset_frame (feature m)) 0); simpl; split_and!;
    try done; try lia; auto.
Qed.

Lemma stored_after_nonneg (m : DatasetItem) :
  0 ≤ onset_frame (feature m) → stored_after m = m.
Proof. intros H. unfold stored_after. apply Z.ltb_ge in H. by rewrite H. Qed.

Lemma stored_after_idem (m : DatasetItem) :
  stored_after (stored_after m) = stored_after m.
Proof.
  apply stored_after_nonneg. by destruct (stored_after_fields m) as (_ & _ & ? & _).
Qed.

(** Lines 96-122 on 2-D arrays. *)
Lemma assemble_2d (nf : Z) (zv : R) (m : DatasetItem) (f t1 t2 t3 t4 : Matrix) :
  assemble nf zv m (Tensor2 f) (Tensor2 t1) (Tensor2 t2) (Tensor2 t3) (Tensor2 t4)
  = let sl := slice_rows f (onset_frame (feature m)) (offset_frame (feature m)) in
    if pad_overflows nf (shape0 sl) || pad_overflows nf (shape0 t1)
       || pad_overflows nf (shape0 t2) || pad_overflows nf (shape0 t3)
       || pad_overflows nf (shape0 t4)
    then Raise TypeError
    else Ok (mkWindowedSample
               (Tensor2 (transpose (pad_rows nf zv sl)))
               (Tensor2 (pad_rows nf 0%R t1))
               (Tensor2 (pad_rows nf 0%R t2))
               (float (Tensor2 (pad_rows nf 0%R t3)))
               (long (Tensor2 (pad_rows nf 0%R t4)))).
Proof.
  unfold assemble. cbn [tensor_slice]. rewrite result_bind_Ok. cbv zeta.
  rewrite pad_feature_2d, !pad_label_2d.
  destruct (pad_overflows nf (shape0 (slice_rows _ _ _))); [done|].
  rewrite result_bind_Ok.
  destruct (pad_overflows nf (shape0 t1)); [done|]. rewrite result_bind_Ok.
  destruct (pad_overflows nf (shape0 t2)); [done|]. rewrite result_bind_Ok.
  destruct (pad_overflows nf (shape0 t3)); [done|]. rewrite result_bind_Ok.
  destruct (pad_overflows nf (shape0 t4)); [done|]. by rewrite result_bind_Ok.
Qed.

(** A call on 2-D arrays returns [windowed], unless a pad has more rows than
    torch accepts. *)
Lemma sample_of_2d (fs : gmap string file) (self : Dataset) (m : DatasetItem)
    (feat t1 t2 t3 t4 : Matrix) :
  artifacts_are fs self m feat t1 t2 t3 t4 →
  sample_of fs self m
  = if window_overflows self m feat t1 t2 t3 t4 then Raise TypeError
    else Ok (windowed self m feat t1 t2 t3 t4).
Proof.
  intros (Hf & H1 & H2 & H3 & H4). unfold sample_of.
  rewrite H1, H2, H3, H4, Hf, !result_bind_Ok, prepend_silence_2d.
  unfold window_overflows.
  destruct ((onset_frame (feature m) <? 0) && _); [done|].
  rewrite result_bind_Ok, assemble_2d. cbv zeta. rewrite !orb_false_l.
  reflexivity.
Qed.

Lemma corrected_of_2d (fs : gmap string file) (self : Dataset) (m : DatasetItem)
    (feat t1 t2 t3 t4 : Matrix) :
  artifacts_are fs self m feat t1 t2 t3 t4 →
  corrected_of fs self m
  = if (onset_frame (feature m) <? 0) && (int64_max <? - onset_frame (feature m))
    then Raise TypeError
    else Ok (Tensor2 (corrected_feature (silence_of self) m feat)).
Proof.
  intros (Hf & H1 & H2 & H3 & H4). unfold corrected_of.
  by rewrite H1, H2, H3, H4, Hf, !result_bind_Ok, prepend_silence_2d.
Qed.

(** ** The outcome of a call, whatever the arrays are *)

Lemma corrected_of_Raise (fs : gmap string file) (self : Dataset)
    (m : DatasetItem) (e : exn) :
  corrected_of fs self m = Raise e → sample_of fs self m = Raise e.
Proof.
  unfold corrected_of, sample_of.
  destruct (label_array fs self m "onset") as [t1|]; [|by intros [= ->]].
  destruct (label_array fs self m "offset") as [t2|]; [|by intros [= ->]].
  destruct (label_array fs self m "mpe") as [t3|]; [|by intros [= ->]].
  destruct (label_array fs self m "velocity") as [t4|]; [|by intros [= ->]].
  destruct (feature_array fs self m) as [feat|]; [|by intros [= ->]].
  rewrite !result_bind_Ok. by intros ->.
Qed.

(** A call that returns went through every step. *)
Lemma sample_of_Ok (fs : gmap string file) (self : Dataset) (m : DatasetItem)
    (ws : WindowedSample) :
  sample_of fs self m = Ok ws →
  ∃ t1 t2 t3 t4 feat f sl p p1 p2 p3 p4,
    label_array fs self m "onset" = Ok t1
    ∧ label_array fs self m "offset" = Ok t2
    ∧ label_array fs self m "mpe" = Ok t3
    ∧ label_array fs self m "velocity" = Ok t4
    ∧ feature_array fs self m = Ok feat
    ∧ prepend_silence (silence_of self) m feat = Ok f
    ∧ tensor_slice f (onset_frame (feature (stored_after m)))
        (offset_frame (feature (stored_after m))) = Ok sl
    ∧ pad_feature (num_frames self) (silence_of self) sl = Ok p
    ∧ pad_label (num_frames self) t1 = Ok p1
    ∧ pad_label (num_frames self) t2 = Ok p2
    ∧ pad_label (num_frames self) t3 = Ok p3
    ∧ pad_label (num_frames self) t4 = Ok p4
    ∧ ws = mkWindowedSample (tensor_T p) p1 p2 (float p3) (long p4).
Proof.
  unfold sample_of, assemble.
  destruct (label_array fs self m "onset") as [t1|]; [|done].
  destruct (label_array fs self m "offset") as [t2|]; [|done].
  destruct (label_array fs self m "mpe") as [t3|]; [|done].
  destruct (label_array fs self m "velocity") as [t4|]; [|done].
  destruct (feature_array fs self m) as [feat|]; [|done].
  rewrite !result_bind_Ok.
  destruct (prepend_silence _ _ _) as [f|] eqn:Hf; [|done].
  rewrite result_bind_Ok.
  destruct (tensor_slice _ _ _) as [sl|] eqn:Hsl; [|done].
  rewrite result_bind_Ok.
  destruct (pad_feature _ _ _) as [p|] eqn:Hp; [|done]. rewrite result_bind_Ok.
  destruct (pad_label _ t1) as [p1|] eqn:H1; [|done]. rewrite result_bind_Ok.
  destruct (pad_label _ t2) as [p2|] eqn:H2; [|done]. rewrite result_bind_Ok.
  destruct (pad_label _ t3) as [p3|] eqn:H3; [|done]. rewrite result_bind_Ok.
  destruct (pad_label _ t4) as [p4|] eqn:H4; [|done]. rewrite result_bind_Ok.
  intros [= <-]. by exists t1, t2, t3, t4, feat, f, sl, p, p1, p2, p3, p4.
Qed.

Lemma sample_of_Ok_corrected (fs : gmap string file) (self : Dataset)
    (m : DatasetItem) (ws : WindowedSample) :
  sample_of fs self m = Ok ws → ∃ f, corrected_of fs self m = Ok f.
Proof.
  intros Hs. destruct (corrected_of fs self m) as [f|e] eqn:Hc; [by exists f|].
  apply corrected_of_Raise in Hc. congruence.
Qed.

(** The sample of an entry depends on the object through its directories,
    its configuration and [num_frames] only. *)
Lemma sample_of_congr (fs : gmap string file) (s1 s2 : Dataset)
    (m : DatasetItem) :
  config s1 = config s2 →
  features_dir s1 = features_dir s2 →
  labels_dir s1 = labels_dir s2 →
  num_frames s1 = num_frames s2 →
  sample_of fs s1 m = sample_of fs s2 m.
Proof.
  intros Hc Hf Hl Hn.
  unfold sample_of, label_array, feature_array, silence_of.
  by rewrite Hc, Hf, Hl, Hn.
Qed.

(** A call leaves the object as it was, or it got through lines 72-90 and
    stored the corrected entry at the position read. *)
Lemma getitem_state (fs : gmap string file) (idx : Z) (self self' : Dataset)
    (r : result WindowedSample) :
  __getitem__ fs idx self = (r, self') →
  self' = self
  ∨ ∃ (k : nat) (m : DatasetItem),
      list_index (length (datamapping self)) idx = Ok k
      ∧ datamapping self !! k = Some m
      ∧ self' = set_datamapping self (<[k := stored_after m]> (datamapping self)).
Proof.
  intros Hrun.
  destruct (list_index (length (datamapping self)) idx) as [k|e] eqn:Hidx.
  - destruct (list_index_Ok _ _ _ Hidx) as [Hk _].
    destruct (lookup_lt_is_Some_2 _ _ Hk) as [m Hm].
    rewrite (getitem_sample_of _ _ _ _ _ Hidx Hm) in Hrun.
    injection Hrun as _ <-. unfold object_after.
    destruct (corrected_of fs self m); [|by left].
    right. by exists k, m.
  - rewrite (getitem_out_of_range _ _ _ _ Hidx) in Hrun.
    injection Hrun as _ <-. by left.
Qed.

(** A call that returns at a position of the catalogue returns the sample of
    the entry and stores the corrected entry. *)
Lemma getitem_Ok (fs : gmap string file) (idx : Z) (self self' : Dataset)
    (k : nat) (m : DatasetItem) (ws : WindowedSample) :
  list_index (length (datamapping self)) idx = Ok k →
  datamapping self !! k = Some m →
  __getitem__ fs idx self = (Ok ws, self') →
  sample_of fs self m = Ok ws
  ∧ self' = set_datamapping self (<[k := stored_after m]> (datamapping self)).
Proof.
  intros Hidx Hm Hrun. rewrite (getitem_sample_of _ _ _ _ _ Hidx Hm) in Hrun.
  injection Hrun as Hs <-. split; [done|].
  unfold object_after. by destruct (sample_of_Ok_corrected _ _ _ _ Hs) as [f ->].
Qed.

(** A call that returns on 2-D arrays returns [windowed]. *)
Lemma getitem_Ok_2d (fs : gmap string file) (idx : Z) (self self' : Dataset)
    (k : nat) (m : DatasetItem) (ws : WindowedSample)
    (feat t1 t2 t3 t4 : Matrix) :
  list_index (length (datamapping self)) idx = Ok k →
  datamapping self !! k = Some m →
  artifacts_are fs self m feat t1 t2 t3 t4 →
  __getitem__ fs idx self = (Ok ws, self') →
  ws = windowed self m feat t1 t2 t3 t4
  ∧ self' = set_datamapping self (<[k := stored_after m]> (datamapping self)).
Proof.
  intros Hidx Hm Hart Hrun.
  destruct (getitem_Ok _ _ _ _ _ _ _ Hidx Hm Hrun) as [Hs ->]. split; [|done].
  rewrite (sample_of_2d _ _ _ _ _ _ _ _ Hart) in Hs.
  destruct (window_overflows _ _ _ _ _ _ _); congruence.
Qed.

(** A call on 2-D arrays whose pads have sizes torch accepts returns. *)
Lemma getitem_2d_fits (fs : gmap string file) (idx : Z) (self : Dataset)
    (k : nat) (m : DatasetItem) (feat t1 t2 t3 t4 : Matrix) :
  list_index (length (datamapping self)) idx = Ok k →
  datamapping self !! k = Some m →
  artifacts_are fs self m feat t1 t2 t3 t4 →
  sizes_fit self m →
  __getitem__ fs idx self
  = (Ok (windowed self m feat t1 t2 t3 t4),
     set_datamapping self (<[k := stored_after m]> (datamapping self))).
Proof.
  intros Hidx Hm Hart Hfit. rewrite (getitem_sample_of _ _ _ _ _ Hidx Hm).
  unfold object_after.
  rewrite (sample_of_2d _ _ _ _ _ _ _ _ Hart),
    (corrected_of_2d _ _ _ _ _ _ _ _ Hart).
  rewrite sizes_fit_no_overflow by done.
  destruct Hfit as [Hon _].
  replace (int64_max <? - onset_frame (feature m)) with false
    by (symmetry; apply Z.ltb_ge; lia).
  by rewrite andb_false_r.
Qed.


(** ** A dataset directory with two recordings and five references *)

Lemma example_init :
  fst (__init__ example.disk "data" 128 []) = Ok example.dataset.
Proof. vm_compute. reflexivity. Qed.

Lemma example_silence : (silence_of example.dataset < 0)%R.
Proof.
  unfold silence_of, torch_log. simpl.
  rewrite <- ln_1. apply ln_increasing; lra.
Qed.

Lemma example_artifacts_a (self : Dataset) (m : DatasetItem) :
  features_dir self = "data/features" → labels_dir self = "data/labels" →
  basename m = "a" →
  artifacts_are example.disk self m example.frames_a (example.label_rows 1)
    (example.label_rows 11) (example.label_rows 21) (example.label_rows 31).
Proof.
  intros Hf Hl Hb.
  unfold artifacts_are, feature_array, label_array. rewrite Hf, Hl, Hb.
  split_and!; vm_compute; reflexivity.
Defined.

Lemma example_artifacts_b (self : Dataset) (m : DatasetItem) :
  features_dir self = "data/features" → labels_dir self = "data/labels" →
  basename m = "b" →
  artifacts_are example.disk self m example.frames_b (example.label_rows 41)
    (example.label_rows 51) (example.label_rows 61) (example.label_rows 71).
Proof.
  intros Hf Hl Hb.
  unfold artifacts_are, feature_array, label_array. rewrite Hf, Hl, Hb.
  split_and!; vm_compute; reflexivity.
Defined.

(** ** Out-of-range and negative indices *)





(** ** Cells of a tensor and of its transpose *)

Lemma nth_fmap_lt {A B} (f : A → B) (l : list A) (i : nat) (d : B) (d' : A) :
  (i < length l)%nat → nth i (f <$> l) d = f (nth i l d').
Proof.
  revert i. induction l as [|x l IH]; intros [|i] H; simpl in *; try lia; [done|].
  apply IH. lia.
Qed.

Lemma cell_transpose (t : Matrix) (i j : nat) :
  (i < shape0 t)%nat → (j < shape1 t)%nat →
  cell (transpose t) j i = cell t i j.
Proof.
  intros Hi Hj. unfold cell, transpose. simpl.
  rewrite (nth_fmap_lt _ _ _ _ 0%nat) by (by rewrite length_seq).
  rewrite seq_nth by done. simpl.
  by rewrite (nth_fmap_lt _ _ _ _ []).
Qed.

Lemma shape_transpose (t : Matrix) :
  shape1 (transpose t) = shape0 t ∧ shape0 (transpose t) = shape1 t.
Proof.
  unfold transpose, shape0. simpl. by rewrite length_fmap, length_seq.
Qed.

Lemma cell_app_l (k : nat) (r1 r2 : list (list R)) (i j : nat) :
  (i < length r1)%nat → cell (mkMatrix k (r1 ++ r2)) i j = cell (mkMatrix k r1) i j.
Proof. intros H. unfold cell. simpl. by rewrite app_nth1. Qed.

Lemma cell_app_constant (k : nat) (r1 : list (list R)) (n w : nat) (v : R)
    (i j : nat) :
  (length r1 ≤ i < length r1 + n)%nat → (j < w)%nat →
  cell (mkMatrix k (r1 ++ constant_rows n w v)) i j = v.
Proof.
  intros Hi Hj. unfold cell, constant_rows. simpl.
  rewrite app_nth2 by lia.
  rewrite !nth_lookup, !lookup_replicate_2 by lia. simpl.
  by rewrite lookup_replicate_2.
Qed.

(** ** The negative-onset correction *)

(** C1, on the code: at index 0 of the example (start_frame = -3,
    end_frame = 5, num_frames = 128, eight source frames) the feature tensor
    is the transpose of 3 silence rows, then source rows [0:2), then 123
    silence rows.  The slice taken from the prepended array is [0:5) and not
    [0:8): line 91 stores 0 as the onset before lines 92-94 subtract the
    stored onset from the offset.  The tensor C1 describes (source rows [0:5)
    and 120 silence rows) is a different one. *)
Theorem negative_onset_slice_ends_at_stored_offset :
  ∃ ws : WindowedSample,
    fst (__getitem__ example.disk 0 example.dataset) = Ok ws
    ∧ spec ws
      = Tensor2
          (transpose
             (mkMatrix 2
                (constant_rows 3 2 (silence_of example.dataset)
                 ++ take 2 (rows example.frames_a)
                 ++ constant_rows 123 2 (silence_of example.dataset))))
    ∧ spec ws
      ≠ Tensor2
          (transpose
             (mkMatrix 2
                (constant_rows 3 2 (silence_of example.dataset)
                 ++ take 5 (rows example.frames_a)
                 ++ constant_rows 120 2 (silence_of example.dataset)))).
Proof.
  exists (example.sample_a example.dataset (example.entry 0)).
  split; [vm_compute; reflexivity|].
  split; [vm_compute; reflexivity|].
  intros H.
  apply (f_equal (λ t, match t with Tensor2 a => cell a 0 5 | _ => 0%R end)) in H.
  pose proof example_silence as Hs.
  cbv -[ln IZR Rinv Rlt] in H, Hs. lra.
Qed.

(** ** Right-padding of the feature slice *)

(** The feature tensor returned for a 2-D feature array. *)
Lemma sample_of_spec_2d (fs : gmap string file) (self : Dataset)
    (m : DatasetItem) (ws : WindowedSample) (feat : Matrix) :
  feature_array fs self m = Ok (Tensor2 feat) →
  sample_of fs self m = Ok ws →
  spec ws
  = Tensor2 (transpose (pad_rows (num_frames self) (silence_of self)
                          (feature_slice self m feat))).
Proof.
  intros Hfeat Hs.
  destruct (sample_of_Ok _ _ _ _ Hs)
    as (t1 & t2 & t3 & t4 & feat' & f & sl & p & p1 & p2 & p3 & p4
        & _ & _ & _ & _ & Hf & Hpre & Hsl & Hp & _ & _ & _ & _ & ->).
  rewrite Hfeat in Hf. injection Hf as <-.
  rewrite prepend_silence_2d in Hpre.
  destruct (_ && _); [done|]. injection Hpre as <-.
  cbn [tensor_slice] in Hsl. injection Hsl as <-.
  rewrite pad_feature_2d in Hp. destruct (pad_overflows _ _); [done|].
  by injection Hp as <-.
Qed.

(** C5: for a valid index whose recording has a 2-D feature array, when the
    feature slice has fewer than [num_frames] rows the returned feature
    tensor is the transpose of the slice followed by [num_frames - len] rows
    of [log(log_offset)], so it has exactly [num_frames] time frames, the
    frames of the slice unchanged and every cell after them the silence
    scalar; when the slice has [num_frames] rows or more the tensor is the
    transpose of the slice itself. *)
Theorem feature_right_padding (fs : gmap string file) (idx : Z)
    (self self' : Dataset) (ws : WindowedSample) (m : DatasetItem)
    (feat : Matrix) :
  0 ≤ idx < __len__ self →
  datamapping self !! Z.to_nat idx = Some m →
  feature_array fs self m = Ok (Tensor2 feat) →
  __getitem__ fs idx self = (Ok ws, self') →
  let sl := feature_slice self m feat in
  let n := Z.of_nat (shape0 sl) in
  ∃ sp : Matrix,
    spec ws = Tensor2 sp
    ∧ (n < num_frames self →
         sp
         = transpose
             (mkMatrix (shape1 sl)
                (rows sl
                 ++ constant_rows (Z.to_nat (num_frames self - n)) (shape1 sl)
                      (silence_of self)))
         ∧ Z.of_nat (shape1 sp) = num_frames self
         ∧ ∀ i j : nat, (j < shape1 sl)%nat →
             ((i < shape0 sl)%nat → cell sp j i = cell sl i j)
             ∧ (n ≤ Z.of_nat i < num_frames self →
                cell sp j i = silence_of self))
    ∧ (num_frames self ≤ n → sp = transpose sl).
Proof.
  unfold __len__. intros Hidx Hm Hfeat Hrun.
  pose proof (list_index_in_range _ _ Hidx) as Hk.
  destruct (getitem_Ok _ _ _ _ _ _ _ Hk Hm Hrun) as [Hs _].
  pose proof (sample_of_spec_2d _ _ _ _ _ Hfeat Hs) as Hspec.
  cbv zeta. revert Hspec.
  generalize (feature_slice self m feat). intros sl Hspec.
  eexists. split; [exact Hspec|]. split.
  - intros Hlt. rewrite (pad_rows_lt _ _ _ Hlt).
    split; [done|split].
    + destruct (shape_transpose
                  (mkMatrix (shape1 sl)
                     (rows sl
                      ++ constant_rows
                           (Z.to_nat (num_frames self - Z.of_nat (shape0 sl)))
                           (shape1 sl) (silence_of self)))) as [-> _].
      unfold shape0 in *. simpl.
      rewrite length_app, length_constant_rows. lia.
    + intros i j Hj. split; intros Hi.
      * rewrite cell_transpose; simpl;
          [|unfold shape0 in *; simpl; rewrite length_app; lia|done].
        rewrite cell_app_l by done. by destruct sl.
      * rewrite cell_transpose; simpl;
          [|unfold shape0 in *; simpl;
            rewrite length_app, length_constant_rows; lia|done].
        apply cell_app_constant; [unfold shape0 in *; lia|done].
  - intros Hge. by rewrite (pad_rows_ge _ _ _ Hge).
Qed.

(** Index 1 of the example: the four frames of "b", then 124 frames of
    silence. *)
Lemma feature_right_padding_witness :
  let sl := feature_slice example.dataset (example.entry 1) example.frames_b in
  let n := Z.of_nat (shape0 sl) in
  ∃ sp : Matrix,
    spec (example.sample_b example.dataset (example.entry 1)) = Tensor2 sp
    ∧ (n < num_frames example.dataset →
         sp
         = transpose
             (mkMatrix (shape1 sl)
                (rows sl
                 ++ constant_rows (Z.to_nat (num_frames example.dataset - n))
                      (shape1 sl) (silence_of example.dataset)))
         ∧ Z.of_nat (shape1 sp) = num_frames example.dataset
         ∧ ∀ i j : nat, (j < shape1 sl)%nat →
             ((i < shape0 sl)%nat → cell sp j i = cell sl i j)
             ∧ (n ≤ Z.of_nat i < num_frames example.dataset →
                cell sp j i = silence_of example.dataset))
    ∧ (num_frames example.dataset ≤ n → sp = transpose sl).
Proof.
  apply (feature_right_padding example.disk 1 example.dataset
           (set_datamapping example.dataset
              (<[1%nat := stored_after (example.entry 1)]> example.catalogue))).
  - unfold __len__. simpl. lia.
  - reflexivity.
  - vm_compute. reflexivity.
  - vm_compute. reflexivity.
Defined.

(** ** Exceptions on account of the span *)

(** C6, as stated, fails: the first entry of [far_dataset] has the feature
    span [-2^63, 5) and names recording "a", whose five arrays are on the
    disk; the pad of 2^63 rows that line 87 asks for is a size torch does not
    accept, and the call at the valid index 0 raises TypeError. *)
Lemma getitem_far_start_raises :
  0 ≤ 0 < __len__ example.far_dataset
  ∧ datamapping example.far_dataset !! Z.to_nat 0 = Some example.far_entry
  ∧ artifacts_are example.disk example.far_dataset example.far_entry
      example.frames_a (example.label_rows 1) (example.label_rows 11)
      (example.label_rows 21) (example.label_rows 31)
  ∧ onset_frame (feature example.far_entry) = - 2 ^ 63
  ∧ __getitem__ example.disk 0 example.far_dataset
    = (Raise TypeError, example.far_dataset).
Proof.
  split; [unfold __len__; simpl; lia|].
  split; [reflexivity|].
  split; [by apply example_artifacts_a|].
  split; [reflexivity|].
  vm_compute. reflexivity.
Qed.

(** C6 (amended): for a valid index whose recording has its five 2-D arrays
    on the disk, [__getitem__] returns the windowed sample whatever the
    spans of the entry are, provided the pads have sizes torch accepts: the
    feature start is above [-2^63] and [num_frames] below [2^63].  The entry
    is otherwise arbitrary, so its feature start may be negative, its span
    short or empty, and its end beyond the source array. *)
Theorem getitem_returns_for_every_span (fs : gmap string file) (idx : Z)
    (self : Dataset) (m : DatasetItem) (feat t1 t2 t3 t4 : Matrix) :
  0 ≤ idx < __len__ self →
  datamapping self !! Z.to_nat idx = Some m →
  artifacts_are fs self m feat t1 t2 t3 t4 →
  - 2 ^ 63 < onset_frame (feature m) →
  num_frames self < 2 ^ 63 →
  ∃ self' : Dataset,
    __getitem__ fs idx self = (Ok (windowed self m feat t1 t2 t3 t4), self').
Proof.
  unfold __len__. intros Hidx Hm Hart Hon Hnf.
  pose proof (list_index_in_range _ _ Hidx) as Hk.
  eexists. apply (getitem_2d_fits _ _ _ _ _ _ _ _ _ _ Hk Hm Hart).
  unfold sizes_fit, int64_max. lia.
Qed.

(** The four situations C6 names, at indices 0 (negative start), 1 (span
    shorter than [num_frames]), 4 (empty span) and 3 (end beyond the source
    array) of the example. *)
Lemma getitem_returns_for_every_span_witness :
  (∃ self', __getitem__ example.disk 0 example.dataset
            = (Ok (example.sample_a example.dataset (example.entry 0)), self'))
  ∧ (∃ self', __getitem__ example.disk 1 example.dataset
              = (Ok (example.sample_b example.dataset (example.entry 1)), self'))
  ∧ (∃ self', __getitem__ example.disk 4 example.dataset
              = (Ok (example.sample_b example.dataset (example.entry 4)), self'))
  ∧ (∃ self', __getitem__ example.disk 3 example.dataset
              = (Ok (example.sample_a example.dataset (example.entry 3)), self')).
Proof.
  split_and!.
  - apply (getitem_returns_for_every_span _ 0 _ (example.entry 0));
      [unfold __len__; simpl; lia|reflexivity|by apply example_artifacts_a
      |simpl; lia|simpl; lia].
  - apply (getitem_returns_for_every_span _ 1 _ (example.entry 1));
      [unfold __len__; simpl; lia|reflexivity|by apply example_artifacts_b
      |simpl; lia|simpl; lia].
  - apply (getitem_returns_for_every_span _ 4 _ (example.entry 4));
      [unfold __len__; simpl; lia|reflexivity|by apply example_artifacts_b
      |simpl; lia|simpl; lia].
  - apply (getitem_returns_for_every_span _ 3 _ (example.entry 3));
      [unfold __len__; simpl; lia|reflexivity|by apply example_artifacts_a
      |simpl; lia|simpl; lia].
Defined.

(** ** The label tensors *)

(** C2, as stated, fails: index 1 of the example has label span [1, 2), and
    the onset tensor returned starts with row 0 of the onset array, not with
    its row 1; with [num_frames = 2] the tensor returned has the three rows
    of the array, not two. *)
Lemma getitem_label_is_not_the_span_slice :
  fst (__getitem__ example.disk 1 example.dataset)
  = Ok (example.sample_b example.dataset (example.entry 1))
  ∧ onset (example.sample_b example.dataset (example.entry 1))
    ≠ Tensor2 (label_window_as_specified example.dataset (example.entry 1)
                 (example.label_rows 41))
  ∧ fst (__getitem__ example.disk 1 example.short_dataset)
    = Ok (example.sample_b example.short_dataset (example.entry 1))
  ∧ shape (onset (example.sample_b example.short_dataset (example.entry 1)))
    = [3%nat; 2%nat]
  ∧ num_frames example.short_dataset = 2.
Proof.
  split; [vm_compute; reflexivity|].
  split; [|split; [vm_compute; reflexivity|split; reflexivity]].
  intros H.
  apply (f_equal (λ t, match t with Tensor2 a => cell a 0 0 | _ => 0%R end)) in H.
  cbv -[IZR] in H. apply eq_IZR in H. discriminate.
Qed.

Lemma pad_label_right_padded (num_frames : Z) (t out : Tensor) :
  pad_label num_frames t = Ok out → right_padded num_frames 0%R t out.
Proof. rewrite pad_label_right_pad. apply right_pad_Ok. Qed.

(** C2 (amended): for a valid index, each label tensor returned is the whole
    array of its channel for the sample's recording, the label span playing
    no part, right-padded with zero rows up to [num_frames] rows when the
    array has fewer and left as it is when it has [num_frames] rows or more;
    mpe is then cast by [.float()] and velocity by [.long()]. *)
Theorem labels_are_whole_arrays_zero_padded (fs : gmap string file) (idx : Z)
    (self self' : Dataset) (ws : WindowedSample) :
  0 ≤ idx < __len__ self →
  __getitem__ fs idx self = (Ok ws, self') →
  ∃ (m : DatasetItem) (t1 t2 t3 t4 p3 p4 : Tensor),
    datamapping self !! Z.to_nat idx = Some m
    ∧ label_array fs self m "onset" = Ok t1
    ∧ label_array fs self m "offset" = Ok t2
    ∧ label_array fs self m "mpe" = Ok t3
    ∧ label_array fs self m "velocity" = Ok t4
    ∧ right_padded (num_frames self) 0%R t1 (onset ws)
    ∧ right_padded (num_frames self) 0%R t2 (offset ws)
    ∧ right_padded (num_frames self) 0%R t3 p3 ∧ mpe ws = float p3
    ∧ right_padded (num_frames self) 0%R t4 p4 ∧ velocity ws = long p4.
Proof.
  unfold __len__. intros Hidx Hrun.
  pose proof (list_index_in_range _ _ Hidx) as Hk.
  destruct (lookup_lt_is_Some_2 (datamapping self) (Z.to_nat idx)) as [m Hm];
    [lia|].
  destruct (getitem_Ok _ _ _ _ _ _ _ Hk Hm Hrun) as [Hs _].
  destruct (sample_of_Ok _ _ _ _ Hs)
    as (t1 & t2 & t3 & t4 & feat & f & sl & p & p1 & p2 & p3 & p4
        & H1 & H2 & H3 & H4 & _ & _ & _ & _ & G1 & G2 & G3 & G4 & ->).
  exists m, t1, t2, t3, t4, p3, p4. simpl.
  split_and!; try done; by apply pad_label_right_padded.
Qed.

Lemma labels_are_whole_arrays_zero_padded_witness :
  ∃ (m : DatasetItem) (t1 t2 t3 t4 p3 p4 : Tensor),
    datamapping example.dataset !! Z.to_nat 1 = Some m
    ∧ label_array example.disk example.dataset m "onset" = Ok t1
    ∧ label_array example.disk example.dataset m "offset" = Ok t2
    ∧ label_array example.disk example.dataset m "mpe" = Ok t3
    ∧ label_array example.disk example.dataset m "velocity" = Ok t4
    ∧ right_padded (num_frames example.dataset) 0%R t1
        (onset (example.sample_b example.dataset (example.entry 1)))
    ∧ right_padded (num_frames example.dataset) 0%R t2
        (offset (example.sample_b example.dataset (example.entry 1)))
    ∧ right_padded (num_frames example.dataset) 0%R t3 p3
    ∧ mpe (example.sample_b example.dataset (example.entry 1)) = float p3
    ∧ right_padded (num_frames example.dataset) 0%R t4 p4
    ∧ velocity (example.sample_b example.dataset (example.entry 1)) = long p4.
Proof.
  apply (labels_are_whole_arrays_zero_padded example.disk 1 example.dataset
           (set_datamapping example.dataset
              (<[1%nat := stored_after (example.entry 1)]> example.catalogue))).
  - unfold __len__. simpl. lia.
  - vm_compute. reflexivity.
Defined.

(** The label tensors of a sample are computed from the files of the
    recording and [num_frames]. *)
Lemma sample_of_labels (fs : gmap string file) (s1 s2 : Dataset)
    (m1 m2 : DatasetItem) (w1 w2 : WindowedSample) :
  labels_dir s1 = labels_dir s2 →
  num_frames s1 = num_frames s2 →
  basename m1 = basename m2 →
  sample_of fs s1 m1 = Ok w1 →
  sample_of fs s2 m2 = Ok w2 →
  onset w1 = onset w2 ∧ offset w1 = offset w2
  ∧ mpe w1 = mpe w2 ∧ velocity w1 = velocity w2.
Proof.
  intros Hdir Hnf Hb Hs1 Hs2.
  destruct (sample_of_Ok _ _ _ _ Hs1)
    as (t1 & t2 & t3 & t4 & feat & f & sl & p & p1 & p2 & p3 & p4
        & H1 & H2 & H3 & H4 & _ & _ & _ & _ & G1 & G2 & G3 & G4 & ->).
  destruct (sample_of_Ok _ _ _ _ Hs2)
    as (u1 & u2 & u3 & u4 & feat' & f' & sl' & p' & q1 & q2 & q3 & q4
        & H1' & H2' & H3' & H4' & _ & _ & _ & _ & G1' & G2' & G3' & G4' & ->).
  unfold label_array in *. rewrite Hdir, Hb in *. rewrite Hnf in *.
  simpl. split_and!; congruence.
Qed.

(** C10: two valid indices whose entries name the same recording get equal
    onset, offset, mpe and velocity tensors, whatever their label spans, be
    the second call made on the object as it was before the first call or as
    the first call left it. *)
Theorem labels_depend_only_on_recording (fs : gmap string file)
    (self : Dataset) (i j : Z) (mi mj : DatasetItem)
    (wi wj : WindowedSample) (si s sj : Dataset) :
  0 ≤ i < __len__ self →
  0 ≤ j < __len__ self →
  datamapping self !! Z.to_nat i = Some mi →
  datamapping self !! Z.to_nat j = Some mj →
  basename mi = basename mj →
  __getitem__ fs i self = (Ok wi, si) →
  s = self ∨ s = si →
  __getitem__ fs j s = (Ok wj, sj) →
  onset wi = onset wj ∧ offset wi = offset wj
  ∧ mpe wi = mpe wj ∧ velocity wi = velocity wj.
Proof.
  unfold __len__. intros Hi Hj Hmi Hmj Hb Hruni Hs Hrunj.
  pose proof (list_index_in_range _ _ Hi) as Hki.
  destruct (getitem_Ok _ _ _ _ _ _ _ Hki Hmi Hruni) as [Hsi ->].
  assert (∃ m, datamapping s !! Z.to_nat j = Some m
               ∧ basename m = basename mj
               ∧ labels_dir s = labels_dir self
               ∧ num_frames s = num_frames self
               ∧ length (datamapping s) = length (datamapping self))
    as (m & Hm & Hbm & Hdir & Hnf & Hlen).
  { destruct Hs as [-> | ->]; [by exists mj|]. simpl.
    rewrite length_insert.
    destruct (decide (Z.to_nat i = Z.to_nat j)) as [Heq|Hne].
    - exists (stored_after mi). rewrite <- Heq.
      rewrite list_lookup_insert_eq by (by eapply lookup_lt_Some).
      split_and!; try done. rewrite <- Hb.
      by destruct (stored_after_fields mi) as (? & _).
    - exists mj. by rewrite list_lookup_insert_ne. }
  rewrite <- Hlen in Hj.
  pose proof (list_index_in_range _ _ Hj) as Hkj.
  destruct (getitem_Ok _ _ _ _ _ _ _ Hkj Hm Hrunj) as [Hsj _].
  apply (sample_of_labels fs self s mi m); try done. congruence.
Qed.

(** Indices 0 and 2 of the example name recording "a" with label spans
    [0, 8) and [1, 2). *)
Lemma labels_depend_only_on_recording_witness :
  label (example.entry 0) ≠ label (example.entry 2)
  ∧ onset (example.sample_a example.dataset (example.entry 0))
    = onset (example.sample_a example.dataset (example.entry 2))
  ∧ offset (example.sample_a example.dataset (example.entry 0))
    = offset (example.sample_a example.dataset (example.entry 2))
  ∧ mpe (example.sample_a example.dataset (example.entry 0))
    = mpe (example.sample_a example.dataset (example.entry 2))
  ∧ velocity (example.sample_a example.dataset (example.entry 0))
    = velocity (example.sample_a example.dataset (example.entry 2)).
Proof.
  split; [vm_compute; congruence|].
  apply (labels_depend_only_on_recording example.disk example.dataset 0 2
           (example.entry 0) (example.entry 2) _ _
           (set_datamapping example.dataset
              (<[0%nat := stored_after (example.entry 0)]> example.catalogue))
           example.dataset
           (set_datamapping example.dataset
              (<[2%nat := stored_after (example.entry 2)]> example.catalogue))).
  - unfold __len__. simpl. lia.
  - unfold __len__. simpl. lia.
  - reflexivity.
  - reflexivity.
  - reflexivity.
  - vm_compute. reflexivity.
  - by left.
  - vm_compute. reflexivity.
Defined.

(** ** What a call writes *)

(** C3, as stated, fails: the call at index 0 of the example (start_frame =
    -3) stores start_frame = 0 in the catalogue entry, and the second call at
    index 0 returns another feature tensor: its first time frame is source
    row 0 and no longer silence. *)
Lemma getitem_twice_differs :
  __getitem__ example.disk 0 example.dataset
  = (Ok (example.sample_a example.dataset (example.entry 0)),
     example.dataset_after_0)
  ∧ datamapping example.dataset_after_0 ≠ datamapping example.dataset
  ∧ fst (__getitem__ example.disk 0 example.dataset_after_0)
    = Ok (example.sample_a example.dataset (stored_after (example.entry 0)))
  ∧ example.sample_a example.dataset (example.entry 0)
    ≠ example.sample_a example.dataset (stored_after (example.entry 0)).
Proof.
  split; [vm_compute; reflexivity|].
  split; [vm_compute; congruence|].
  split; [vm_compute; reflexivity|].
  intros H.
  apply (f_equal (λ w, match spec w with Tensor2 a => cell a 0 0 | _ => 0%R end))
    in H.
  pose proof example_silence as Hs.
  cbv -[ln IZR Rinv Rlt] in H, Hs. lra.
Qed.

(** C3 (amended): a call at a valid index never writes the configuration,
    the cached arrays, the directories or [num_frames], keeps the length of
    the catalogue and every entry but the one at the index, and keeps the
    recording name and the label span of that one.  When the entry's feature
    start_frame is not negative the whole object is unchanged and a second
    call returns the same result.  When it is negative and the call returns,
    the entry is left with feature start_frame 0. *)
Theorem getitem_writes_only_negative_onset_entry (fs : gmap string file)
    (idx : Z) (self self' : Dataset) (r : result WindowedSample)
    (m : DatasetItem) :
  0 ≤ idx < __len__ self →
  datamapping self !! Z.to_nat idx = Some m →
  __getitem__ fs idx self = (r, self') →
  (config self' = config self
   ∧ features self' = features self
   ∧ labels self' = labels self
   ∧ features_dir self' = features_dir self
   ∧ labels_dir self' = labels_dir self
   ∧ num_frames self' = num_frames self)
  ∧ length (datamapping self') = length (datamapping self)
  ∧ (∀ k : nat, k ≠ Z.to_nat idx →
       datamapping self' !! k = datamapping self !! k)
  ∧ (∃ m', datamapping self' !! Z.to_nat idx = Some m'
           ∧ basename m' = basename m ∧ label m' = label m
           ∧ (onset_frame (feature m) < 0 → (∃ ws, r = Ok ws) →
              onset_frame (feature m') = 0))
  ∧ (0 ≤ onset_frame (feature m) →
     self' = self ∧ __getitem__ fs idx self' = (r, self')).
Proof.
  unfold __len__. intros Hidx Hm Hrun.
  pose proof (list_index_in_range _ _ Hidx) as Hk.
  pose proof Hrun as Hrun'.
  rewrite (getitem_sample_of _ _ _ _ _ Hk Hm) in Hrun'.
  injection Hrun' as <- <-. unfold object_after.
  destruct (corrected_of fs self m) as [f|e] eqn:Hc.
  - simpl. split_and!; try done.
    + by rewrite length_insert.
    + intros k' Hne. by rewrite list_lookup_insert_ne by congruence.
    + exists (stored_after m).
      rewrite list_lookup_insert_eq by (by eapply lookup_lt_Some).
      destruct (stored_after_fields m) as (? & ? & _ & [Hst|[_ ?]]);
        split_and!; try done. intros Hneg _. rewrite Hst.
        rewrite <- Hst at 1. unfold stored_after in *.
        destruct (Z.ltb_spec (onset_frame (feature m)) 0); [done|lia].
    + intros Hge.
      rewrite (stored_after_nonneg _ Hge), list_insert_id by done.
      rewrite set_datamapping_id. split; [done|].
      rewrite Hrun. f_equal. unfold object_after. rewrite Hc.
      by rewrite (stored_after_nonneg _ Hge), list_insert_id, set_datamapping_id.
  - split_and!; try done.
    + exists m. split_and!; try done. intros _ [ws Hws].
      apply corrected_of_Raise in Hc. congruence.
    + intros _. split; [done|]. rewrite Hrun. f_equal.
      unfold object_after. by rewrite Hc.
Qed.

(** Index 1 of the example has feature start_frame 0: the call changes
    nothing and can be repeated. *)
Lemma getitem_writes_only_negative_onset_entry_witness :
  0 ≤ onset_frame (feature (example.entry 1))
  ∧ __getitem__ example.disk 1 example.dataset
    = (Ok (example.sample_b example.dataset (example.entry 1)), example.dataset).
Proof.
  assert (Hge : 0 ≤ onset_frame (feature (example.entry 1))) by (simpl; lia).
  split; [exact Hge|].
  refine (proj2 (proj2 (proj2 (proj2 (proj2
    (getitem_writes_only_negative_onset_entry example.disk 1
       example.dataset example.dataset _ (example.entry 1) _ _ _)))) Hge)).
  - unfold __len__. simpl. lia.
  - reflexivity.
  - vm_compute. reflexivity.
Defined.

(** ** Batching *)

Lemma forallb_shape_true (t : Tensor) (ts : list Tensor) :
  forallb (λ u, bool_decide (shape u = shape t)) ts = true
  ↔ ∀ u, u ∈ ts → shape u = shape t.
Proof.
  rewrite forallb_forall. split; intros H u Hu.
  - apply list_elem_of_In, H in Hu. by apply bool_decide_eq_true in Hu.
  - apply bool_decide_eq_true, H. by apply list_elem_of_In.
Qed.

Lemma torch_stack_uniform (t : Tensor) (ts : list Tensor) :
  (∀ u, u ∈ t :: ts → shape u = shape t) →
  torch_stack (t :: ts) = Ok (mkStacked (shape t) (t :: ts)).
Proof.
  intros H. unfold torch_stack.
  by rewrite (proj2 (forallb_shape_true t (t :: ts)) H).
Qed.

Lemma torch_stack_mismatch (ts : list Tensor) (u v : Tensor) :
  u ∈ ts → v ∈ ts → shape u ≠ shape v → torch_stack ts = Raise RuntimeError.
Proof.
  intros Hu Hv Hne. destruct ts as [|t ts]; [done|].
  unfold torch_stack.
  destruct (forallb _ (t :: ts)) eqn:Hall; [|done].
  pose proof (proj1 (forallb_shape_true t (t :: ts)) Hall) as H.
  rewrite (H u Hu), (H v Hv) in Hne. done.
Qed.

Lemma torch_stack_Raise (ts : list Tensor) (e : exn) :
  torch_stack ts = Raise e → e = RuntimeError.
Proof. unfold torch_stack. repeat case_match; congruence. Qed.

Lemma torch_stack_field (f : WindowedSample → Tensor) (s0 : WindowedSample)
    (batch : list WindowedSample) :
  (∀ s, s ∈ s0 :: batch → shape (f s) = shape (f s0)) →
  torch_stack (f <$> s0 :: batch)
  = Ok (mkStacked (shape (f s0)) (f <$> s0 :: batch)).
Proof.
  intros Hf. rewrite fmap_cons, torch_stack_uniform; [done|].
  rewrite <- fmap_cons. intros u (s & -> & Hs)%list_elem_of_fmap.
  by apply Hf.
Qed.

Lemma collate_fn_of_uniform (s0 : WindowedSample) (batch : list WindowedSample) :
  uniform (s0 :: batch) →
  collate_fn (s0 :: batch)
  = Ok (mkBatchedSample
          (mkStacked (shape (spec s0)) (spec <$> s0 :: batch))
          (mkStacked (shape (onset s0)) (onset <$> s0 :: batch))
          (mkStacked (shape (offset s0)) (offset <$> s0 :: batch))
          (mkStacked (shape (mpe s0)) (mpe <$> s0 :: batch))
          (mkStacked (shape (velocity s0)) (velocity <$> s0 :: batch))).
Proof.
  intros Huni.
  assert (Hs : ∀ s, s ∈ s0 :: batch → sample_shapes s = sample_shapes s0).
  { intros s Hs. apply Huni; [done|by left]. }
  unfold collate_fn, sample_shapes in *.
  rewrite (torch_stack_field spec), result_bind_Ok
    by (intros s Hin; specialize (Hs s Hin); congruence).
  rewrite (torch_stack_field onset), result_bind_Ok
    by (intros s Hin; specialize (Hs s Hin); congruence).
  rewrite (torch_stack_field offset), result_bind_Ok
    by (intros s Hin; specialize (Hs s Hin); congruence).
  rewrite (torch_stack_field mpe), result_bind_Ok
    by (intros s Hin; specialize (Hs s Hin); congruence).
  by rewrite (torch_stack_field velocity), result_bind_Ok
    by (intros s Hin; specialize (Hs s Hin); congruence).
Qed.

(** C7, as stated, fails: the empty sequence is a finite sequence of N = 0
    samples that share their shapes, and [collate_fn] raises ValueError on it
    instead of returning tensors of leading dimension 0. *)
Lemma collate_fn_empty_batch :
  (∀ s s', s ∈ @nil WindowedSample → s' ∈ @nil WindowedSample →
     sample_shapes s = sample_shapes s')
  ∧ collate_fn [] = Raise ValueError.
Proof. split; [|done]. intros s s' Hs. by apply elem_of_nil in Hs. Qed.

(** C7 (amended): on a non-empty batch whose samples share the shape of each
    of the five tensors, [collate_fn] returns five tensors that hold the
    samples' tensors in the order of the batch, so their leading dimension is
    the length of the batch and their other dimensions are the samples'; when
    two samples of the batch disagree on the shape of a tensor it raises
    torch's size-mismatch RuntimeError. *)
Theorem collate_fn_stacks_or_rejects (batch : list WindowedSample) :
  batch ≠ [] →
  ((∀ s s', s ∈ batch → s' ∈ batch → sample_shapes s = sample_shapes s') →
   ∃ b : BatchedSample,
     collate_fn batch = Ok b
     ∧ items (specs b) = spec <$> batch
     ∧ items (onsets b) = onset <$> batch
     ∧ items (offsets b) = offset <$> batch
     ∧ items (mpes b) = mpe <$> batch
     ∧ items (velocities b) = velocity <$> batch
     ∧ length (items (specs b)) = length batch
     ∧ length (items (onsets b)) = length batch
     ∧ length (items (offsets b)) = length batch
     ∧ length (items (mpes b)) = length batch
     ∧ length (items (velocities b)) = length batch
     ∧ ∀ s, s ∈ batch →
         [item_shape (specs b); item_shape (onsets b); item_shape (offsets b);
          item_shape (mpes b); item_shape (velocities b)] = sample_shapes s)
  ∧ (∀ s s', s ∈ batch → s' ∈ batch → sample_shapes s ≠ sample_shapes s' →
     collate_fn batch = Raise RuntimeError).
Proof.
  destruct batch as [|s0 batch]; [done|]. intros _. split.
  - intros Huni. rewrite (collate_fn_of_uniform s0 batch Huni).
    eexists. split; [done|]. cbn [specs onsets offsets mpes velocities items
                                   item_shape].
    repeat (split; [done || by rewrite length_fmap|]).
    intros s Hs. by rewrite (Huni s s0 Hs) by (by left).
  - intros s s' Hs Hs' Hne. unfold collate_fn.
    assert (Hstack : ∀ (f : WindowedSample → Tensor),
               shape (f s) ≠ shape (f s') →
               torch_stack (f <$> s0 :: batch) = Raise RuntimeError).
    { intros f Hf.
      apply (torch_stack_mismatch _ (f s) (f s')); [| |done];
        by apply list_elem_of_fmap_2. }
    destruct (decide (shape (spec s) = shape (spec s'))) as [E1|N1];
      [|by rewrite (Hstack spec N1)].
    destruct (torch_stack (spec <$> s0 :: batch)) as [x1|e1] eqn:S1;
      [rewrite result_bind_Ok|by rewrite (torch_stack_Raise _ _ S1)].
    destruct (decide (shape (onset s) = shape (onset s'))) as [E2|N2];
      [|by rewrite (Hstack onset N2)].
    destruct (torch_stack (onset <$> s0 :: batch)) as [x2|e2] eqn:S2;
      [rewrite result_bind_Ok|by rewrite (torch_stack_Raise _ _ S2)].
    destruct (decide (shape (offset s) = shape (offset s'))) as [E3|N3];
      [|by rewrite (Hstack offset N3)].
    destruct (torch_stack (offset <$> s0 :: batch)) as [x3|e3] eqn:S3;
      [rewrite result_bind_Ok|by rewrite (torch_stack_Raise _ _ S3)].
    destruct (decide (shape (mpe s) = shape (mpe s'))) as [E4|N4];
      [|by rewrite (Hstack mpe N4)].
    destruct (torch_stack (mpe <$> s0 :: batch)) as [x4|e4] eqn:S4;
      [rewrite result_bind_Ok|by rewrite (torch_stack_Raise _ _ S4)].
    destruct (decide (shape (velocity s) = shape (velocity s'))) as [E5|N5];
      [|by rewrite (Hstack velocity N5)].
    exfalso. apply Hne. unfold sample_shapes. congruence.
Qed.

Lemma collate_fn_stacks_or_rejects_witness :
  (∃ b : BatchedSample,
     collate_fn example.uniform_batch = Ok b
     ∧ length (items (specs b)) = 2%nat
     ∧ item_shape (specs b) = [2%nat; 128%nat])
  ∧ collate_fn example.ragged_batch = Raise RuntimeError.
Proof.
  split.
  - destruct (proj1 (collate_fn_stacks_or_rejects example.uniform_batch
                       ltac:(discriminate)))
      as (b & Hb & _ & _ & _ & _ & _ & Hlen & _ & _ & _ & _ & Hshape).
    + intros s s' Hs Hs'. unfold example.uniform_batch in *.
      repeat (apply elem_of_cons in Hs as [->|Hs]);
        repeat (apply elem_of_cons in Hs' as [->|Hs']);
        try (by apply elem_of_nil in Hs); try (by apply elem_of_nil in Hs');
        vm_compute; reflexivity.
    + exists b. split; [done|]. split; [done|].
      specialize (Hshape (example.sample_b example.dataset (example.entry 1))
                    ltac:(by left)).
      by injection Hshape as -> _ _ _ _.
  - apply (proj2 (collate_fn_stacks_or_rejects example.ragged_batch
                    ltac:(discriminate))
             (example.sample_b example.short_dataset (example.entry 1))
             (example.sample_b example.short_dataset (example.entry 4))).
    + by left.
    + right. by left.
    + vm_compute. congruence.
Defined.

(** ** Population of the cache *)

Lemma count_events_app (p : io_event → bool) (l1 l2 : list io_event) :
  count_events p (l1 ++ l2) = (count_events p l1 + count_events p l2)%nat.
Proof. induction l1 as [|e l1 IH]; simpl; [done|]. rewrite IH. lia. Qed.

Lemma count_label_events (labels_dir b b' ch : string) (channels : list string) :
  NoDup channels →
  count_events (is_label_load b' ch) (label_events labels_dir b channels)
  = (if decide (b = b' ∧ ch ∈ channels) then 1 else 0)%nat.
Proof.
  induction channels as [|c channels IH]; intros Hnd.
  - simpl. rewrite decide_False; [done|]. intros [_ H]. by apply elem_of_nil in H.
  - apply NoDup_cons in Hnd as [Hc Hnd]. simpl. rewrite (IH Hnd).
    destruct (decide (b = b')) as [->|Hb].
    + rewrite bool_decide_eq_true_2 by done. simpl.
      destruct (decide (c = ch)) as [->|Hne].
      * rewrite bool_decide_eq_true_2 by done.
        rewrite decide_False by naive_solver.
        rewrite decide_True; [done|]. split; [done|by left].
      * rewrite bool_decide_eq_false_2 by done. simpl.
        destruct (decide (ch ∈ channels)) as [Hin|Hnin].
        -- rewrite !decide_True; [done| |done]. split; [done|by right].
        -- rewrite !decide_False; [done| |naive_solver].
           intros [_ [?|?]%elem_of_cons]; congruence.
    + rewrite bool_decide_eq_false_2 by done. simpl.
      rewrite !decide_False; naive_solver.
Qed.

Lemma count_feature_label_events (labels_dir b b' : string)
    (channels : list string) :
  count_events (is_feature_load b') (label_events labels_dir b channels) = 0%nat.
Proof. induction channels; simpl; done. Qed.

(** [load_label_data] logs one load per channel it gets through, in order,
    stops at the first load that fails, and computes what [load_labels]
    does. *)
Lemma load_label_data_run (fs : gmap string file) (labels_dir b : string)
    (channels : list string) (data : gmap string Tensor)
    (log : list io_event) :
  ∃ n : nat,
    load_label_data fs labels_dir b channels data log
    = (load_labels fs labels_dir b channels data,
       log ++ label_events labels_dir b (take n channels))
    ∧ (∀ d, load_labels fs labels_dir b channels data = Ok d →
            take n channels = channels).
Proof.
  revert data log. induction channels as [|ch channels IH]; intros data log.
  - exists 0%nat. simpl. by rewrite app_nil_r.
  - simpl. unfold log_event. rewrite modify_bind_run, lift_bind_run.
    destruct (load_json_tensor fs (label_path_of labels_dir b ch)) as [t|e].
    + destruct (IH (<[ch := t]> data)
                  (log ++ [LoadLabel b ch (label_path_of labels_dir b ch)]))
        as (n & Hrun & Hfull).
      exists (S n). rewrite result_bind_Ok, Hrun. simpl.
      rewrite <- app_assoc. split; [done|].
      intros d Hd. by rewrite (Hfull d Hd).
    + exists 1%nat. simpl. rewrite take_0. split; [done|]. intros d Hd.
      discriminate.
Qed.

Lemma NoDup_LABELS : NoDup LABELS.
Proof.
  unfold LABELS.
  repeat (apply NoDup_cons; split;
          [intros H; repeat (apply elem_of_cons in H as [H|H]; [discriminate|]);
           by apply elem_of_nil in H|]).
  apply NoDup_nil_2.
Qed.

Lemma loads_match_at_most_once (features : gmap string Tensor)
    (log : list io_event) :
  loads_match features log → loads_at_most_once log.
Proof.
  intros H b. destruct (H b) as [Hf Hl]. split.
  - rewrite Hf. repeat case_decide; lia.
  - intros ch. rewrite (Hl ch). repeat case_decide; lia.
Qed.

Lemma populate_cache_loads (fs : gmap string file) (fd ld : string)
    (ms : list DatasetItem) (features : gmap string Tensor)
    (labels : gmap string (gmap string Tensor)) (log log' : list io_event)
    (r : result (gmap string Tensor * gmap string (gmap string Tensor))) :
  loads_match features log →
  populate_cache fs fd ld ms features labels log = (r, log') →
  loads_at_most_once log'
  ∧ ∀ features' labels', r = Ok (features', labels') →
      loads_match features' log'
      ∧ ∀ b, is_Some (features' !! b)
             ↔ is_Some (features !! b) ∨ b ∈ basename <$> ms.
Proof.
  revert features labels log. induction ms as [|m ms IH];
    intros features labels log Hinv Hrun.
  - simpl in Hrun. rewrite ret_run in Hrun. simplify_eq.
    split; [by eapply loads_match_at_most_once|].
    intros features' labels' [= <- <-]. split; [done|].
    intros b. rewrite fmap_nil. split; [auto|]. intros [?|H]; [done|].
    by apply elem_of_nil in H.
  - cbn [populate_cache] in Hrun.
    destruct (decide (is_Some (features !! basename m))) as [Hin|Hnin].
    { destruct (IH _ _ _ Hinv Hrun) as [Hmost Hok]. split; [done|].
      intros features' labels' Hr. destruct (Hok _ _ Hr) as [Hm Hdom].
      split; [done|]. intros b. rewrite Hdom, fmap_cons, elem_of_cons.
      split; [naive_solver|]. intros [?|[->|?]]; auto. }
    unfold log_event in Hrun. rewrite modify_bind_run, lift_bind_run in Hrun.
    set (log1 := log ++ [LoadFeature (basename m)
                           (feature_path_of fd (basename m))]) in *.
    assert (Hf1 : ∀ b, count_events (is_feature_load b) log1
                  = (if decide (is_Some (<[basename m := Tensor0 0%R]> features !! b))
                     then 1 else 0)%nat).
    { intros b. unfold log1. rewrite count_events_app. simpl.
      destruct (Hinv b) as [-> _].
      destruct (decide (basename m = b)) as [<-|Hne].
      - rewrite bool_decide_eq_true_2, lookup_insert_eq by done.
        rewrite decide_False by done. by rewrite decide_True by eauto.
      - rewrite bool_decide_eq_false_2, lookup_insert_ne by done.
        repeat case_decide; lia. }
    assert (Hl1 : ∀ b ch, count_events (is_label_load b ch) log1
                  = (if decide (is_Some (features !! b) ∧ ch ∈ LABELS)
                     then 1 else 0)%nat).
    { intros b ch. unfold log1. rewrite count_events_app. simpl.
      destruct (Hinv b) as [_ Hl]. rewrite (Hl ch). lia. }
    clearbody log1.
    destruct (torch_load fs (feature_path_of fd (basename m))) as [t|e].
    2:{ simplify_eq. split; [|done]. intros b. split.
        - rewrite Hf1. repeat case_decide; lia.
        - intros ch. rewrite Hl1. repeat case_decide; lia. }
    rewrite bind_run in Hrun.
    destruct (load_label_data_run fs ld (basename m) LABELS ∅ log1)
      as (n & Hdata & Hfull).
    rewrite Hdata in Hrun.
    assert (Hnd : NoDup (take n LABELS)).
    { pose proof NoDup_LABELS as Hall.
      rewrite <- (take_drop n LABELS) in Hall.
      by apply NoDup_app in Hall as [? _]. }
    destruct (load_labels fs ld (basename m) LABELS ∅) as [data|e].
    2:{ simplify_eq. split; [|done]. intros b. split.
        - rewrite count_events_app, count_feature_label_events, Hf1.
          repeat case_decide; lia.
        - intros ch. rewrite count_events_app, Hl1, count_label_events by done.
          destruct (decide (basename m = b)) as [<-|Hne].
          + rewrite (decide_False (P := is_Some _ ∧ _)) by naive_solver.
            repeat case_decide; lia.
          + rewrite (decide_False (P := basename m = b ∧ _)) by naive_solver.
            repeat case_decide; lia. }
    rewrite (Hfull data eq_refl) in Hrun.
    eapply IH in Hrun.
    + destruct Hrun as [Hmost Hok]. split; [done|].
      intros features' labels' Hr. destruct (Hok _ _ Hr) as [Hm Hdom].
      split; [done|]. intros b. rewrite Hdom, fmap_cons, elem_of_cons.
      destruct (decide (basename m = b)) as [<-|Hne].
      * rewrite lookup_insert_eq. split; [auto|]. intros _. left. eauto.
      * rewrite lookup_insert_ne by done. naive_solver.
    + intros b. split.
      * rewrite count_events_app, count_feature_label_events, Hf1, Nat.add_0_r.
        destruct (decide (basename m = b)) as [<-|Hne].
        -- by rewrite !lookup_insert_eq.
        -- by rewrite !lookup_insert_ne.
      * intros ch. rewrite count_events_app, Hl1, count_label_events
          by apply NoDup_LABELS.
        destruct (decide (basename m = b)) as [<-|Hne].
        -- rewrite lookup_insert_eq.
           rewrite (decide_False (P := is_Some (features !! _) ∧ _)) by naive_solver.
           destruct (decide (ch ∈ LABELS)).
           ++ rewrite !decide_True; eauto.
           ++ rewrite !decide_False; naive_solver.
        -- rewrite lookup_insert_ne by done.
           rewrite (decide_False (P := basename m = b ∧ _)) by naive_solver.
           lia.
Qed.

Lemma loads_match_init (path1 path2 : string) :
  loads_match ∅ ([] ++ [ReadText path1] ++ [ReadText path2]).
Proof.
  intros b. simpl. split; [|intros ch];
    rewrite decide_False; try done; rewrite lookup_empty;
    by intros ?%is_Some_None || (intros [?%is_Some_None _]; done).
Qed.

(** The constructor, run from an empty log. *)
Lemma init_run (fs : gmap string file) (dir : string) (nf : Z) :
  __init__ fs dir nf [] =
    let read1 := ReadText (path_join dir "mapping.json") in
    let read2 := ReadText (path_join dir "config.json") in
    match read_file json_mapping fs (path_join dir "mapping.json") with
    | Ok dm =>
        match read_file json_config fs (path_join dir "config.json") with
        | Ok cfg =>
            match populate_cache fs (path_join dir "features")
                    (path_join dir "labels") dm ∅ ∅ [read1; read2] with
            | (Ok (features, labels), log) =>
                (Ok (mkDataset dm cfg (path_join dir "features")
                       (path_join dir "labels") nf features labels), log)
            | (Raise e, log) => (Raise e, log)
            end
        | Raise e => (Raise e, [read1; read2])
        end
    | Raise e => (Raise e, [read1])
    end.
Proof.
  unfold __init__, read_mapping, read_config, log_event.
  rewrite bind_run, modify_bind_run. unfold lift at 1.
  destruct (read_file json_mapping fs _) as [dm|e]; [|done].
  rewrite bind_run, modify_bind_run. unfold lift at 1.
  destruct (read_file json_config fs _) as [cfg|e]; [|done].
  rewrite bind_run. simpl.
  destruct (populate_cache _ _ _ _ _ _ _) as [[[features labels]|e] log]; done.
Qed.

(** C8: while the object is constructed, the feature array of a recording is
    loaded at most once, and so is each of its label channels, whatever the
    number of catalogue entries that name the recording and whether or not
    the construction succeeds.  When it succeeds, each recording the
    catalogue names had its feature array and its four channels loaded
    exactly once, and nothing else was loaded. *)
Theorem cache_loads_each_recording_at_most_once (fs : gmap string file)
    (dir : string) (nf : Z) (b ch : string) :
  (count_events (is_feature_load b) (snd (__init__ fs dir nf [])) ≤ 1)%nat
  ∧ (count_events (is_label_load b ch) (snd (__init__ fs dir nf [])) ≤ 1)%nat
  ∧ ∀ self, fst (__init__ fs dir nf []) = Ok self →
      count_events (is_feature_load b) (snd (__init__ fs dir nf []))
      = (if decide (b ∈ basename <$> datamapping self) then 1 else 0)%nat
      ∧ count_events (is_label_load b ch) (snd (__init__ fs dir nf []))
        = (if decide (b ∈ basename <$> datamapping self ∧ ch ∈ LABELS)
           then 1 else 0)%nat.
Proof.
  rewrite init_run. cbv zeta.
  destruct (read_file json_mapping fs _) as [dm|e];
    [|simpl; split_and!; [lia|lia|done]].
  destruct (read_file json_config fs _) as [cfg|e];
    [|simpl; split_and!; [lia|lia|done]].
  destruct (populate_cache fs (path_join dir "features")
              (path_join dir "labels") dm ∅ ∅ _) as [r log'] eqn:Hrun.
  apply populate_cache_loads in Hrun as [Hmost Hok];
    [|apply (loads_match_init (path_join dir "mapping.json")
               (path_join dir "config.json"))].
  destruct (Hmost b) as [Hf Hl].
  destruct r as [[features' labels']|e]; simpl; [|by split_and!].
  destruct (Hok _ _ eq_refl) as [Hm Hdom].
  split_and!; [done|done|].
  intros self [= <-]. simpl. destruct (Hm b) as [-> Hlab]. rewrite Hlab.
  assert (Hb : is_Some (features' !! b) ↔ b ∈ basename <$> dm).
  { rewrite Hdom, lookup_empty. split; [|auto].
    by intros [?%is_Some_None|?]. }
  split; repeat case_decide; naive_solver.
Qed.

(** The five references of the example name two recordings: two feature
    arrays are loaded, one for "a" and one for "b". *)
Lemma cache_loads_each_recording_at_most_once_witness :
  fst (__init__ example.disk "data" 128 []) = Ok example.dataset
  ∧ length (datamapping example.dataset) = 5%nat
  ∧ count_events (is_feature_load "a")
      (snd (__init__ example.disk "data" 128 [])) = 1%nat
  ∧ count_events (is_feature_load "b")
      (snd (__init__ example.disk "data" 128 [])) = 1%nat
  ∧ count_events is_any_feature_load
      (snd (__init__ example.disk "data" 128 [])) = 2%nat.
Proof.
  split; [exact example_init|]. split; [reflexivity|].
  split; [|split].
  - exact (proj1 (proj2 (proj2
      (cache_loads_each_recording_at_most_once example.disk "data" 128 "a" "onset"))
      example.dataset example_init)).
  - exact (proj1 (proj2 (proj2
      (cache_loads_each_recording_at_most_once example.disk "data" 128 "b" "onset"))
      example.dataset example_init)).
  - vm_compute. reflexivity.
Defined.

(** ** The cache and the re-read *)

Lemma populate_cache_agrees (fs : gmap string file) (fd ld : string)
    (ms : list DatasetItem) (features features' : gmap string Tensor)
    (labels labels' : gmap string (gmap string Tensor))
    (log log' : list io_event) :
  cache_agrees fs fd ld features labels →
  populate_cache fs fd ld ms features labels log = (Ok (features', labels'), log') →
  cache_agrees fs fd ld features' labels'
  ∧ (∀ b, is_Some (features !! b) → is_Some (features' !! b))
  ∧ ∀ m, m ∈ ms → is_Some (features' !! basename m).
Proof.
  revert features labels log. induction ms as [|m ms IH];
    intros features labels log Hinv Hrun.
  - simpl in Hrun. rewrite ret_run in Hrun. simplify_eq.
    split_and!; [done|done|]. intros m Hm. by apply elem_of_nil in Hm.
  - cbn [populate_cache] in Hrun.
    destruct (decide (is_Some (features !! basename m))) as [Hin|Hnin].
    { destruct (IH _ _ _ Hinv Hrun) as (Hagree & Hmono & Hall).
      split_and!; [done|done|].
      intros m' [->|Hm']%elem_of_cons; [by apply Hmono|by apply Hall]. }
    unfold log_event in Hrun. rewrite modify_bind_run, lift_bind_run in Hrun.
    destruct (torch_load fs (feature_path_of fd (basename m))) as [t|e] eqn:Ht;
      [|done].
    rewrite bind_run in Hrun.
    destruct (load_label_data_run fs ld (basename m) LABELS ∅
                (log ++ [LoadFeature (basename m)
                           (feature_path_of fd (basename m))]))
      as (n & Hdata & _).
    rewrite Hdata in Hrun.
    destruct (load_labels fs ld (basename m) LABELS ∅) as [data|e] eqn:Hl;
      [|done].
    apply IH in Hrun as (Hagree & Hmono & Hall).
    + split_and!; [done| |].
      * intros b Hb. apply Hmono.
        destruct (decide (basename m = b)) as [<-|Hne];
          [by rewrite lookup_insert_eq|by rewrite lookup_insert_ne].
      * intros m' [->|Hm']%elem_of_cons; [|by apply Hall].
        apply Hmono. by rewrite lookup_insert_eq.
    + intros b Hb. destruct (decide (basename m = b)) as [<-|Hne].
      * exists t, data. by rewrite !lookup_insert_eq.
      * rewrite lookup_insert_ne in Hb by done.
        destruct (Hinv b Hb) as (t' & data' & ? & ? & ? & ?).
        exists t', data'. by rewrite !lookup_insert_ne.
Qed.

(** On an object whose cache agrees with the disk, the cached path and the
    re-read of [__getitem__] are the same computation at every position
    whose recording is cached. *)
Lemma get_sample_cached_run (fs : gmap string file) (idx : Z) (self : Dataset)
    (k : nat) (m : DatasetItem) :
  cache_agrees fs (features_dir self) (labels_dir self) (features self)
    (labels self) →
  list_index (length (datamapping self)) idx = Ok k →
  datamapping self !! k = Some m →
  is_Some (features self !! basename m) →
  get_sample_cached idx self = __getitem__ fs idx self.
Proof.
  intros Hagree Hidx Hk Hcached.
  destruct (Hagree _ Hcached) as (t & data & Hf & Hl & Ht & Hd).
  rewrite (getitem_run _ _ _ _ _ Hidx Hk), Hd, Ht.
  unfold get_sample_cached, cache_get.
  rewrite get_bind_run, lift_bind_run, Hidx, bind_run, (deref_run _ _ _ Hk).
  by rewrite lift_bind_run, Hl, lift_bind_run, Hf.
Qed.

Lemma init_agrees (fs : gmap string file) (dir : string) (nf : Z)
    (self : Dataset) (log : list io_event) :
  __init__ fs dir nf [] = (Ok self, log) →
  cache_agrees fs (features_dir self) (labels_dir self) (features self)
    (labels self)
  ∧ ∀ m, m ∈ datamapping self → is_Some (features self !! basename m).
Proof.
  rewrite init_run. cbv zeta. intros Hrun.
  destruct (read_file json_mapping fs _) as [dm|e]; [|done].
  destruct (read_file json_config fs _) as [cfg|e]; [|done].
  destruct (populate_cache fs (path_join dir "features")
              (path_join dir "labels") dm ∅ ∅ _)
    as [[[features' labels']|e] log'] eqn:Hpop; [|done].
  injection Hrun as <- <-. simpl.
  apply populate_cache_agrees in Hpop as (Hagree & _ & Hall); [done|].
  intros b Hb. rewrite lookup_empty in Hb. by apply is_Some_None in Hb.
Qed.

(** C9: once the object is constructed, for every valid index the arrays the
    cache holds for the entry's recording are the arrays the re-read of
    [__getitem__] loads from the disk, so that sampling through the cache and
    sampling through the re-read give the same result and leave the same
    object, before and after a call at that index. *)
Theorem cache_equals_reread (fs : gmap string file) (dir : string) (nf : Z)
    (self : Dataset) (log : list io_event) (idx : Z) (m : DatasetItem) :
  __init__ fs dir nf [] = (Ok self, log) →
  0 ≤ idx < __len__ self →
  datamapping self !! Z.to_nat idx = Some m →
  (∃ feat data,
     features self !! basename m = Some feat
     ∧ labels self !! basename m = Some data
     ∧ feature_array fs self m = Ok feat
     ∧ load_labels fs (labels_dir self) (basename m) LABELS ∅ = Ok data)
  ∧ get_sample_cached idx self = __getitem__ fs idx self
  ∧ ∀ r self', __getitem__ fs idx self = (r, self') →
      get_sample_cached idx self' = __getitem__ fs idx self'.
Proof.
  unfold __len__. intros Hinit Hidx Hm.
  destruct (init_agrees _ _ _ _ _ Hinit) as [Hagree Hall].
  pose proof (list_index_in_range _ _ Hidx) as Hk.
  assert (Hcached : is_Some (features self !! basename m)).
  { apply Hall. by eapply list_elem_of_lookup_2. }
  split; [|split].
  - destruct (Hagree _ Hcached) as (t & data & ? & ? & ? & ?).
    by exists t, data.
  - by eapply get_sample_cached_run.
  - intros r self' Hrun.
    destruct (getitem_state _ _ _ _ _ Hrun)
      as [->|(k & m2 & Hk' & Hm' & ->)];
      [by eapply get_sample_cached_run|].
    rewrite Hk in Hk'. injection Hk' as <-.
    rewrite Hm in Hm'. injection Hm' as <-.
    apply (get_sample_cached_run _ _ _ (Z.to_nat idx) (stored_after m)); simpl.
    + done.
    + by rewrite length_insert.
    + apply list_lookup_insert_eq. by eapply lookup_lt_Some.
    + by destruct (stored_after_fields m) as (-> & _).
Qed.

(** Index 0 of the example: the cache of the constructed object and the
    files of recording "a" hold the same arrays, and the two paths agree. *)
Lemma cache_equals_reread_witness :
  (∃ feat data,
     features example.dataset !! "a" = Some feat
     ∧ labels example.dataset !! "a" = Some data
     ∧ feature_array example.disk example.dataset (example.entry 0) = Ok feat
     ∧ load_labels example.disk "data/labels" "a" LABELS ∅ = Ok data)
  ∧ get_sample_cached 0 example.dataset
    = __getitem__ example.disk 0 example.dataset
  ∧ ∀ r self', __getitem__ example.disk 0 example.dataset = (r, self') →
      get_sample_cached 0 self' = __getitem__ example.disk 0 self'.
Proof.
  apply (cache_equals_reread example.disk "data" 128 example.dataset
           (snd (__init__ example.disk "data" 128 [])) 0 (example.entry 0)).
  - vm_compute. reflexivity.
  - unfold __len__. simpl. lia.
  - reflexivity.
Defined.


(** ** Exceptions of a call *)








(** ** Label arrays of one dimension *)

Lemma right_pad_flat_or_matrix (num_frames : Z) (v : R) (t : Tensor) :
  ndim t = 1%nat ∨ ndim t = 2%nat →
  num_frames ≤ int64_max →
  (short_flat num_frames t ∧ right_pad num_frames v t = Raise IndexError)
  ∨ (¬ short_flat num_frames t ∧ ∃ p, right_pad num_frames v t = Ok p).
Proof.
  intros Hnd Hnf. destruct t as [x|c|a|d0 d1 d2 ds c];
    try (unfold ndim in Hnd; simpl in Hnd; lia).
  - unfold right_pad. destruct (shape_at_1d c) as [-> ->].
    rewrite result_bind_Ok.
    destruct (Z.ltb_spec (Z.of_nat (length c)) num_frames).
    + left. split; [by exists c|done].
    + right. split; [|by eexists]. intros (c' & [= <-] & ?). lia.
  - right. split; [by intros (c' & ? & _)|].
    rewrite right_pad_2d, pad_overflows_false by done. by eexists.
Qed.

(** X14: at a valid index whose recording has a 2-D feature array and label
    arrays of one or two dimensions, a label array of one dimension with
    fewer than [num_frames] elements makes the call raise IndexError, the
    pads having sizes torch accepts; the entry is stored corrected before the
    exception, so a negative feature start is reset although the call
    raises. *)
Theorem short_flat_label_raises (fs : gmap string file) (idx : Z)
    (self : Dataset) (m : DatasetItem) (feat : Matrix) (t1 t2 t3 t4 : Tensor) :
  0 ≤ idx < __len__ self →
  datamapping self !! Z.to_nat idx = Some m →
  feature_array fs self m = Ok (Tensor2 feat) →
  label_array fs self m "onset" = Ok t1 →
  label_array fs self m "offset" = Ok t2 →
  label_array fs self m "mpe" = Ok t3 →
  label_array fs self m "velocity" = Ok t4 →
  (∀ t, t ∈ [t1; t2; t3; t4] → ndim t = 1%nat ∨ ndim t = 2%nat) →
  (∃ t, t ∈ [t1; t2; t3; t4] ∧ short_flat (num_frames self) t) →
  sizes_fit self m →
  __getitem__ fs idx self
  = (Raise IndexError,
     set_datamapping self
       (<[Z.to_nat idx := stored_after m]> (datamapping self))).
Proof.
  unfold __len__. intros Hidx Hm Hf H1 H2 H3 H4 Hnd (t & Ht & Hshort) [Hon Hnf].
  pose proof (list_index_in_range _ _ Hidx) as Hk.
  rewrite (getitem_sample_of _ _ _ _ _ Hk Hm).
  unfold object_after, corrected_of, sample_of, assemble.
  rewrite H1, H2, H3, H4, Hf, !result_bind_Ok, prepend_silence_2d.
  replace (int64_max <? - onset_frame (feature m)) with false
    by (symmetry; apply Z.ltb_ge; lia).
  rewrite andb_false_r, result_bind_Ok. cbn [tensor_slice].
  rewrite result_bind_Ok, pad_feature_2d, pad_overflows_false by done.
  rewrite result_bind_Ok, !pad_label_right_pad. f_equal.
  destruct (right_pad_flat_or_matrix (num_frames self) 0%R t1)
    as [[_ ->]|[N1 [p1 ->]]]; [apply Hnd; set_solver|done|done|].
  rewrite result_bind_Ok.
  destruct (right_pad_flat_or_matrix (num_frames self) 0%R t2)
    as [[_ ->]|[N2 [p2 ->]]]; [apply Hnd; set_solver|done|done|].
  rewrite result_bind_Ok.
  destruct (right_pad_flat_or_matrix (num_frames self) 0%R t3)
    as [[_ ->]|[N3 [p3 ->]]]; [apply Hnd; set_solver|done|done|].
  rewrite result_bind_Ok.
  destruct (right_pad_flat_or_matrix (num_frames self) 0%R t4)
    as [[_ ->]|[N4 [p4 ->]]]; [apply Hnd; set_solver|done|done|].
  exfalso.
  repeat (apply elem_of_cons in Ht as [->|Ht]; [done|]).
  by apply elem_of_nil in Ht.
Qed.

(** Index 0 of the example (start = -3) when [a.offset.json] holds an empty
    list: the call raises IndexError and leaves the entry with start 0. *)
Lemma short_flat_label_raises_witness :
  __getitem__ example.disk_with_empty_offset 0 example.dataset
  = (Raise IndexError, example.dataset_after_0).
Proof.
  apply (short_flat_label_raises example.disk_with_empty_offset 0
           example.dataset (example.entry 0) example.frames_a
           (Tensor2 (example.label_rows 1)) (Tensor1 [])
           (Tensor2 (example.label_rows 21)) (Tensor2 (example.label_rows 31))).
  - unfold __len__. simpl. lia.
  - reflexivity.
  - vm_compute. reflexivity.
  - vm_compute. reflexivity.
  - vm_compute. reflexivity.
  - vm_compute. reflexivity.
  - vm_compute. reflexivity.
  - intros t Ht.
    repeat (apply elem_of_cons in Ht as [->|Ht]; [vm_compute; auto|]).
    by apply elem_of_nil in Ht.
  - exists (Tensor1 []). split; [set_solver|]. exists []. split; [done|].
    simpl. lia.
  - unfold sizes_fit, int64_max. simpl. lia.
Defined.

(** ** Calls at other indices, and repeated calls *)

(** X2: a call at one valid index, whether it returns or raises, does not
    change what a call at another valid index returns or raises. *)
Theorem getitem_other_index_unaffected (fs : gmap string file)
    (self s : Dataset) (i j : Z) (r : result WindowedSample) :
  0 ≤ i < __len__ self →
  0 ≤ j < __len__ self →
  i ≠ j →
  __getitem__ fs i self = (r, s) →
  fst (__getitem__ fs j s) = fst (__getitem__ fs j self).
Proof.
  unfold __len__. intros Hi Hj Hne Hrun.
  pose proof (list_index_in_range _ _ Hi) as Hki.
  pose proof (list_index_in_range _ _ Hj) as Hkj.
  destruct (lookup_lt_is_Some_2 (datamapping self) (Z.to_nat j)) as [mj Hmj];
    [lia|].
  destruct (getitem_state _ _ _ _ _ Hrun)
    as [->|(k & m & Hk' & Hm & ->)]; [done|].
  rewrite Hki in Hk'. injection Hk' as <-.
  rewrite (getitem_sample_of fs j self _ _ Hkj Hmj).
  erewrite (getitem_sample_of fs j _ (Z.to_nat j) mj).
  - simpl. by apply sample_of_congr.
  - simpl. by rewrite length_insert.
  - simpl. rewrite list_lookup_insert_ne; [done|lia].
Qed.

Lemma getitem_other_index_unaffected_witness :
  fst (__getitem__ example.disk 2 example.dataset_after_0)
  = fst (__getitem__ example.disk 2 example.dataset).
Proof.
  apply (getitem_other_index_unaffected example.disk example.dataset
           example.dataset_after_0 0 2
           (Ok (example.sample_a example.dataset (example.entry 0)))).
  - unfold __len__. simpl. lia.
  - unfold __len__. simpl. lia.
  - lia.
  - vm_compute. reflexivity.
Defined.

Lemma shape1_feature_slice (self : Dataset) (m : DatasetItem) (feat : Matrix) :
  shape1 (feature_slice self m feat) = shape1 feat.
Proof.
  unfold feature_slice, slice_rows, corrected_feature. simpl.
  by destruct (_ <? _).
Qed.

Lemma shape_feature_tensor (self : Dataset) (m : DatasetItem) (feat : Matrix) :
  shape0 (feature_tensor self m feat) = shape1 feat
  ∧ Z.of_nat (shape1 (feature_tensor self m feat))
    = Z.max (num_frames self) (Z.of_nat (shape0 (feature_slice self m feat))).
Proof.
  unfold feature_tensor.
  destruct (shape_transpose (pad_rows (num_frames self) (silence_of self)
                               (feature_slice self m feat))) as [-> ->].
  by rewrite shape1_pad_rows, shape1_feature_slice, shape0_pad_rows.
Qed.

(** The sample of the entry a returned call stores. *)
Lemma sample_of_stored_after (fs : gmap string file) (self : Dataset)
    (m : DatasetItem) (ws : WindowedSample) :
  num_frames self ≤ int64_max →
  sample_of fs self m = Ok ws →
  ∃ ws2,
    sample_of fs self (stored_after m) = Ok ws2
    ∧ onset ws2 = onset ws ∧ offset ws2 = offset ws
    ∧ mpe ws2 = mpe ws ∧ velocity ws2 = velocity ws
    ∧ shape_at (spec ws2) 0 = shape_at (spec ws) 0.
Proof.
  intros Hnf Hs.
  destruct (stored_after_fields m) as (Hb & _ & Hge & [Hst|[Hneg _]]).
  { exists ws. by rewrite Hst. }
  pose proof Hs as Hs'.
  destruct (sample_of_Ok _ _ _ _ Hs)
    as (t1 & t2 & t3 & t4 & feat & f & sl & p & p1 & p2 & p3 & p4
        & H1 & H2 & H3 & H4 & Hf & Hpre & Hsl & Hp & G1 & G2 & G3 & G4 & ->).
  destruct (prepend_silence_negative _ _ _ _ Hneg Hpre) as (a & -> & -> & _).
  pose proof (sample_of_spec_2d _ _ _ _ _ Hf Hs') as Hspec.
  cbn [spec] in Hspec.
  eexists. split.
  - unfold sample_of, label_array, feature_array in *. rewrite Hb.
    rewrite H1, H2, H3, H4, Hf, !result_bind_Ok.
    rewrite prepend_silence_nonneg, result_bind_Ok by done.
    unfold assemble. cbn [tensor_slice].
    rewrite result_bind_Ok, pad_feature_2d, pad_overflows_false by done.
    by rewrite result_bind_Ok, G1, G2, G3, G4, !result_bind_Ok.
  - cbn [spec onset offset mpe velocity]. split_and!; try done.
    rewrite Hspec. unfold shape_at. cbn [shape tensor_T].
    destruct (shape_feature_tensor self m a) as [Hbins _].
    unfold feature_tensor in Hbins. rewrite Hbins.
    destruct (shape_transpose
                (pad_rows (num_frames self) (silence_of self)
                   (slice_rows a
                      (onset_frame (feature (stored_after (stored_after m))))
                      (offset_frame (feature (stored_after (stored_after m)))))))
      as [_ ->].
    by rewrite shape1_pad_rows.
Qed.

(** X3: once a call at an index has returned, a further call at that index
    returns too and leaves the object as the first call left it, so that from
    the second call on the results repeat; the label tensors and the number
    of feature bins are those of the first call.  [num_frames] is a size
    torch accepts. *)
Theorem getitem_settles_after_first_return (fs : gmap string file) (idx : Z)
    (self s1 : Dataset) (ws : WindowedSample) :
  num_frames self < 2 ^ 63 →
  __getitem__ fs idx self = (Ok ws, s1) →
  ∃ ws2 : WindowedSample,
    __getitem__ fs idx s1 = (Ok ws2, s1)
    ∧ onset ws2 = onset ws ∧ offset ws2 = offset ws
    ∧ mpe ws2 = mpe ws ∧ velocity ws2 = velocity ws
    ∧ shape_at (spec ws2) 0 = shape_at (spec ws) 0.
Proof.
  intros Hnf Hrun.
  destruct (list_index (length (datamapping self)) idx) as [k|e] eqn:Hidx.
  2:{ by rewrite (getitem_out_of_range _ _ _ _ Hidx) in Hrun. }
  destruct (list_index_Ok _ _ _ Hidx) as [Hk _].
  destruct (lookup_lt_is_Some_2 _ _ Hk) as [m Hm].
  destruct (getitem_Ok _ _ _ _ _ _ _ Hidx Hm Hrun) as [Hs ->].
  set (s1 := set_datamapping self (<[k := stored_after m]> (datamapping self))).
  assert (Hidx1 : list_index (length (datamapping s1)) idx = Ok k)
    by (simpl; by rewrite length_insert).
  assert (Hm1 : datamapping s1 !! k = Some (stored_after m))
    by (simpl; by apply list_lookup_insert_eq).
  destruct (sample_of_stored_after fs self m ws) as (ws2 & Hs2 & Hlab);
    [unfold int64_max; lia|done|].
  assert (Hs1 : sample_of fs s1 (stored_after m) = Ok ws2).
  { rewrite <- Hs2. by apply sample_of_congr. }
  exists ws2. split; [|done].
  rewrite (getitem_sample_of _ _ _ _ _ Hidx1 Hm1), Hs1. f_equal.
  unfold object_after.
  destruct (sample_of_Ok_corrected _ _ _ _ Hs1) as [f ->].
  unfold s1, set_datamapping. simpl.
  by rewrite list_insert_insert_eq, stored_after_idem.
Qed.

Lemma getitem_settles_after_first_return_witness :
  ∃ ws2 : WindowedSample,
    __getitem__ example.disk 0 example.dataset_after_0
    = (Ok ws2, example.dataset_after_0)
    ∧ onset ws2 = onset (example.sample_a example.dataset (example.entry 0))
    ∧ offset ws2 = offset (example.sample_a example.dataset (example.entry 0))
    ∧ mpe ws2 = mpe (example.sample_a example.dataset (example.entry 0))
    ∧ velocity ws2
      = velocity (example.sample_a example.dataset (example.entry 0))
    ∧ shape_at (spec ws2) 0
      = shape_at (spec (example.sample_a example.dataset (example.entry 0))) 0.
Proof.
  apply (getitem_settles_after_first_return example.disk 0 example.dataset).
  - simpl. lia.
  - vm_compute. reflexivity.
Defined.

(** ** Slices and padded tensors, cell by cell *)

Lemma py_slice_in_range {A} (l : list A) (a b : Z) :
  0 ≤ a ≤ b → b ≤ Z.of_nat (length l) →
  py_slice l a b = take (Z.to_nat (b - a)) (drop (Z.to_nat a) l).
Proof.
  intros Hab Hb. unfold py_slice, slice_bound.
  destruct (Z.ltb_spec a 0); [lia|]. destruct (Z.ltb_spec b 0); [lia|].
  by rewrite !Z.min_l by lia.
Qed.

Lemma py_slice_from_start {A} (l : list A) (b : Z) :
  0 ≤ b →
  py_slice l 0 b = take (Z.to_nat (Z.min b (Z.of_nat (length l)))) l.
Proof.
  intros Hb. unfold py_slice, slice_bound.
  destruct (Z.ltb_spec b 0); [lia|]. destruct (Z.ltb_spec 0 0); [lia|].
  rewrite (Z.min_l 0) by lia. by rewrite Z.sub_0_r.
Qed.

Lemma cell_take_drop (k : nat) (l : list (list R)) (a c i j : nat) :
  (i < c)%nat →
  cell (mkMatrix k (take c (drop a l))) i j = cell (mkMatrix k l) (a + i) j.
Proof.
  intros Hi. unfold cell. simpl.
  by rewrite !(nth_lookup _ _ []), lookup_take_lt, lookup_drop.
Qed.

Lemma cell_take (k : nat) (l : list (list R)) (c i j : nat) :
  (i < c)%nat → cell (mkMatrix k (take c l)) i j = cell (mkMatrix k l) i j.
Proof.
  intros Hi. unfold cell. simpl.
  by rewrite !(nth_lookup _ _ []), lookup_take_lt.
Qed.

Lemma cell_constant_rows_app_l (k n w : nat) (v : R) (l : list (list R))
    (i j : nat) :
  (i < n)%nat → (j < w)%nat →
  cell (mkMatrix k (constant_rows n w v ++ l)) i j = v.
Proof.
  intros Hi Hj. unfold cell, constant_rows. simpl.
  rewrite app_nth1 by (by rewrite length_replicate).
  rewrite !nth_lookup, lookup_replicate_2 by done. simpl.
  by rewrite lookup_replicate_2.
Qed.

Lemma cell_constant_rows_app_r (k n w : nat) (v : R) (l : list (list R))
    (i j : nat) :
  (n ≤ i)%nat →
  cell (mkMatrix k (constant_rows n w v ++ l)) i j = cell (mkMatrix k l) (i - n) j.
Proof.
  intros Hi. unfold cell, constant_rows. simpl.
  by rewrite app_nth2, length_replicate by (rewrite length_replicate; lia).
Qed.

(** The cells of a padded tensor: those of the tensor, then the fill. *)
Lemma cell_pad_rows (num_frames : Z) (v : R) (t : Matrix) (i j : nat) :
  (j < shape1 t)%nat →
  ((i < shape0 t)%nat → cell (pad_rows num_frames v t) i j = cell t i j)
  ∧ ((shape0 t ≤ i)%nat → Z.of_nat i < num_frames →
     cell (pad_rows num_frames v t) i j = v).
Proof.
  intros Hj. unfold pad_rows, shape0.
  destruct (Z.ltb_spec (Z.of_nat (length (rows t))) num_frames); split;
    intros Hi; try lia.
  - by rewrite cell_app_l.
  - intros Hnf. apply cell_app_constant; [lia|done].
  - done.
Qed.

(** The cells of the returned feature tensor are those of the padded slice,
    time last. *)
Lemma cell_feature_tensor (self : Dataset) (m : DatasetItem) (feat : Matrix)
    (i j : nat) :
  (j < shape1 feat)%nat →
  let sl := feature_slice self m feat in
  ((i < shape0 sl)%nat → cell (feature_tensor self m feat) j i = cell sl i j)
  ∧ ((shape0 sl ≤ i)%nat → Z.of_nat i < num_frames self →
     cell (feature_tensor self m feat) j i = silence_of self).
Proof.
  intros Hj sl. unfold feature_tensor. fold sl.
  assert (Hw : (j < shape1 sl)%nat) by (unfold sl; by rewrite shape1_feature_slice).
  pose proof (shape0_pad_rows (num_frames self) (silence_of self) sl) as Hlen.
  destruct (cell_pad_rows (num_frames self) (silence_of self) sl i j Hw)
    as [Hin Hout].
  split.
  - intros Hi. rewrite cell_transpose; [by apply Hin|lia|].
    by rewrite shape1_pad_rows.
  - intros Hi Hnf. rewrite cell_transpose; [by apply Hout|lia|].
    by rewrite shape1_pad_rows.
Qed.

(** ** Windows inside the source array, and windows that start before it *)

Lemma feature_slice_from_nonneg_onset (self : Dataset) (m : DatasetItem)
    (feat : Matrix) :
  0 ≤ onset_frame (feature m) →
  stored_after m = m
  ∧ feature_slice self m feat
    = slice_rows feat (onset_frame (feature m)) (offset_frame (feature m)).
Proof.
  intros Hge. unfold feature_slice, corrected_feature, stored_after.
  apply Z.ltb_ge in Hge. by rewrite Hge.
Qed.

Lemma feature_slice_from_negative_onset (self : Dataset) (m : DatasetItem)
    (feat : Matrix) :
  onset_frame (feature m) < 0 →
  0 ≤ offset_frame (feature m) →
  let p := Z.to_nat (- onset_frame (feature m)) in
  feature_slice self m feat
  = mkMatrix (shape1 feat)
      (take (Z.to_nat (Z.min (offset_frame (feature m))
                         (Z.of_nat (p + shape0 feat))))
         (constant_rows p (shape1 feat) (silence_of self) ++ rows feat)).
Proof.
  intros Hneg Hoff p. unfold feature_slice, corrected_feature, stored_after.
  apply Z.ltb_lt in Hneg. rewrite Hneg. unfold slice_rows. simpl.
  rewrite py_slice_from_start by done.
  by rewrite length_app, length_constant_rows.
Qed.

(** The feature tensor a call returns for a 2-D feature array. *)
Lemma getitem_feature_tensor (fs : gmap string file) (idx : Z)
    (self self' : Dataset) (ws : WindowedSample) (m : DatasetItem)
    (feat : Matrix) :
  0 ≤ idx < __len__ self →
  datamapping self !! Z.to_nat idx = Some m →
  feature_array fs self m = Ok (Tensor2 feat) →
  __getitem__ fs idx self = (Ok ws, self') →
  spec ws = Tensor2 (feature_tensor self m feat)
  ∧ self' = set_datamapping self
              (<[Z.to_nat idx := stored_after m]> (datamapping self)).
Proof.
  unfold __len__. intros Hidx Hm Hfeat Hrun.
  pose proof (list_index_in_range _ _ Hidx) as Hk.
  destruct (getitem_Ok _ _ _ _ _ _ _ Hk Hm Hrun) as [Hs ->].
  split; [|done]. by apply (sample_of_spec_2d fs).
Qed.

(** X4: for a valid index whose recording has a 2-D feature array and whose
    feature span lies inside that array (0 <= start <= end <= number of
    source frames) and is at most [num_frames] long, the call changes nothing
    in the object and returns a 2-D feature tensor of as many bins as the
    source and exactly [num_frames] time frames: time frame [i] below
    [end - start] holds source frame [start + i] unaltered, and every later
    time frame holds [log(log_offset)]. *)
Theorem window_inside_source_round_trip (fs : gmap string file) (idx : Z)
    (self self' : Dataset) (ws : WindowedSample) (m : DatasetItem)
    (feat : Matrix) :
  0 ≤ idx < __len__ self →
  datamapping self !! Z.to_nat idx = Some m →
  feature_array fs self m = Ok (Tensor2 feat) →
  __getitem__ fs idx self = (Ok ws, self') →
  0 ≤ onset_frame (feature m) ≤ offset_frame (feature m) →
  offset_frame (feature m) ≤ Z.of_nat (shape0 feat) →
  offset_frame (feature m) - onset_frame (feature m) ≤ num_frames self →
  self' = self
  ∧ ∃ sp : Matrix,
      spec ws = Tensor2 sp
      ∧ shape0 sp = shape1 feat
      ∧ Z.of_nat (shape1 sp) = num_frames self
      ∧ ∀ i j : nat, (j < shape1 feat)%nat →
          (Z.of_nat i < offset_frame (feature m) - onset_frame (feature m) →
           cell sp j i = cell feat (Z.to_nat (onset_frame (feature m)) + i) j)
          ∧ (offset_frame (feature m) - onset_frame (feature m) ≤ Z.of_nat i
             < num_frames self →
             cell sp j i = silence_of self).
Proof.
  intros Hidx Hm Hfeat Hrun Hspan Hend Hshort.
  destruct (getitem_feature_tensor _ _ _ _ _ _ _ Hidx Hm Hfeat Hrun)
    as [Hspec ->].
  destruct (feature_slice_from_nonneg_onset self m feat) as [Hst Hsl]; [lia|].
  assert (Hrows : feature_slice self m feat
                  = mkMatrix (shape1 feat)
                      (take (Z.to_nat (offset_frame (feature m)
                                       - onset_frame (feature m)))
                         (drop (Z.to_nat (onset_frame (feature m)))
                            (rows feat)))).
  { rewrite Hsl. unfold slice_rows. by rewrite py_slice_in_range. }
  assert (Hlen : Z.of_nat (shape0 (feature_slice self m feat))
                 = offset_frame (feature m) - onset_frame (feature m)).
  { rewrite Hrows. unfold shape0 in *. simpl.
    rewrite length_take_le; [lia|]. rewrite length_drop. lia. }
  destruct (shape_feature_tensor self m feat) as [Hbins Htime].
  split.
  { by rewrite Hst, list_insert_id, set_datamapping_id. }
  exists (feature_tensor self m feat). split_and!.
  - done.
  - done.
  - rewrite Htime. lia.
  - intros i j Hj.
    destruct (cell_feature_tensor self m feat i j Hj) as [Hin Hout].
    split.
    + intros Hi. rewrite Hin by lia. rewrite Hrows.
      rewrite cell_take_drop by lia. by destruct feat.
    + intros Hi. apply Hout; lia.
Qed.

(** Index 2 of the example: span [2, 6) of the eight frames of "a". *)
Lemma window_inside_source_round_trip_witness :
  example.dataset = example.dataset
  ∧ ∃ sp : Matrix,
      spec (example.sample_a example.dataset (example.entry 2)) = Tensor2 sp
      ∧ shape0 sp = 2%nat
      ∧ Z.of_nat (shape1 sp) = 128
      ∧ ∀ i j : nat, (j < 2)%nat →
          (Z.of_nat i < 6 - 2 →
           cell sp j i = cell example.frames_a (Z.to_nat 2 + i) j)
          ∧ (6 - 2 ≤ Z.of_nat i < 128 →
             cell sp j i = silence_of example.dataset).
Proof.
  apply (window_inside_source_round_trip example.disk 2 example.dataset
           example.dataset _ (example.entry 2) example.frames_a).
  - unfold __len__. simpl. lia.
  - reflexivity.
  - vm_compute. reflexivity.
  - vm_compute. reflexivity.
  - simpl. lia.
  - unfold shape0. simpl. lia.
  - simpl. lia.
Defined.

(** X5: for a valid index whose recording has a 2-D feature array and whose
    feature span starts before that array (start < 0 <= end), the time
    frames of the returned feature tensor below [end] are aligned on the
    source: the first [-start] of them hold [log(log_offset)], and time frame
    [-start + i] holds source frame [i]. *)
Theorem window_before_source_alignment (fs : gmap string file) (idx : Z)
    (self self' : Dataset) (ws : WindowedSample) (m : DatasetItem)
    (feat : Matrix) :
  0 ≤ idx < __len__ self →
  datamapping self !! Z.to_nat idx = Some m →
  feature_array fs self m = Ok (Tensor2 feat) →
  __getitem__ fs idx self = (Ok ws, self') →
  onset_frame (feature m) < 0 →
  0 ≤ offset_frame (feature m) →
  ∃ sp : Matrix,
    spec ws = Tensor2 sp
    ∧ ∀ i j : nat, (j < shape1 feat)%nat →
        Z.of_nat i < offset_frame (feature m) →
        (Z.of_nat i < - onset_frame (feature m) → cell sp j i = silence_of self)
        ∧ (- onset_frame (feature m) ≤ Z.of_nat i
           < - onset_frame (feature m) + Z.of_nat (shape0 feat) →
           cell sp j i
           = cell feat (i - Z.to_nat (- onset_frame (feature m))) j).
Proof.
  intros Hidx Hm Hfeat Hrun Hneg Hoff.
  destruct (getitem_feature_tensor _ _ _ _ _ _ _ Hidx Hm Hfeat Hrun)
    as [Hspec _].
  exists (feature_tensor self m feat). split; [done|]. intros i j Hj Hi.
  pose proof (feature_slice_from_negative_onset self m feat Hneg Hoff) as Hrows.
  cbv zeta in Hrows.
  set (p := Z.to_nat (- onset_frame (feature m))) in *.
  set (c := Z.to_nat (Z.min (offset_frame (feature m))
                        (Z.of_nat (p + shape0 feat)))) in *.
  assert (Hlen : shape0 (feature_slice self m feat) = c).
  { rewrite Hrows. unfold shape0 in *. simpl.
    rewrite length_take_le; [done|].
    rewrite length_app, length_constant_rows. unfold c. lia. }
  destruct (cell_feature_tensor self m feat i j Hj) as [Hin _].
  split; intros Hi'.
  - rewrite Hin by (rewrite Hlen; unfold c, p; lia).
    rewrite Hrows, cell_take by (unfold c, p; lia).
    apply cell_constant_rows_app_l; [unfold p; lia|done].
  - rewrite Hin by (rewrite Hlen; unfold c, p; lia).
    rewrite Hrows, cell_take by (unfold c, p; lia).
    rewrite cell_constant_rows_app_r by (unfold p; lia).
    by destruct feat.
Qed.

(** Index 0 of the example (start = -3, end = 5): time frame 0 is silence
    and time frame 3 is source frame 0. *)
Lemma window_before_source_alignment_witness :
  ∃ sp : Matrix,
    spec (example.sample_a example.dataset (example.entry 0)) = Tensor2 sp
    ∧ ∀ i j : nat, (j < 2)%nat →
        Z.of_nat i < 5 →
        (Z.of_nat i < - -3 → cell sp j i = silence_of example.dataset)
        ∧ (- -3 ≤ Z.of_nat i < - -3 + Z.of_nat 8 →
           cell sp j i = cell example.frames_a (i - Z.to_nat (- -3)) j).
Proof.
  apply (window_before_source_alignment example.disk 0 example.dataset
           (set_datamapping example.dataset
              (<[0%nat := stored_after (example.entry 0)]> example.catalogue))
           (example.sample_a example.dataset (example.entry 0))
           (example.entry 0) example.frames_a).
  - unfold __len__. simpl. lia.
  - reflexivity.
  - vm_compute. reflexivity.
  - vm_compute. reflexivity.
  - simpl. lia.
  - simpl. lia.
Defined.

(** ** Shapes of the returned tensors *)

Lemma rectangular_transpose (t : Matrix) : rectangular (transpose t).
Proof.
  unfold rectangular, transpose. simpl.
  apply Forall_fmap, Forall_forall. intros j _. simpl.
  by rewrite length_fmap.
Qed.

Lemma rectangular_pad_rows (num_frames : Z) (v : R) (t : Matrix) :
  rectangular t → rectangular (pad_rows num_frames v t).
Proof.
  intros Ht. unfold pad_rows. destruct (_ <? _); [|done].
  unfold rectangular, constant_rows. simpl.
  apply Forall_app. split; [done|].
  apply Forall_replicate. by rewrite length_replicate.
Qed.

Lemma rectangular_map_rows (f : R → R) (t : Matrix) :
  rectangular t → rectangular (map_rows f t).
Proof.
  unfold rectangular, map_rows. simpl. intros Ht.
  apply Forall_fmap. eapply Forall_impl; [exact Ht|].
  intros r Hr. simpl. by rewrite length_fmap.
Qed.

Lemma shape_map_rows (f : R → R) (t : Matrix) :
  shape1 (map_rows f t) = shape1 t ∧ shape0 (map_rows f t) = shape0 t.
Proof. unfold map_rows, shape0. simpl. by rewrite length_fmap. Qed.

Lemma label_shape_kept_pad_rows (num_frames : Z) (t : Matrix) :
  label_shape_kept num_frames t (pad_rows num_frames 0%R t).
Proof.
  split_and!.
  - apply shape1_pad_rows.
  - apply shape0_pad_rows.
  - apply rectangular_pad_rows.
Qed.

(** X6: whenever a call returns for a recording of 2-D arrays, the five
    tensors are 2-D.  The feature tensor is rectangular, with the bins of the
    source array as its first dimension and [num_frames] time frames, or the
    length of the feature slice when that is more; each label tensor keeps
    the pitch dimension of its array and has the rows of the array, or
    [num_frames] rows when that is more, so it is never cut and has at least
    [num_frames] rows. *)
Theorem returned_tensor_shapes (fs : gmap string file) (idx : Z)
    (self self' : Dataset) (ws : WindowedSample) (k : nat) (m : DatasetItem)
    (feat t1 t2 t3 t4 : Matrix) :
  list_index (length (datamapping self)) idx = Ok k →
  datamapping self !! k = Some m →
  artifacts_are fs self m feat t1 t2 t3 t4 →
  __getitem__ fs idx self = (Ok ws, self') →
  ∃ sp o1 o2 o3 o4 : Matrix,
    ws = mkWindowedSample (Tensor2 sp) (Tensor2 o1) (Tensor2 o2) (Tensor2 o3)
           (Tensor2 o4)
    ∧ rectangular sp
    ∧ shape0 sp = shape1 feat
    ∧ Z.of_nat (shape1 sp)
      = Z.max (num_frames self) (Z.of_nat (shape0 (feature_slice self m feat)))
    ∧ label_shape_kept (num_frames self) t1 o1
    ∧ label_shape_kept (num_frames self) t2 o2
    ∧ label_shape_kept (num_frames self) t3 o3
    ∧ label_shape_kept (num_frames self) t4 o4.
Proof.
  intros Hidx Hm Hart Hrun.
  destruct (getitem_Ok_2d _ _ _ _ _ _ _ _ _ _ _ _ Hidx Hm Hart Hrun) as [-> _].
  destruct (shape_feature_tensor self m feat) as [Hbins Htime].
  eexists _, _, _, _, _. split; [reflexivity|].
  split; [apply rectangular_transpose|].
  do 2 (split; [done|]).
  split_and!; try apply label_shape_kept_pad_rows.
  destruct (label_shape_kept_pad_rows (num_frames self) t4) as (Hw & Hr & Hrect).
  destruct (shape_map_rows trunc (pad_rows (num_frames self) 0%R t4)) as [Hw' Hr'].
  split_and!.
  - by rewrite Hw'.
  - by rewrite Hr'.
  - intros Ht. by apply rectangular_map_rows, Hrect.
Qed.

(** Index 3 of the example asks for frames [0, 200) of the eight frames of
    "a": the tensors have 128 time frames and 128 label rows. *)
Lemma returned_tensor_shapes_witness :
  ∃ sp o1 o2 o3 o4 : Matrix,
    example.sample_a example.dataset (example.entry 3)
    = mkWindowedSample (Tensor2 sp) (Tensor2 o1) (Tensor2 o2) (Tensor2 o3)
        (Tensor2 o4)
    ∧ rectangular sp
    ∧ shape0 sp = shape1 example.frames_a
    ∧ Z.of_nat (shape1 sp)
      = Z.max (num_frames example.dataset)
          (Z.of_nat (shape0 (feature_slice example.dataset (example.entry 3)
                               example.frames_a)))
    ∧ label_shape_kept (num_frames example.dataset) (example.label_rows 1) o1
    ∧ label_shape_kept (num_frames example.dataset) (example.label_rows 11) o2
    ∧ label_shape_kept (num_frames example.dataset) (example.label_rows 21) o3
    ∧ label_shape_kept (num_frames example.dataset) (example.label_rows 31) o4.
Proof.
  apply (returned_tensor_shapes example.disk 3 example.dataset
           example.dataset _ 3%nat).
  - reflexivity.
  - reflexivity.
  - by apply example_artifacts_a.
  - vm_compute. reflexivity.
Defined.

(** ** The outcome of the constructor *)

Lemma load_labels_Raise (fs : gmap string file) (ld b : string)
    (channels : list string) (data : gmap string Tensor) (e : exn) :
  load_labels fs ld b channels data = Raise e →
  ∃ ch, ch ∈ channels ∧ load_json_tensor fs (label_path_of ld b ch) = Raise e.
Proof.
  revert data. induction channels as [|ch channels IH]; intros data; [done|].
  simpl. destruct (load_json_tensor fs _) as [t|e'] eqn:Ht.
  - rewrite result_bind_Ok. intros H. destruct (IH _ H) as (ch' & ? & ?).
    exists ch'. split; [by right|done].
  - intros [= <-]. exists ch. split; [by left|done].
Qed.

(** The four channels load exactly when each of the four files loads. *)
Lemma load_labels_Ok_iff (fs : gmap string file) (ld b : string) :
  (∃ data, load_labels fs ld b LABELS ∅ = Ok data)
  ↔ ∀ ch, ch ∈ LABELS →
      ∃ t, load_json_tensor fs (label_path_of ld b ch) = Ok t.
Proof.
  rewrite load_labels_LABELS. unfold LABELS. split.
  - intros [data Hd] ch Hch.
    destruct (load_json_tensor fs (label_path_of ld b "onset")) as [t1|]
      eqn:H1; [|done].
    destruct (load_json_tensor fs (label_path_of ld b "offset")) as [t2|]
      eqn:H2; [|done].
    destruct (load_json_tensor fs (label_path_of ld b "mpe")) as [t3|]
      eqn:H3; [|done].
    destruct (load_json_tensor fs (label_path_of ld b "velocity")) as [t4|]
      eqn:H4; [|done].
    repeat (apply elem_of_cons in Hch as [->|Hch]; [by eexists|]).
    by apply elem_of_nil in Hch.
  - intros Hall.
    destruct (Hall "onset") as [t1 H1]; [set_solver|].
    destruct (Hall "offset") as [t2 H2]; [set_solver|].
    destruct (Hall "mpe") as [t3 H3]; [set_solver|].
    destruct (Hall "velocity") as [t4 H4]; [set_solver|].
    rewrite H1, H2, H3, H4. by eexists.
Qed.

Lemma recording_on_disk_loads (fs : gmap string file) (fd ld b : string) :
  recording_on_disk fs fd ld b
  ↔ (∃ t, torch_load fs (feature_path_of fd b) = Ok t)
    ∧ ∃ data, load_labels fs ld b LABELS ∅ = Ok data.
Proof. unfold recording_on_disk. by rewrite load_labels_Ok_iff. Qed.

(** The loop of the constructor gets through exactly when every entry names
    a recording that is cached already or is on the disk; when it stops, it
    stops on the exception of the read of an artifact of an entry. *)
Lemma populate_cache_outcome (fs : gmap string file) (fd ld : string)
    (ms : list DatasetItem) (features : gmap string Tensor)
    (labels : gmap string (gmap string Tensor)) (log : list io_event) :
  ((∃ r log', populate_cache fs fd ld ms features labels log = (Ok r, log'))
   ↔ ∀ m, m ∈ ms →
       is_Some (features !! basename m)
       ∨ recording_on_disk fs fd ld (basename m))
  ∧ ∀ e log', populate_cache fs fd ld ms features labels log = (Raise e, log') →
      ∃ m, m ∈ ms ∧ recording_read_raises fs fd ld (basename m) e.
Proof.
  revert features labels log. induction ms as [|m ms IH];
    intros features labels log.
  { cbn [populate_cache]. rewrite ret_run. split; [|by intros e log'].
    split.
    - intros _ m Hm. by apply elem_of_nil in Hm.
    - intros _. by eexists _, _. }
  cbn [populate_cache].
  destruct (decide (is_Some (features !! basename m))) as [Hin|Hnin].
  { destruct (IH features labels log) as [Hiff Herr]. split.
    - rewrite Hiff. split.
      + intros Hall m' [->|Hm']%elem_of_cons; [by left|by apply Hall].
      + intros Hall m' Hm'. apply Hall. by right.
    - intros e log' He. destruct (Herr _ _ He) as (m' & ? & ?).
      exists m'. split; [by right|done]. }
  unfold log_event. rewrite modify_bind_run, lift_bind_run.
  destruct (torch_load fs (feature_path_of fd (basename m))) as [t|e] eqn:Ht.
  2:{ split.
      - split; [by intros (r & log' & ?)|]. intros Hall.
        destruct (Hall m) as [?|Hdisk]; [by left|done|].
        apply recording_on_disk_loads in Hdisk as [[t' Ht'] _]. congruence.
      - intros e' log' [= <- <-]. exists m. split; [by left|by left]. }
  rewrite bind_run.
  destruct (load_label_data_run fs ld (basename m) LABELS ∅
              (log ++ [LoadFeature (basename m)
                         (feature_path_of fd (basename m))]))
    as (n & Hdata & _).
  rewrite Hdata.
  destruct (load_labels fs ld (basename m) LABELS ∅) as [data|e] eqn:Hl.
  2:{ split.
      - split; [by intros (r & log' & ?)|]. intros Hall.
        destruct (Hall m) as [?|Hdisk]; [by left|done|].
        apply recording_on_disk_loads in Hdisk as [_ [d Hd]]. congruence.
      - intros e' log' [= <- <-]. exists m. split; [by left|]. right.
        by eapply load_labels_Raise. }
  destruct (IH (<[basename m := t]> features) (<[basename m := data]> labels)
              (log ++ [LoadFeature (basename m)
                         (feature_path_of fd (basename m))]
               ++ label_events ld (basename m) (take n LABELS)))
    as [Hiff Herr].
  rewrite <- app_assoc. split.
  2:{ intros e log' He. destruct (Herr _ _ He) as (m' & ? & ?).
      exists m'. split; [by right|done]. }
  rewrite Hiff. split.
  - intros Hall m' [->|Hm']%elem_of_cons.
    + right. apply recording_on_disk_loads. eauto.
    + destruct (Hall m' Hm') as [Hc|?]; [|by right].
      destruct (decide (basename m = basename m')) as [Heq|Hne].
      * right. rewrite <- Heq. apply recording_on_disk_loads. eauto.
      * left. by rewrite lookup_insert_ne in Hc.
  - intros Hall m' Hm'.
    destruct (Hall m') as [Hc|?]; [by right| |by right].
    left. destruct (decide (basename m = basename m')) as [<-|Hne];
      [by rewrite lookup_insert_eq|by rewrite lookup_insert_ne].
Qed.

(** X7: the constructor returns an object exactly when [mapping.json]
    validates as a catalogue, [config.json] as a configuration, and the five
    artifact files of every recording the catalogue names load from
    [features/] and [labels/]; the object then holds that catalogue in its
    order, that configuration, the two directories and [num_frames], so
    [__len__] is the number of entries of the catalogue.  Otherwise the
    constructor raises the exception of the read that failed: that of
    [mapping.json], of [config.json], or of an artifact of a recording the
    catalogue names. *)
Theorem constructor_outcome (fs : gmap string file) (dir : string) (nf : Z) :
  ((∃ self, fst (__init__ fs dir nf []) = Ok self)
   ↔ ∃ dm cfg,
       read_file json_mapping fs (path_join dir "mapping.json") = Ok dm
       ∧ read_file json_config fs (path_join dir "config.json") = Ok cfg
       ∧ ∀ m, m ∈ dm →
           recording_on_disk fs (path_join dir "features")
             (path_join dir "labels") (basename m))
  ∧ (∀ self, fst (__init__ fs dir nf []) = Ok self →
       read_file json_mapping fs (path_join dir "mapping.json")
       = Ok (datamapping self)
       ∧ read_file json_config fs (path_join dir "config.json")
         = Ok (config self)
       ∧ features_dir self = path_join dir "features"
       ∧ labels_dir self = path_join dir "labels"
       ∧ num_frames self = nf
       ∧ __len__ self = Z.of_nat (length (datamapping self)))
  ∧ ∀ e, fst (__init__ fs dir nf []) = Raise e →
      read_file json_mapping fs (path_join dir "mapping.json") = Raise e
      ∨ read_file json_config fs (path_join dir "config.json") = Raise e
      ∨ ∃ dm m,
          read_file json_mapping fs (path_join dir "mapping.json") = Ok dm
          ∧ m ∈ dm
          ∧ recording_read_raises fs (path_join dir "features")
              (path_join dir "labels") (basename m) e.
Proof.
  rewrite init_run. cbv zeta.
  destruct (read_file json_mapping fs _) as [dm|e0];
    [|split_and!; [split; [by intros [? ?]|by intros (? & ? & ? & _)]
                  |done|intros e [= <-]; auto]].
  destruct (read_file json_config fs _) as [cfg|e0];
    [|split_and!; [split; [by intros [? ?]|by intros (? & ? & _ & ? & _)]
                  |done|intros e [= <-]; auto]].
  destruct (populate_cache_outcome fs (path_join dir "features")
              (path_join dir "labels") dm ∅ ∅
              [ReadText (path_join dir "mapping.json");
               ReadText (path_join dir "config.json")]) as [Hiff Herr].
  destruct (populate_cache _ _ _ _ _ _ _) as [[[features' labels']|e] log']
    eqn:Hpop; simpl.
  - split_and!; [|by intros self [= <-]|done].
    split; [|by eauto]. intros _. exists dm, cfg. split_and!; [done..|].
    intros m Hm.
    destruct (proj1 Hiff ltac:(by eexists _, _) m Hm) as [Hc|?]; [|done].
    rewrite lookup_empty in Hc. by apply is_Some_None in Hc.
  - split_and!; [|done|].
    + split; [by intros [? ?]|]. intros (dm' & cfg' & [= <-] & _ & Hall).
      destruct (proj2 Hiff) as (r & log'' & ?); [|done].
      intros m Hm. right. by apply Hall.
    + intros e' [= <-]. destruct (Herr _ _ eq_refl) as (m & ? & ?).
      right. right. by exists dm, m.
Qed.

Lemma example_recordings_on_disk (m : DatasetItem) :
  m ∈ example.catalogue →
  recording_on_disk example.disk "data/features" "data/labels" (basename m).
Proof.
  intros Hm. unfold example.catalogue in Hm.
  assert (Hb : basename m = "a" ∨ basename m = "b").
  { repeat (apply elem_of_cons in Hm as [->|Hm]; [simpl; auto|]).
    by apply elem_of_nil in Hm. }
  unfold recording_on_disk, LABELS.
  destruct Hb as [-> | ->]; (split; [by eexists|]);
    intros ch Hch; repeat (apply elem_of_cons in Hch as [->|Hch]; [by eexists|]);
    by apply elem_of_nil in Hch.
Defined.

Lemma constructor_outcome_witness :
  ∃ self, fst (__init__ example.disk "data" 128 []) = Ok self.
Proof.
  apply (proj2 (proj1 (constructor_outcome example.disk "data" 128))).
  exists example.catalogue, example.cfg.
  split; [reflexivity|]. split; [reflexivity|].
  exact example_recordings_on_disk.
Defined.

(** ** What the cache holds *)

Lemma label_dict_keys (t1 t2 t3 t4 : Tensor) (ch : string) :
  is_Some (label_dict t1 t2 t3 t4 !! ch) ↔ ch ∈ LABELS.
Proof.
  unfold label_dict, LABELS.
  destruct (decide (ch = "velocity")) as [->|N4];
    [rewrite lookup_insert_eq; split; [set_solver|eauto]|].
  rewrite lookup_insert_ne by done.
  destruct (decide (ch = "mpe")) as [->|N3];
    [rewrite lookup_insert_eq; split; [set_solver|eauto]|].
  rewrite lookup_insert_ne by done.
  destruct (decide (ch = "offset")) as [->|N2];
    [rewrite lookup_insert_eq; split; [set_solver|eauto]|].
  rewrite lookup_insert_ne by done.
  destruct (decide (ch = "onset")) as [->|N1];
    [rewrite lookup_insert_eq; split; [set_solver|eauto]|].
  rewrite lookup_insert_ne, lookup_empty by done.
  split; [by intros ?%is_Some_None|]. set_solver.
Qed.

Lemma load_labels_keys (fs : gmap string file) (ld b : string)
    (data : gmap string Tensor) (ch : string) :
  load_labels fs ld b LABELS ∅ = Ok data →
  is_Some (data !! ch) ↔ ch ∈ LABELS.
Proof.
  rewrite load_labels_LABELS.
  destruct (load_json_tensor fs (label_path_of ld b "onset")) as [t1|]; [|done].
  destruct (load_json_tensor fs (label_path_of ld b "offset")) as [t2|]; [|done].
  destruct (load_json_tensor fs (label_path_of ld b "mpe")) as [t3|]; [|done].
  destruct (load_json_tensor fs (label_path_of ld b "velocity")) as [t4|];
    [|done].
  intros [= <-]. apply label_dict_keys.
Qed.

Lemma count_any_feature_label_events (ld b : string) (channels : list string) :
  count_events is_any_feature_load (label_events ld b channels) = 0%nat.
Proof. induction channels; simpl; done. Qed.

Lemma populate_cache_shaped (fs : gmap string file) (fd ld : string)
    (ms : list DatasetItem) (features features' : gmap string Tensor)
    (labels labels' : gmap string (gmap string Tensor))
    (log log' : list io_event) :
  cache_shaped features labels log →
  populate_cache fs fd ld ms features labels log = (Ok (features', labels'), log') →
  cache_shaped features' labels' log'.
Proof.
  revert features labels log. induction ms as [|m ms IH];
    intros features labels log Hinv Hrun.
  - cbn [populate_cache] in Hrun. rewrite ret_run in Hrun. by simplify_eq.
  - cbn [populate_cache] in Hrun.
    destruct (decide (is_Some (features !! basename m))) as [Hin|Hnin];
      [by eapply IH|].
    unfold log_event in Hrun. rewrite modify_bind_run, lift_bind_run in Hrun.
    destruct (torch_load fs (feature_path_of fd (basename m))) as [t|e];
      [|done].
    rewrite bind_run in Hrun.
    destruct (load_label_data_run fs ld (basename m) LABELS ∅
                (log ++ [LoadFeature (basename m)
                           (feature_path_of fd (basename m))]))
      as (n & Hdata & _).
    rewrite Hdata in Hrun.
    destruct (load_labels fs ld (basename m) LABELS ∅) as [data|e] eqn:Hl;
      [|done].
    eapply IH; [|exact Hrun].
    destruct Hinv as (Hkeys & Hbundle & Hsize & Hcount).
    assert (Hfresh : features !! basename m = None)
      by (by apply eq_None_not_Some).
    assert (Hfresh' : labels !! basename m = None).
    { apply eq_None_not_Some. by rewrite Hkeys. }
    split_and!.
    + intros b. destruct (decide (basename m = b)) as [<-|Hne].
      * rewrite !lookup_insert_eq. split; eauto.
      * by rewrite !lookup_insert_ne.
    + intros b data' Hb ch. destruct (decide (basename m = b)) as [<-|Hne].
      * rewrite lookup_insert_eq in Hb. injection Hb as <-.
        by eapply load_labels_keys.
      * rewrite lookup_insert_ne in Hb by done. by eapply Hbundle.
    + rewrite !map_size_insert_None by done. by rewrite Hsize.
    + rewrite !count_events_app, count_any_feature_label_events. simpl.
      rewrite map_size_insert_None by done. lia.
Qed.

(** X8: in a constructed object the cache holds one feature array and one
    bundle of label arrays for each recording the catalogue names and for no
    other, every bundle has exactly the four channels, and the constructor
    issued as many feature loads as the cache has recordings, however many
    entries the catalogue has. *)
Theorem cache_holds_the_named_recordings (fs : gmap string file)
    (dir : string) (nf : Z) (self : Dataset) (log : list io_event) :
  __init__ fs dir nf [] = (Ok self, log) →
  (∀ b, is_Some (features self !! b) ↔ b ∈ basename <$> datamapping self)
  ∧ (∀ b, is_Some (labels self !! b) ↔ b ∈ basename <$> datamapping self)
  ∧ (∀ b data, labels self !! b = Some data →
       ∀ ch, is_Some (data !! ch) ↔ ch ∈ LABELS)
  ∧ size (labels self) = size (features self)
  ∧ count_events is_any_feature_load log = size (features self).
Proof.
  rewrite init_run. cbv zeta. intros Hrun.
  destruct (read_file json_mapping fs _) as [dm|e]; [|done].
  destruct (read_file json_config fs _) as [cfg|e]; [|done].
  destruct (populate_cache fs (path_join dir "features")
              (path_join dir "labels") dm ∅ ∅ _)
    as [[[features' labels']|e] log'] eqn:Hpop; [|done].
  injection Hrun as <- <-. simpl.
  pose proof Hpop as Hloads.
  apply populate_cache_loads in Hloads as [_ Hok];
    [|apply (loads_match_init (path_join dir "mapping.json")
               (path_join dir "config.json"))].
  destruct (Hok _ _ eq_refl) as [_ Hdom].
  apply populate_cache_shaped in Hpop as (Hkeys & Hbundle & Hsize & Hcount).
  - assert (Hf : ∀ b, is_Some (features' !! b) ↔ b ∈ basename <$> dm).
    { intros b. rewrite Hdom, lookup_empty. split; [|auto].
      by intros [?%is_Some_None|?]. }
    split_and!; try done. intros b. by rewrite Hkeys.
  - unfold cache_shaped. split_and!.
    + intros b. rewrite !lookup_empty. split; by intros ?%is_Some_None.
    + intros b data Hb. by rewrite lookup_empty in Hb.
    + done.
    + by rewrite map_size_empty.
Qed.

(** The example: five entries, two cached recordings, two feature loads. *)
Lemma cache_holds_the_named_recordings_witness :
  length (datamapping example.dataset) = 5%nat
  ∧ size (features example.dataset) = 2%nat
  ∧ count_events is_any_feature_load (snd (__init__ example.disk "data" 128 []))
    = size (features example.dataset).
Proof.
  split; [reflexivity|]. split; [vm_compute; reflexivity|].
  apply (cache_holds_the_named_recordings example.disk "data" 128
           example.dataset (snd (__init__ example.disk "data" 128 []))).
  vm_compute. reflexivity.
Defined.

(** ** The object over a sequence of calls *)

Lemma only_negative_onsets_reset_refl (s : Dataset) :
  only_negative_onsets_reset s s.
Proof. unfold only_negative_onsets_reset. split_and!; try done. eauto 10. Qed.

Lemma only_negative_onsets_reset_trans (s0 s1 s2 : Dataset) :
  only_negative_onsets_reset s0 s1 →
  only_negative_onsets_reset s1 s2 →
  only_negative_onsets_reset s0 s2.
Proof.
  intros (? & ? & ? & ? & ? & ? & ? & H01) (? & ? & ? & ? & ? & ? & ? & H12).
  unfold only_negative_onsets_reset. split_and!; try congruence.
  intros k m Hm.
  destruct (H01 k m Hm) as (m1 & Hm1 & Hb1 & Hl1 & Ho1).
  destruct (H12 k m1 Hm1) as (m2 & Hm2 & Hb2 & Hl2 & Ho2).
  exists m2. split_and!; [done|congruence|congruence|].
  destruct Ho1 as [->|[? ?]]; [done|].
  destruct Ho2 as [->|[? ?]]; [auto|lia].
Qed.

Lemma getitem_only_negative_onsets_reset (fs : gmap string file) (idx : Z)
    (self : Dataset) :
  only_negative_onsets_reset self (snd (__getitem__ fs idx self)).
Proof.
  destruct (__getitem__ fs idx self) as [r s] eqn:Hrun. simpl.
  destruct (getitem_state _ _ _ _ _ Hrun)
    as [->|(k & m & Hk & Hm & ->)];
    [apply only_negative_onsets_reset_refl|].
  unfold only_negative_onsets_reset, __len__. simpl.
  split_and!; try done.
  - by rewrite length_insert.
  - intros k' m' Hm'. destruct (decide (k = k')) as [<-|Hne].
    + rewrite Hm in Hm'. injection Hm' as <-.
      exists (stored_after m).
      rewrite list_lookup_insert_eq by (by eapply lookup_lt_Some).
      destruct (stored_after_fields m) as (? & ? & _ & ?).
      by split_and!.
    + exists m'. rewrite list_lookup_insert_ne by done. by split_and!; auto.
Qed.

Lemma calls_only_reset_negative_onsets_aux (fs : gmap string file)
    (idxs : list Z) (self : Dataset) :
  only_negative_onsets_reset self (after_calls fs idxs self).
Proof.
  unfold after_calls. revert self.
  induction idxs as [|idx idxs IH]; intros self; simpl.
  - apply only_negative_onsets_reset_refl.
  - eapply only_negative_onsets_reset_trans; [|apply IH].
    apply getitem_only_negative_onsets_reset.
Qed.

(** X9: after any sequence of calls of [__getitem__], at any indices and
    whether they return or raise, the object has its configuration, its
    cache, its directories, [num_frames] and its length, and every catalogue
    entry has its recording name and its label span; an entry is what it
    was, unless its feature start was negative, and then its feature start
    is 0. *)
Theorem calls_only_reset_negative_onsets (fs : gmap string file)
    (idxs : list Z) (self : Dataset) :
  only_negative_onsets_reset self (after_calls fs idxs self).
Proof. apply calls_only_reset_negative_onsets_aux. Qed.

(** ** The outcome of [collate_fn] *)

Lemma torch_stack_Ok_same_shape (ts : list Tensor) (x : Stacked) (u v : Tensor) :
  torch_stack ts = Ok x → u ∈ ts → v ∈ ts → shape u = shape v.
Proof.
  intros Hx Hu Hv. destruct (decide (shape u = shape v)) as [|Hne]; [done|].
  by rewrite (torch_stack_mismatch ts u v Hu Hv Hne) in Hx.
Qed.

Lemma collate_fn_Ok_uniform (batch : list WindowedSample) (b : BatchedSample) :
  collate_fn batch = Ok b → batch ≠ [] ∧ uniform batch.
Proof.
  destruct batch as [|s0 batch]; [done|]. intros Hb. split; [done|].
  unfold collate_fn in Hb.
  destruct (torch_stack (spec <$> s0 :: batch)) as [x1|] eqn:S1; [|done].
  destruct (torch_stack (onset <$> s0 :: batch)) as [x2|] eqn:S2; [|done].
  destruct (torch_stack (offset <$> s0 :: batch)) as [x3|] eqn:S3; [|done].
  destruct (torch_stack (mpe <$> s0 :: batch)) as [x4|] eqn:S4; [|done].
  destruct (torch_stack (velocity <$> s0 :: batch)) as [x5|] eqn:S5; [|done].
  intros s s' Hs Hs'. unfold sample_shapes.
  rewrite (torch_stack_Ok_same_shape _ _ (spec s) (spec s') S1),
    (torch_stack_Ok_same_shape _ _ (onset s) (onset s') S2),
    (torch_stack_Ok_same_shape _ _ (offset s) (offset s') S3),
    (torch_stack_Ok_same_shape _ _ (mpe s) (mpe s') S4),
    (torch_stack_Ok_same_shape _ _ (velocity s) (velocity s') S5);
    try done; by apply list_elem_of_fmap_2.
Qed.

Lemma collate_fn_Raise (batch : list WindowedSample) (e : exn) :
  collate_fn batch = Raise e →
  (e = ValueError ∧ batch = []) ∨ (e = RuntimeError ∧ batch ≠ []).
Proof.
  destruct batch as [|s0 batch]; [intros [= <-]; by left|].
  intros He. right. split; [|done]. unfold collate_fn in He.
  destruct (torch_stack (spec <$> s0 :: batch)) as [x1|e1] eqn:S1;
    [|injection He as <-; by eapply torch_stack_Raise].
  destruct (torch_stack (onset <$> s0 :: batch)) as [x2|e2] eqn:S2;
    [|injection He as <-; by eapply torch_stack_Raise].
  destruct (torch_stack (offset <$> s0 :: batch)) as [x3|e3] eqn:S3;
    [|injection He as <-; by eapply torch_stack_Raise].
  destruct (torch_stack (mpe <$> s0 :: batch)) as [x4|e4] eqn:S4;
    [|injection He as <-; by eapply torch_stack_Raise].
  destruct (torch_stack (velocity <$> s0 :: batch)) as [x5|e5] eqn:S5;
    [done|injection He as <-; by eapply torch_stack_Raise].
Qed.

(** X10: [collate_fn] returns exactly on the non-empty batches whose samples
    share the shape of each of the five tensors; it raises ValueError exactly
    on the empty batch and torch's RuntimeError exactly on the non-empty
    batches in which the shapes differ, and it raises nothing else. *)
Theorem collate_fn_outcome (batch : list WindowedSample) :
  ((∃ b, collate_fn batch = Ok b) ↔ batch ≠ [] ∧ uniform batch)
  ∧ (collate_fn batch = Raise ValueError ↔ batch = [])
  ∧ (collate_fn batch = Raise RuntimeError ↔ batch ≠ [] ∧ ¬ uniform batch)
  ∧ ∀ e, collate_fn batch = Raise e → e = ValueError ∨ e = RuntimeError.
Proof.
  split_and!.
  - split; [intros [b Hb]; by eapply collate_fn_Ok_uniform|].
    intros [Hne Huni]. destruct batch as [|s0 batch]; [done|].
    rewrite collate_fn_of_uniform by done. by eexists.
  - split; [|by intros ->].
    intros He. by destruct (collate_fn_Raise _ _ He) as [[_ ?]|[? _]].
  - split.
    + intros He. destruct (collate_fn_Raise _ _ He) as [[? _]|[_ Hne]]; [done|].
      split; [done|]. intros Huni. destruct batch as [|s0 batch]; [done|].
      by rewrite collate_fn_of_uniform in He.
    + intros [Hne Hnu]. destruct (collate_fn batch) as [b|e] eqn:Hb.
      * by destruct (collate_fn_Ok_uniform _ _ Hb).
      * destruct (collate_fn_Raise _ _ Hb) as [[_ ?]|[-> _]]; done.
  - intros e He. destruct (collate_fn_Raise _ _ He) as [[? _]|[? _]]; auto.
Qed.

(** ** From [__getitem__] to [collate_fn] *)

Lemma window_fits_shapes (fs : gmap string file) (nf : Z) (bins pitches : nat)
    (ws : WindowedSample) :
  window_fits fs nf bins pitches ws →
  sample_shapes ws
  = [[bins; Z.to_nat nf]; [Z.to_nat nf; pitches]; [Z.to_nat nf; pitches];
     [Z.to_nat nf; pitches]; [Z.to_nat nf; pitches]].
Proof.
  intros (idx & s & s' & k & m & feat & t1 & t2 & t3 & t4 & Hnf & Hrun & Hk
          & Hm & Hart & Hbins & Hslice & Hlab).
  destruct (getitem_Ok_2d _ _ _ _ _ _ _ _ _ _ _ _ Hk Hm Hart Hrun) as [-> _].
  destruct (shape_feature_tensor s m feat) as [Hb Ht].
  unfold feature_tensor in Hb, Ht.
  assert (Hpad : ∀ t, t ∈ [t1; t2; t3; t4] →
            shape0 (pad_rows (num_frames s) 0%R t) = Z.to_nat nf
            ∧ shape1 (pad_rows (num_frames s) 0%R t) = pitches).
  { intros t Ht'. destruct (Hlab t Ht') as [Hw Hr].
    rewrite shape1_pad_rows, Hw. split; [|done].
    pose proof (shape0_pad_rows (num_frames s) 0%R t). lia. }
  destruct (shape_map_rows trunc (pad_rows (num_frames s) 0%R t4)) as [Hw Hr].
  unfold sample_shapes, windowed, float, long.
  cbn [spec onset offset mpe velocity shape map_cells].
  rewrite Hw, Hr, Hb, Hbins.
  destruct (Hpad t1) as [-> ->]; [set_solver|].
  destruct (Hpad t2) as [-> ->]; [set_solver|].
  destruct (Hpad t3) as [-> ->]; [set_solver|].
  destruct (Hpad t4) as [-> ->]; [set_solver|].
  repeat f_equal. lia.
Qed.

(** X11: a non-empty batch of samples returned by [__getitem__] for
    recordings of 2-D arrays collates when the recordings share their number
    of feature bins and of pitches and no feature slice and no label array is
    longer than [num_frames]; the batched tensors hold the samples' tensors
    in the order of the batch, the batched feature tensor has the shape
    [N, bins, num_frames] and the batched label tensors the shape
    [N, num_frames, pitches]. *)
Theorem fitting_windows_collate (fs : gmap string file) (nf : Z)
    (bins pitches : nat) (batch : list WindowedSample) :
  batch ≠ [] →
  (∀ ws, ws ∈ batch → window_fits fs nf bins pitches ws) →
  ∃ b : BatchedSample,
    collate_fn batch = Ok b
    ∧ items (specs b) = spec <$> batch
    ∧ items (onsets b) = onset <$> batch
    ∧ items (offsets b) = offset <$> batch
    ∧ items (mpes b) = mpe <$> batch
    ∧ items (velocities b) = velocity <$> batch
    ∧ stacked_shape (specs b) = [length batch; bins; Z.to_nat nf]
    ∧ stacked_shape (onsets b) = [length batch; Z.to_nat nf; pitches]
    ∧ stacked_shape (offsets b) = [length batch; Z.to_nat nf; pitches]
    ∧ stacked_shape (mpes b) = [length batch; Z.to_nat nf; pitches]
    ∧ stacked_shape (velocities b) = [length batch; Z.to_nat nf; pitches].
Proof.
  intros Hne Hfit. destruct batch as [|s0 batch]; [done|].
  assert (Huni : uniform (s0 :: batch)).
  { intros s s' Hs Hs'.
    by rewrite (window_fits_shapes _ _ _ _ _ (Hfit s Hs)),
      (window_fits_shapes _ _ _ _ _ (Hfit s' Hs')). }
  pose proof (window_fits_shapes _ _ _ _ _ (Hfit s0 ltac:(by left))) as Hs0.
  rewrite (collate_fn_of_uniform _ _ Huni). eexists. split; [done|].
  unfold stacked_shape.
  cbn [specs onsets offsets mpes velocities items item_shape].
  rewrite !length_fmap. unfold sample_shapes in Hs0.
  injection Hs0 as -> -> -> -> ->. by split_and!.
Qed.

Lemma example_window_fits (k : nat) :
  k = 1%nat ∨ k = 4%nat →
  window_fits example.disk 128 2 2
    (example.sample_b example.dataset (example.entry k)).
Proof.
  intros Hk.
  exists (Z.of_nat k), example.dataset,
    (set_datamapping example.dataset
       (<[k := stored_after (example.entry k)]> example.catalogue)),
    k, (example.entry k), example.frames_b, (example.label_rows 41),
    (example.label_rows 51), (example.label_rows 61), (example.label_rows 71).
  destruct Hk as [-> | ->];
    (split_and!; [reflexivity|by vm_compute|reflexivity|reflexivity
                 |by apply example_artifacts_b|reflexivity|by vm_compute|]);
    intros t Ht; repeat (apply elem_of_cons in Ht as [->|Ht]; [by vm_compute|]);
    by apply elem_of_nil in Ht.
Defined.

Lemma fitting_windows_collate_witness :
  ∃ b : BatchedSample,
    collate_fn example.uniform_batch = Ok b
    ∧ items (specs b) = spec <$> example.uniform_batch
    ∧ items (onsets b) = onset <$> example.uniform_batch
    ∧ items (offsets b) = offset <$> example.uniform_batch
    ∧ items (mpes b) = mpe <$> example.uniform_batch
    ∧ items (velocities b) = velocity <$> example.uniform_batch
    ∧ stacked_shape (specs b)
      = [length example.uniform_batch; 2%nat; Z.to_nat 128]
    ∧ stacked_shape (onsets b)
      = [length example.uniform_batch; Z.to_nat 128; 2%nat]
    ∧ stacked_shape (offsets b)
      = [length example.uniform_batch; Z.to_nat 128; 2%nat]
    ∧ stacked_shape (mpes b)
      = [length example.uniform_batch; Z.to_nat 128; 2%nat]
    ∧ stacked_shape (velocities b)
      = [length example.uniform_batch; Z.to_nat 128; 2%nat].
Proof.
  apply (fitting_windows_collate example.disk 128 2 2 example.uniform_batch).
  - discriminate.
  - intros ws Hws. unfold example.uniform_batch in Hws.
    repeat (apply elem_of_cons in Hws as [->|Hws];
            [apply example_window_fits; auto|]).
    by apply elem_of_nil in Hws.
Defined.

(** ** The paths of the artifacts *)

Lemma append_empty (x : string) : "" +:+ x = x.
Proof. reflexivity. Qed.

Lemma append_String (c : ascii) (a x : string) :
  String c a +:+ x = String c (a +:+ x).
Proof. reflexivity. Qed.

Lemma prefix_empty (x : string) : String.prefix "" x = true.
Proof. by destruct x. Qed.

Lemma prefix_app (a x : string) : String.prefix a (a +:+ x) = true.
Proof.
  induction a as [|c a IH]; [apply prefix_empty|].
  rewrite append_String. cbn [String.prefix].
  destruct (ascii_dec c c); [exact IH|congruence].
Qed.

Lemma prefix_slash_app (b : string) (c : ascii) (ext : string) :
  c ≠ "/"%char →
  String.prefix "/" (b +:+ String c ext) = String.prefix "/" b.
Proof.
  intros Hc. destruct b as [|c' b].
  - rewrite append_empty. cbn [String.prefix].
    destruct (ascii_dec "/" c); [congruence|done].
  - rewrite append_String. cbn [String.prefix]. by rewrite !prefix_empty.
Qed.

Lemma path_join_relative (d x : string) :
  String.prefix "/" x = false →
  ∃ sep, (sep = "" ∨ sep = "/") ∧ path_join d x = d +:+ sep +:+ x.
Proof.
  intros Hx. unfold path_join. rewrite Hx.
  destruct (bool_decide (d = "") || ends_with_slash d);
    [exists ""|exists "/"]; auto.
Qed.

Lemma path_join_absolute (d x : string) :
  String.prefix "/" x = true → path_join d x = x.
Proof. intros Hx. unfold path_join. by rewrite Hx. Qed.

Lemma list_ascii_of_string_app (a b : string) :
  list_ascii_of_string (a +:+ b)
  = list_ascii_of_string a ++ list_ascii_of_string b.
Proof.
  induction a as [|c a IH]; [done|].
  rewrite append_String. cbn [list_ascii_of_string]. by rewrite IH.
Qed.

Lemma string_app_inv_tail (a b t : string) : a +:+ t = b +:+ t → a = b.
Proof.
  intros H. apply (f_equal list_ascii_of_string) in H.
  rewrite !list_ascii_of_string_app in H. apply app_inv_tail in H.
  apply (f_equal string_of_list_ascii) in H.
  by rewrite !string_of_list_ascii_of_string in H.
Qed.

Lemma path_join_relative_inj (d x y : string) :
  String.prefix "/" x = false → String.prefix "/" y = false →
  path_join d x = path_join d y → x = y.
Proof.
  intros Hx Hy. unfold path_join. rewrite Hx, Hy.
  destruct (bool_decide (d = "") || ends_with_slash d); intros H.
  - by apply (inj (String.append d)) in H.
  - apply (inj (String.append d)) in H. by apply (inj (String.append "/")) in H.
Qed.

(** X12: the path strings the constructor and [__getitem__] hand to the
    readers.  For a recording name that does not start with "/" the path
    string of the feature file begins with the string of the features
    directory and that of a label file with the string of the labels
    directory, and two such names that differ give path strings that differ,
    for the feature file and for the file of a channel.  For a name that
    starts with "/" [os.path.join] drops the directory: the path strings are
    the name followed by [.pt] and by [.channel.json].  Paths are compared as
    strings: neither [..] nor [./] is resolved. *)
Theorem artifact_paths (features_dir labels_dir b ch : string) :
  (String.prefix "/" b = false →
   String.prefix features_dir (feature_path_of features_dir b) = true
   ∧ String.prefix labels_dir (label_path_of labels_dir b ch) = true
   ∧ ∀ b', String.prefix "/" b' = false →
       (feature_path_of features_dir b = feature_path_of features_dir b' →
        b = b')
       ∧ (label_path_of labels_dir b ch = label_path_of labels_dir b' ch →
          b = b'))
  ∧ (String.prefix "/" b = true →
     feature_path_of features_dir b = b +:+ ".pt"
     ∧ label_path_of labels_dir b ch = b +:+ "." +:+ ch +:+ ".json").
Proof.
  unfold feature_path_of, label_path_of.
  assert (Hpt : ∀ x, String.prefix "/" (x +:+ ".pt") = String.prefix "/" x)
    by (intros x; by apply prefix_slash_app).
  assert (Hjs : ∀ x, String.prefix "/" (x +:+ "." +:+ ch +:+ ".json")
                     = String.prefix "/" x)
    by (intros x; by apply prefix_slash_app).
  split.
  - intros Hb. split_and!.
    + destruct (path_join_relative features_dir (b +:+ ".pt"))
        as (sep & _ & ->); [by rewrite Hpt|]. apply prefix_app.
    + destruct (path_join_relative labels_dir (b +:+ "." +:+ ch +:+ ".json"))
        as (sep & _ & ->); [by rewrite Hjs|]. apply prefix_app.
    + intros b' Hb'. split; intros H.
      * apply path_join_relative_inj in H; [|by rewrite Hpt..].
        by apply string_app_inv_tail in H.
      * apply path_join_relative_inj in H; [|by rewrite Hjs..].
        by apply string_app_inv_tail in H.
  - intros Hb. split; apply path_join_absolute; [by rewrite Hpt|by rewrite Hjs].
Qed.

(** The name "a" under "data/features", and the name "/tmp/a". *)
Lemma artifact_paths_witness :
  String.prefix "data/features" (feature_path_of "data/features" "a") = true
  ∧ feature_path_of "data/features" "/tmp/a" = "/tmp/a.pt"
  ∧ label_path_of "data/labels" "/tmp/a" "onset" = "/tmp/a.onset.json".
Proof.
  split; [|split].
  - exact (proj1 (proj1 (artifact_paths "data/features" "data/labels" "a"
                           "onset") eq_refl)).
  - exact (proj1 (proj2 (artifact_paths "data/features" "data/labels" "/tmp/a"
                           "onset") eq_refl)).
  - exact (proj2 (proj2 (artifact_paths "data/features" "data/labels" "/tmp/a"
                           "onset") eq_refl)).
Defined.

(** ** Entries with a non-negative start over a sequence of calls *)

(** X13: whatever calls of [__getitem__] were made before, at whatever
    indices, a call at a valid index whose catalogue entry has a feature
    start >= 0 returns, or raises, exactly what it does on the object as it
    was constructed. *)
Theorem nonnegative_onset_entries_are_stable (fs : gmap string file)
    (idxs : list Z) (self : Dataset) (idx : Z) (m : DatasetItem) :
  0 ≤ idx < __len__ self →
  datamapping self !! Z.to_nat idx = Some m →
  0 ≤ onset_frame (feature m) →
  fst (__getitem__ fs idx (after_calls fs idxs self))
  = fst (__getitem__ fs idx self).
Proof.
  intros Hidx Hm Hge.
  destruct (calls_only_reset_negative_onsets_aux fs idxs self)
    as (Hc & _ & _ & Hfd & Hld & Hnf & Hlen & Hent).
  destruct (Hent _ _ Hm) as (m' & Hm' & _ & _ & [->|[? _]]); [|lia].
  unfold __len__ in *.
  pose proof (list_index_in_range _ _ Hidx) as Hk.
  assert (Hk' : list_index (length (datamapping (after_calls fs idxs self))) idx
                = Ok (Z.to_nat idx)) by (apply list_index_in_range; lia).
  rewrite (getitem_sample_of _ _ _ _ _ Hk Hm),
    (getitem_sample_of _ _ _ _ _ Hk' Hm').
  simpl. by apply sample_of_congr.
Qed.

(** Index 2 of the example (start = 2) after calls at indices 0, 2, 7, 0. *)
Lemma nonnegative_onset_entries_are_stable_witness :
  fst (__getitem__ example.disk 2
         (after_calls example.disk [0; 2; 7; 0] example.dataset))
  = fst (__getitem__ example.disk 2 example.dataset).
Proof.
  apply (nonnegative_onset_entries_are_stable example.disk [0; 2; 7; 0]
           example.dataset 2 (example.entry 2)).
  - unfold __len__. simpl. lia.
  - reflexivity.
  - simpl. lia.
Defined.
